(** * Romaneio manual: spreadsheet normaliser and document composer

    A shallow embedding of [rom.py] and the properties its specification
    states about it.

    Conventions of the embedding.

    - A Python [str] is a list of Unicode code points ([ustring]).  The
      Unicode character database is tabulated for the code points below
      U+0400 (Latin, IPA, spacing modifiers, combining diacritical marks,
      Greek); a code point outside the table is an inert starter: no
      decomposition, combining class 0, no case mapping, not a space, not
      a digit.  Every code point the tables produce outside that range is
      inert in the Unicode database too.
    - A Python [float] is an IEEE 754 binary64 value, [spec_float] with
      precision 53 and maximal exponent 1024; arithmetic is the correctly
      rounded arithmetic of [SpecFloat].
    - Page geometry (reportlab lengths in points) is computed over exact
      rationals [Q].
    - A function that can raise returns a [result]; the canvas is the list
      of drawing operations issued on it, in order.
    - What the code obtains from its environment (HTTP responses, the
      workbook reader, the markup parser of the paragraph flowable, the
      logo file) is an explicit argument. *)

From Stdlib Require Import Strings.String Strings.Ascii DecimalString DecimalN DecimalPos.
From Stdlib Require Import List NArith ZArith QArith Qabs Qpower Bool Lia Lqa Arith.
From Stdlib Require Import Floats.SpecFloat.
Import ListNotations.

Set Implicit Arguments.

(** ** Python strings *)

Abbreviation codepoint := N (only parsing).
Abbreviation ustring := (list N) (only parsing).

Local Open Scope N_scope.

(** UTF-8 decoding, used only to write string literals of the source. *)
Fixpoint utf8_decode (bs : list N) : ustring :=
  match bs with
  | [] => []
  | b0 :: r0 =>
    if b0 <? 128 then b0 :: utf8_decode r0
    else match r0 with
    | [] => [b0]
    | b1 :: r1 =>
      if b0 <? 224 then ((b0 - 192) * 64 + (b1 - 128)) :: utf8_decode r1
      else match r1 with
      | [] => [b0; b1]
      | b2 :: r2 =>
        if b0 <? 240
        then ((b0 - 224) * 4096 + (b1 - 128) * 64 + (b2 - 128)) :: utf8_decode r2
        else match r2 with
        | [] => [b0; b1; b2]
        | b3 :: r3 =>
          ((b0 - 240) * 262144 + (b1 - 128) * 4096 + (b2 - 128) * 64 + (b3 - 128))
            :: utf8_decode r3
        end
      end
    end
  end.

Definition u (s : string) : ustring :=
  utf8_decode (map N_of_ascii (list_ascii_of_string s)).
Arguments u s%_string.

Definition ustring_eqb (a b : ustring) : bool :=
  if list_eq_dec N.eq_dec a b then true else false.

(** ** The Unicode character database, code points below U+0400 *)

Definition table_limit : N := 1024.

Definition decomposition_table (c : N) : list N :=
  match c with
  | 160 => [32] | 168 => [32; 776] | 170 => [97] | 175 => [32; 772] | 178 => [50]
  | 179 => [51] | 180 => [32; 769] | 181 => [956] | 184 => [32; 807] | 185 => [49]
  | 186 => [111] | 188 => [49; 8260; 52] | 189 => [49; 8260; 50] | 190 => [51; 8260; 52]
  | 192 => [65; 768] | 193 => [65; 769] | 194 => [65; 770] | 195 => [65; 771]
  | 196 => [65; 776] | 197 => [65; 778] | 199 => [67; 807] | 200 => [69; 768]
  | 201 => [69; 769] | 202 => [69; 770] | 203 => [69; 776] | 204 => [73; 768]
  | 205 => [73; 769] | 206 => [73; 770] | 207 => [73; 776] | 209 => [78; 771]
  | 210 => [79; 768] | 211 => [79; 769] | 212 => [79; 770] | 213 => [79; 771]
  | 214 => [79; 776] | 217 => [85; 768] | 218 => [85; 769] | 219 => [85; 770]
  | 220 => [85; 776] | 221 => [89; 769] | 224 => [97; 768] | 225 => [97; 769]
  | 226 => [97; 770] | 227 => [97; 771] | 228 => [97; 776] | 229 => [97; 778]
  | 231 => [99; 807] | 232 => [101; 768] | 233 => [101; 769] | 234 => [101; 770]
  | 235 => [101; 776] | 236 => [105; 768] | 237 => [105; 769] | 238 => [105; 770]
  | 239 => [105; 776] | 241 => [110; 771] | 242 => [111; 768] | 243 => [111; 769]
  | 244 => [111; 770] | 245 => [111; 771] | 246 => [111; 776] | 249 => [117; 768]
  | 250 => [117; 769] | 251 => [117; 770] | 252 => [117; 776] | 253 => [121; 769]
  | 255 => [121; 776] | 256 => [65; 772] | 257 => [97; 772] | 258 => [65; 774]
  | 259 => [97; 774] | 260 => [65; 808] | 261 => [97; 808] | 262 => [67; 769]
  | 263 => [99; 769] | 264 => [67; 770] | 265 => [99; 770] | 266 => [67; 775]
  | 267 => [99; 775] | 268 => [67; 780] | 269 => [99; 780] | 270 => [68; 780]
  | 271 => [100; 780] | 274 => [69; 772] | 275 => [101; 772] | 276 => [69; 774]
  | 277 => [101; 774] | 278 => [69; 775] | 279 => [101; 775] | 280 => [69; 808]
  | 281 => [101; 808] | 282 => [69; 780] | 283 => [101; 780] | 284 => [71; 770]
  | 285 => [103; 770] | 286 => [71; 774] | 287 => [103; 774] | 288 => [71; 775]
  | 289 => [103; 775] | 290 => [71; 807] | 291 => [103; 807] | 292 => [72; 770]
  | 293 => [104; 770] | 296 => [73; 771] | 297 => [105; 771] | 298 => [73; 772]
  | 299 => [105; 772] | 300 => [73; 774] | 301 => [105; 774] | 302 => [73; 808]
  | 303 => [105; 808] | 304 => [73; 775] | 306 => [73; 74] | 307 => [105; 106]
  | 308 => [74; 770] | 309 => [106; 770] | 310 => [75; 807] | 311 => [107; 807]
  | 313 => [76; 769] | 314 => [108; 769] | 315 => [76; 807] | 316 => [108; 807]
  | 317 => [76; 780] | 318 => [108; 780] | 319 => [76; 183] | 320 => [108; 183]
  | 323 => [78; 769] | 324 => [110; 769] | 325 => [78; 807] | 326 => [110; 807]
  | 327 => [78; 780] | 328 => [110; 780] | 329 => [700; 110] | 332 => [79; 772]
  | 333 => [111; 772] | 334 => [79; 774] | 335 => [111; 774] | 336 => [79; 779]
  | 337 => [111; 779] | 340 => [82; 769] | 341 => [114; 769] | 342 => [82; 807]
  | 343 => [114; 807] | 344 => [82; 780] | 345 => [114; 780] | 346 => [83; 769]
  | 347 => [115; 769] | 348 => [83; 770] | 349 => [115; 770] | 350 => [83; 807]
  | 351 => [115; 807] | 352 => [83; 780] | 353 => [115; 780] | 354 => [84; 807]
  | 355 => [116; 807] | 356 => [84; 780] | 357 => [116; 780] | 360 => [85; 771]
  | 361 => [117; 771] | 362 => [85; 772] | 363 => [117; 772] | 364 => [85; 774]
  | 365 => [117; 774] | 366 => [85; 778] | 367 => [117; 778] | 368 => [85; 779]
  | 369 => [117; 779] | 370 => [85; 808] | 371 => [117; 808] | 372 => [87; 770]
  | 373 => [119; 770] | 374 => [89; 770] | 375 => [121; 770] | 376 => [89; 776]
  | 377 => [90; 769] | 378 => [122; 769] | 379 => [90; 775] | 380 => [122; 775]
  | 381 => [90; 780] | 382 => [122; 780] | 383 => [115] | 416 => [79; 795]
  | 417 => [111; 795] | 431 => [85; 795] | 432 => [117; 795] | 452 => [68; 90; 780]
  | 453 => [68; 122; 780] | 454 => [100; 122; 780] | 455 => [76; 74] | 456 => [76; 106]
  | 457 => [108; 106] | 458 => [78; 74] | 459 => [78; 106] | 460 => [110; 106]
  | 461 => [65; 780] | 462 => [97; 780] | 463 => [73; 780] | 464 => [105; 780]
  | 465 => [79; 780] | 466 => [111; 780] | 467 => [85; 780] | 468 => [117; 780]
  | 469 => [85; 776; 772] | 470 => [117; 776; 772] | 471 => [85; 776; 769]
  | 472 => [117; 776; 769] | 473 => [85; 776; 780] | 474 => [117; 776; 780]
  | 475 => [85; 776; 768] | 476 => [117; 776; 768] | 478 => [65; 776; 772]
  | 479 => [97; 776; 772] | 480 => [65; 775; 772] | 481 => [97; 775; 772]
  | 482 => [198; 772] | 483 => [230; 772] | 486 => [71; 780] | 487 => [103; 780]
  | 488 => [75; 780] | 489 => [107; 780] | 490 => [79; 808] | 491 => [111; 808]
  | 492 => [79; 808; 772] | 493 => [111; 808; 772] | 494 => [439; 780] | 495 => [658; 780]
  | 496 => [106; 780] | 497 => [68; 90] | 498 => [68; 122] | 499 => [100; 122]
  | 500 => [71; 769] | 501 => [103; 769] | 504 => [78; 768] | 505 => [110; 768]
  | 506 => [65; 778; 769] | 507 => [97; 778; 769] | 508 => [198; 769] | 509 => [230; 769]
  | 510 => [216; 769] | 511 => [248; 769] | 512 => [65; 783] | 513 => [97; 783]
  | 514 => [65; 785] | 515 => [97; 785] | 516 => [69; 783] | 517 => [101; 783]
  | 518 => [69; 785] | 519 => [101; 785] | 520 => [73; 783] | 521 => [105; 783]
  | 522 => [73; 785] | 523 => [105; 785] | 524 => [79; 783] | 525 => [111; 783]
  | 526 => [79; 785] | 527 => [111; 785] | 528 => [82; 783] | 529 => [114; 783]
  | 530 => [82; 785] | 531 => [114; 785] | 532 => [85; 783] | 533 => [117; 783]
  | 534 => [85; 785] | 535 => [117; 785] | 536 => [83; 806] | 537 => [115; 806]
  | 538 => [84; 806] | 539 => [116; 806] | 542 => [72; 780] | 543 => [104; 780]
  | 550 => [65; 775] | 551 => [97; 775] | 552 => [69; 807] | 553 => [101; 807]
  | 554 => [79; 776; 772] | 555 => [111; 776; 772] | 556 => [79; 771; 772]
  | 557 => [111; 771; 772] | 558 => [79; 775] | 559 => [111; 775] | 560 => [79; 775; 772]
  | 561 => [111; 775; 772] | 562 => [89; 772] | 563 => [121; 772] | 688 => [104]
  | 689 => [614] | 690 => [106] | 691 => [114] | 692 => [633] | 693 => [635] | 694 => [641]
  | 695 => [119] | 696 => [121] | 728 => [32; 774] | 729 => [32; 775] | 730 => [32; 778]
  | 731 => [32; 808] | 732 => [32; 771] | 733 => [32; 779] | 736 => [611] | 737 => [108]
  | 738 => [115] | 739 => [120] | 740 => [661] | 832 => [768] | 833 => [769] | 835 => [787]
  | 836 => [776; 769] | 884 => [697] | 890 => [32; 837] | 894 => [59] | 900 => [32; 769]
  | 901 => [32; 776; 769] | 902 => [913; 769] | 903 => [183] | 904 => [917; 769]
  | 905 => [919; 769] | 906 => [921; 769] | 908 => [927; 769] | 910 => [933; 769]
  | 911 => [937; 769] | 912 => [953; 776; 769] | 938 => [921; 776] | 939 => [933; 776]
  | 940 => [945; 769] | 941 => [949; 769] | 942 => [951; 769] | 943 => [953; 769]
  | 944 => [965; 776; 769] | 970 => [953; 776] | 971 => [965; 776] | 972 => [959; 769]
  | 973 => [965; 769] | 974 => [969; 769] | 976 => [946] | 977 => [952] | 978 => [933]
  | 979 => [933; 769] | 980 => [933; 776] | 981 => [966] | 982 => [960] | 1008 => [954]
  | 1009 => [961] | 1010 => [962] | 1012 => [920] | 1013 => [949] | 1017 => [931]
  | _ => [c]
  end.

Definition combining_table (c : N) : N :=
  match c with
  | 768 => 230 | 769 => 230 | 770 => 230 | 771 => 230 | 772 => 230 | 773 => 230
  | 774 => 230 | 775 => 230 | 776 => 230 | 777 => 230 | 778 => 230 | 779 => 230
  | 780 => 230 | 781 => 230 | 782 => 230 | 783 => 230 | 784 => 230 | 785 => 230
  | 786 => 230 | 787 => 230 | 788 => 230 | 789 => 232 | 790 => 220 | 791 => 220
  | 792 => 220 | 793 => 220 | 794 => 232 | 795 => 216 | 796 => 220 | 797 => 220
  | 798 => 220 | 799 => 220 | 800 => 220 | 801 => 202 | 802 => 202 | 803 => 220
  | 804 => 220 | 805 => 220 | 806 => 220 | 807 => 202 | 808 => 202 | 809 => 220
  | 810 => 220 | 811 => 220 | 812 => 220 | 813 => 220 | 814 => 220 | 815 => 220
  | 816 => 220 | 817 => 220 | 818 => 220 | 819 => 220 | 820 => 1 | 821 => 1 | 822 => 1
  | 823 => 1 | 824 => 1 | 825 => 220 | 826 => 220 | 827 => 220 | 828 => 220 | 829 => 230
  | 830 => 230 | 831 => 230 | 832 => 230 | 833 => 230 | 834 => 230 | 835 => 230
  | 836 => 230 | 837 => 240 | 838 => 230 | 839 => 220 | 840 => 220 | 841 => 220
  | 842 => 230 | 843 => 230 | 844 => 230 | 845 => 220 | 846 => 220 | 848 => 230
  | 849 => 230 | 850 => 230 | 851 => 220 | 852 => 220 | 853 => 220 | 854 => 220
  | 855 => 230 | 856 => 232 | 857 => 220 | 858 => 220 | 859 => 230 | 860 => 233
  | 861 => 234 | 862 => 234 | 863 => 233 | 864 => 234 | 865 => 234 | 866 => 233
  | 867 => 230 | 868 => 230 | 869 => 230 | 870 => 230 | 871 => 230 | 872 => 230
  | 873 => 230 | 874 => 230 | 875 => 230 | 876 => 230 | 877 => 230 | 878 => 230
  | 879 => 230
  | _ => 0
  end.

Definition uppercase_table (c : N) : list N :=
  match c with
  | 97 => [65] | 98 => [66] | 99 => [67] | 100 => [68] | 101 => [69] | 102 => [70]
  | 103 => [71] | 104 => [72] | 105 => [73] | 106 => [74] | 107 => [75] | 108 => [76]
  | 109 => [77] | 110 => [78] | 111 => [79] | 112 => [80] | 113 => [81] | 114 => [82]
  | 115 => [83] | 116 => [84] | 117 => [85] | 118 => [86] | 119 => [87] | 120 => [88]
  | 121 => [89] | 122 => [90] | 181 => [924] | 223 => [83; 83] | 224 => [192]
  | 225 => [193] | 226 => [194] | 227 => [195] | 228 => [196] | 229 => [197] | 230 => [198]
  | 231 => [199] | 232 => [200] | 233 => [201] | 234 => [202] | 235 => [203] | 236 => [204]
  | 237 => [205] | 238 => [206] | 239 => [207] | 240 => [208] | 241 => [209] | 242 => [210]
  | 243 => [211] | 244 => [212] | 245 => [213] | 246 => [214] | 248 => [216] | 249 => [217]
  | 250 => [218] | 251 => [219] | 252 => [220] | 253 => [221] | 254 => [222] | 255 => [376]
  | 257 => [256] | 259 => [258] | 261 => [260] | 263 => [262] | 265 => [264] | 267 => [266]
  | 269 => [268] | 271 => [270] | 273 => [272] | 275 => [274] | 277 => [276] | 279 => [278]
  | 281 => [280] | 283 => [282] | 285 => [284] | 287 => [286] | 289 => [288] | 291 => [290]
  | 293 => [292] | 295 => [294] | 297 => [296] | 299 => [298] | 301 => [300] | 303 => [302]
  | 305 => [73] | 307 => [306] | 309 => [308] | 311 => [310] | 314 => [313] | 316 => [315]
  | 318 => [317] | 320 => [319] | 322 => [321] | 324 => [323] | 326 => [325] | 328 => [327]
  | 329 => [700; 78] | 331 => [330] | 333 => [332] | 335 => [334] | 337 => [336]
  | 339 => [338] | 341 => [340] | 343 => [342] | 345 => [344] | 347 => [346] | 349 => [348]
  | 351 => [350] | 353 => [352] | 355 => [354] | 357 => [356] | 359 => [358] | 361 => [360]
  | 363 => [362] | 365 => [364] | 367 => [366] | 369 => [368] | 371 => [370] | 373 => [372]
  | 375 => [374] | 378 => [377] | 380 => [379] | 382 => [381] | 383 => [83] | 384 => [579]
  | 387 => [386] | 389 => [388] | 392 => [391] | 396 => [395] | 402 => [401] | 405 => [502]
  | 409 => [408] | 410 => [573] | 414 => [544] | 417 => [416] | 419 => [418] | 421 => [420]
  | 424 => [423] | 429 => [428] | 432 => [431] | 436 => [435] | 438 => [437] | 441 => [440]
  | 445 => [444] | 447 => [503] | 453 => [452] | 454 => [452] | 456 => [455] | 457 => [455]
  | 459 => [458] | 460 => [458] | 462 => [461] | 464 => [463] | 466 => [465] | 468 => [467]
  | 470 => [469] | 472 => [471] | 474 => [473] | 476 => [475] | 477 => [398] | 479 => [478]
  | 481 => [480] | 483 => [482] | 485 => [484] | 487 => [486] | 489 => [488] | 491 => [490]
  | 493 => [492] | 495 => [494] | 496 => [74; 780] | 498 => [497] | 499 => [497]
  | 501 => [500] | 505 => [504] | 507 => [506] | 509 => [508] | 511 => [510] | 513 => [512]
  | 515 => [514] | 517 => [516] | 519 => [518] | 521 => [520] | 523 => [522] | 525 => [524]
  | 527 => [526] | 529 => [528] | 531 => [530] | 533 => [532] | 535 => [534] | 537 => [536]
  | 539 => [538] | 541 => [540] | 543 => [542] | 547 => [546] | 549 => [548] | 551 => [550]
  | 553 => [552] | 555 => [554] | 557 => [556] | 559 => [558] | 561 => [560] | 563 => [562]
  | 572 => [571] | 575 => [11390] | 576 => [11391] | 578 => [577] | 583 => [582]
  | 585 => [584] | 587 => [586] | 589 => [588] | 591 => [590] | 592 => [11375]
  | 593 => [11373] | 594 => [11376] | 595 => [385] | 596 => [390] | 598 => [393]
  | 599 => [394] | 601 => [399] | 603 => [400] | 604 => [42923] | 608 => [403]
  | 609 => [42924] | 611 => [404] | 613 => [42893] | 614 => [42922] | 616 => [407]
  | 617 => [406] | 618 => [42926] | 619 => [11362] | 620 => [42925] | 623 => [412]
  | 625 => [11374] | 626 => [413] | 629 => [415] | 637 => [11364] | 640 => [422]
  | 642 => [42949] | 643 => [425] | 647 => [42929] | 648 => [430] | 649 => [580]
  | 650 => [433] | 651 => [434] | 652 => [581] | 658 => [439] | 669 => [42930]
  | 670 => [42928] | 837 => [921] | 881 => [880] | 883 => [882] | 887 => [886]
  | 891 => [1021] | 892 => [1022] | 893 => [1023] | 912 => [921; 776; 769] | 940 => [902]
  | 941 => [904] | 942 => [905] | 943 => [906] | 944 => [933; 776; 769] | 945 => [913]
  | 946 => [914] | 947 => [915] | 948 => [916] | 949 => [917] | 950 => [918] | 951 => [919]
  | 952 => [920] | 953 => [921] | 954 => [922] | 955 => [923] | 956 => [924] | 957 => [925]
  | 958 => [926] | 959 => [927] | 960 => [928] | 961 => [929] | 962 => [931] | 963 => [931]
  | 964 => [932] | 965 => [933] | 966 => [934] | 967 => [935] | 968 => [936] | 969 => [937]
  | 970 => [938] | 971 => [939] | 972 => [908] | 973 => [910] | 974 => [911] | 976 => [914]
  | 977 => [920] | 981 => [934] | 982 => [928] | 983 => [975] | 985 => [984] | 987 => [986]
  | 989 => [988] | 991 => [990] | 993 => [992] | 995 => [994] | 997 => [996] | 999 => [998]
  | 1001 => [1000] | 1003 => [1002] | 1005 => [1004] | 1007 => [1006] | 1008 => [922]
  | 1009 => [929] | 1010 => [1017] | 1011 => [895] | 1013 => [917] | 1016 => [1015]
  | 1019 => [1018]
  | _ => [c]
  end.
(** [unicodedata.decomposition], applied recursively (compatibility
    decomposition). *)
Definition decomposition (c : codepoint) : ustring :=
  if c <? table_limit then decomposition_table c else [c].

(** [unicodedata.combining]: the canonical combining class. *)
Definition combining (c : codepoint) : N :=
  if c <? table_limit then combining_table c else 0.

(** The full uppercase mapping [str.upper] applies to each character. *)
Definition to_upper (c : codepoint) : ustring :=
  if c <? table_limit then uppercase_table c else [c].

(** [str.isspace] on one character; [str.split] and [str.strip] use it. *)
Definition isspace (c : codepoint) : bool :=
  match c with
  | 9 | 10 | 11 | 12 | 13 | 28 | 29 | 30 | 31 | 32 | 133 | 160 => true
  | _ => false
  end.

(** The class [\d] of [re]. *)
Definition isdigit (c : codepoint) : bool := (48 <=? c) && (c <=? 57).

Definition space : codepoint := 32.

(** *** [unicodedata.normalize("NFKD", s)] *)

Definition full_decompose (s : ustring) : ustring := flat_map decomposition s.

(** Canonical ordering: every maximal run of characters of non-zero
    combining class is sorted by class, stably. *)
Fixpoint insert_mark (c : codepoint) (run : ustring) : ustring :=
  match run with
  | [] => [c]
  | d :: r =>
    if combining c <? combining d then c :: d :: r else d :: insert_mark c r
  end.

Definition sort_marks (run : ustring) : ustring :=
  fold_left (fun acc c => insert_mark c acc) run [].

Fixpoint canonical_order (run s : ustring) : ustring :=
  match s with
  | [] => sort_marks run
  | c :: s' =>
    if combining c =? 0 then sort_marks run ++ c :: canonical_order [] s'
    else canonical_order (run ++ [c]) s'
  end.

Definition nfkd (s : ustring) : ustring := canonical_order [] (full_decompose s).

(** *** [str] methods *)

Definition upper (s : ustring) : ustring := flat_map to_upper s.

Fixpoint dropwhile (p : codepoint -> bool) (s : ustring) : ustring :=
  match s with
  | [] => []
  | c :: s' => if p c then dropwhile p s' else s
  end.

Definition strip (s : ustring) : ustring :=
  rev (dropwhile isspace (rev (dropwhile isspace s))).

Definition emit (w : ustring) : list ustring :=
  match w with [] => [] | _ => [w] end.

(** [s.split()]: the maximal runs of non-space characters. *)
Fixpoint split_acc (cur s : ustring) : list ustring :=
  match s with
  | [] => emit cur
  | c :: s' =>
    if isspace c then emit cur ++ split_acc [] s' else split_acc (cur ++ [c]) s'
  end.

Definition split (s : ustring) : list ustring := split_acc [] s.

Fixpoint join (sep : ustring) (ws : list ustring) : ustring :=
  match ws with
  | [] => []
  | [w] => w
  | w :: ws' => w ++ sep ++ join sep ws'
  end.

Fixpoint startswith (p s : ustring) : bool :=
  match p, s with
  | [], _ => true
  | _ :: _, [] => false
  | a :: p', b :: s' => (a =? b) && startswith p' s'
  end.

(** [p in s] *)
Fixpoint contains (p s : ustring) : bool :=
  match s with
  | [] => startswith p []
  | _ :: s' => startswith p s || contains p s'
  end.

(** [s.replace(old, new)]: occurrences are replaced from the left and do not
    overlap; [skip] counts the characters of the occurrence just replaced
    that are still to be passed over. *)
Fixpoint replace_from (old new : ustring) (skip : nat) (s : ustring) : ustring :=
  match s with
  | [] => []
  | c :: s' =>
    match skip with
    | S k => replace_from old new k s'
    | O =>
      if startswith old s then new ++ replace_from old new (length old - 1) s'
      else c :: replace_from old new 0 s'
    end
  end.

Definition replace (old new s : ustring) : ustring :=
  match old with
  | [] => new ++ flat_map (fun c => c :: new) s
  | _ => replace_from old new 0 s
  end.

(** ** Spreadsheet helpers *)

(** [normalize]: strip the diacritics, collapse the white space, upper-case. *)
Definition normalize (s : ustring) : ustring :=
  let s := filter (fun c => combining c =? 0) (nfkd s) in
  let s := join [space] (split (strip s)) in
  upper s.

Definition COLMAP : list (ustring * ustring) :=
  [ (u "DEMANDA", u "DEMANDA"); (u "HORARIO", u "HORARIO"); (u "ARMADOR", u "ARMADOR");
    (u "TRANSPORTADORA", u "TRANSPORTADORA");
    (u "DATA PROGRAMACAO", u "DATA PROGRAMAÇÃO");
    (u "DATA PROGRAMAÇÃO", u "DATA PROGRAMAÇÃO"); (u "ROMANEIO", u "ROMANEIO");
    (u "SKU", u "SKU"); (u "QTD", u "QTD"); (u "M3", u "M3"); (u "STATUS", u "STATUS");
    (u "NOME", u "NOME"); (u "MOTORISTA", u "NOME");
    (u "PLACA", u "PLACA"); (u "TECADI", u "TECADI"); (u "LISTA", u "LISTA") ].

(** [d.get(k, default)] *)
Fixpoint dict_get {A : Type} (d : list (ustring * A)) (k : ustring) (default : A) : A :=
  match d with
  | [] => default
  | (k', v) :: d' => if ustring_eqb k' k then v else dict_get d' k default
  end.

(** The name [rename_columns] gives to a header cell. *)
Definition column_key (c : ustring) : ustring :=
  dict_get COLMAP (normalize c) (normalize c).

(** ** Python numbers *)

Local Open Scope Z_scope.

(** [str(n)] for an [int]. *)
Fixpoint uint_codepoints (d : Decimal.uint) : ustring :=
  match d with
  | Decimal.Nil => []
  | Decimal.D0 r => 48%N :: uint_codepoints r
  | Decimal.D1 r => 49%N :: uint_codepoints r
  | Decimal.D2 r => 50%N :: uint_codepoints r
  | Decimal.D3 r => 51%N :: uint_codepoints r
  | Decimal.D4 r => 52%N :: uint_codepoints r
  | Decimal.D5 r => 53%N :: uint_codepoints r
  | Decimal.D6 r => 54%N :: uint_codepoints r
  | Decimal.D7 r => 55%N :: uint_codepoints r
  | Decimal.D8 r => 56%N :: uint_codepoints r
  | Decimal.D9 r => 57%N :: uint_codepoints r
  end.

Definition str_of_N (n : N) : ustring := uint_codepoints (N.to_uint n).

Definition str_of_Z (z : Z) : ustring :=
  if z <? 0 then 45%N :: str_of_N (Z.to_N (- z)) else str_of_N (Z.to_N z).

(** *** binary64 *)

Definition float := spec_float.
Definition prec : Z := 53.
Definition emax : Z := 1024.

Definition fsub : float -> float -> float := SFsub prec emax.
Definition fabs : float -> float := SFabs.
Definition fltb : float -> float -> bool := SFltb.

Definition float_same (x y : float) : bool :=
  match x, y with
  | S754_zero a, S754_zero b => Bool.eqb a b
  | S754_infinity a, S754_infinity b => Bool.eqb a b
  | S754_nan, S754_nan => true
  | S754_finite a m e, S754_finite b n f => Bool.eqb a b && (m =? n)%positive && (e =? f)
  | _, _ => false
  end.

Definition is_nan (x : float) : bool :=
  match x with S754_nan => true | _ => false end.

Definition is_finite (x : float) : bool :=
  match x with S754_zero _ | S754_finite _ _ _ => true | _ => false end.

(** Conversion of an [int], rounding to nearest, ties to even. *)
Definition float_of_Z (z : Z) : float := binary_normalize prec emax z 0 false.

(** The binary64 value nearest to [digits * 10 ^ exp10] (ties to even), the
    value a decimal literal denotes. *)
Definition float_of_decimal (neg : bool) (digits exp10 : Z) : float :=
  match digits with
  | Z0 => S754_zero neg
  | Zpos d =>
    if 0 <=? exp10 then binary_round prec emax neg (Z.to_pos (Zpos d * 10 ^ exp10)) 0
    else SFdiv prec emax (S754_finite neg d 0)
                         (S754_finite false (Z.to_pos (10 ^ (- exp10))) 0)
  | Zneg _ => S754_nan
  end.

(** *** Reading a decimal numeral *)

Definition digit_value (c : codepoint) : Z := Z.of_N (c - 48).

(** A run of digits read into [acc]; [n] counts them.  With [us], single
    underscores between digits are skipped, as [float] allows. *)
Fixpoint scan_digits (us : bool) (acc : Z) (n : nat) (s : ustring) : Z * nat * ustring :=
  match s with
  | [] => (acc, n, s)
  | c :: s' =>
    if isdigit c then scan_digits us (10 * acc + digit_value c) (S n) s'
    else if us && (c =? 95)%N && negb (Nat.eqb n 0) then
      match s' with
      | d :: s'' =>
        if isdigit d then scan_digits us (10 * acc + digit_value d) (S n) s''
        else (acc, n, s)
      | [] => (acc, n, s)
      end
    else (acc, n, s)
  end.

Definition scan_sign (s : ustring) : bool * ustring :=
  match s with
  | 43%N :: r => (false, r)
  | 45%N :: r => (true, r)
  | _ => (false, s)
  end.

(** digits, optional fraction, optional exponent; the whole of [s] must be
    consumed.  The result [(m, e)] stands for [m * 10 ^ e]. *)
Definition parse_number (us : bool) (s : ustring) : option (Z * Z) :=
  let '(ip, ni, r1) := scan_digits us 0 0 s in
  let '(m, nf, r2) :=
    match r1 with
    | 46%N :: r => scan_digits us ip 0 r
    | _ => (ip, O, r1)
    end in
  if Nat.eqb (ni + nf) 0 then None
  else match r2 with
  | [] => Some (m, - Z.of_nat nf)
  | c :: r3 =>
    if (c =? 101)%N || (c =? 69)%N then
      let '(eneg, r4) := scan_sign r3 in
      let '(e, ne, r5) := scan_digits us 0 0 r4 in
      if Nat.eqb ne 0 then None
      else match r5 with
      | [] => Some (m, (if eneg then - e else e) - Z.of_nat nf)
      | _ :: _ => None
      end
    else None
  end.

Definition ascii_lower (c : codepoint) : codepoint :=
  if ((65 <=? c) && (c <=? 90))%N then (c + 32)%N else c.

Definition number_of_str (us : bool) (s : ustring) : option float :=
  let '(neg, body) := scan_sign (strip s) in
  let low := map ascii_lower body in
  if ustring_eqb low (u "inf") || ustring_eqb low (u "infinity")
  then Some (S754_infinity neg)
  else if ustring_eqb low (u "nan") then Some S754_nan
  else match parse_number us body with
  | Some (m, e) => Some (float_of_decimal neg m e)
  | None => None
  end.

(** [float(s)] for a [str]; [None] stands for [ValueError]. *)
Definition float_of_str (s : ustring) : option float := number_of_str true s.

(** [pandas.to_numeric(..., errors="coerce")] on one string: what does not
    read as a number becomes NaN. *)
Definition to_numeric (s : ustring) : float :=
  match number_of_str false s with
  | Some f => f
  | None => S754_nan
  end.

(** *** [round(f)] with one argument: the nearest [int], ties to even.
    [None] stands for the [ValueError] (NaN) or [OverflowError] (infinity)
    Python raises. *)
Definition round_half_even (m e : Z) : Z :=
  if 0 <=? e then m * 2 ^ e
  else
    let d := 2 ^ (- e) in
    let q := m / d in
    match (2 * (m mod d)) ?= d with
    | Lt => q
    | Gt => q + 1
    | Eq => if Z.even q then q else q + 1
    end.

Definition py_round (f : float) : option Z :=
  match f with
  | S754_zero _ => Some 0
  | S754_finite s m e =>
    let n := round_half_even (Zpos m) e in Some (if s then - n else n)
  | S754_infinity _ | S754_nan => None
  end.

(** *** [repr(f)]: the shortest decimal numeral that reads back as [f] *)

(** [m * 2 ^ e] as a fraction. *)
Definition fraction_of (m : positive) (e : Z) : Z * Z :=
  if 0 <=? e then (Zpos m * 2 ^ e, 1) else (Zpos m, 2 ^ (- e)).

Definition pow10_le (t num den : Z) : bool :=
  if 0 <=? t then 10 ^ t * den <=? num else den <=? num * 10 ^ (- t).

(** The largest [t] with [10 ^ t <= num / den], searched downwards from
    [t]. *)
Fixpoint decimal_exponent_from (fuel : nat) (t num den : Z) : Z :=
  match fuel with
  | O => t
  | S k => if pow10_le t num den then t else decimal_exponent_from k (t - 1) num den
  end.

(** The search starts from a bound read off the binary lengths:
    [num / den < 2 ^ x] with [x] as below, and [log10 2] lies between
    0.30102 and 0.30103. *)
Definition decimal_exponent (num den : Z) : Z :=
  let x := Z.log2 num - Z.log2 den + 1 in
  let t := (if 0 <=? x then x * 30103 else x * 30102) / 100000 + 1 in
  decimal_exponent_from 800 t num den.

(** [num / den / 10 ^ k] as a fraction. *)
Definition scale (k num den : Z) : Z * Z :=
  if 0 <=? k then (num, den * 10 ^ k) else (num * 10 ^ (- k), den).

(** With [n] significant digits, the two decimals around the value are
    tried; the one that reads back as the float is taken, the nearer one
    (ties to even) when both do.  Seventeen digits always suffice. *)
Fixpoint shortest_decimal (fuel : nat) (n : Z) (m : positive) (e t num den : Z) : Z * Z :=
  let k := t + 1 - n in
  let '(a, b) := scale k num den in
  let lo := a / b in
  let hi := lo + 1 in
  let ok d := float_same (float_of_decimal false d k) (S754_finite false m e) in
  let pick :=
    match ok lo, ok hi with
    | true, true =>
      Some match (2 * (a mod b)) ?= b with
           | Lt => lo
           | Gt => hi
           | Eq => if Z.even lo then lo else hi
           end
    | true, false => Some lo
    | false, true => Some hi
    | false, false => None
    end in
  match pick, fuel with
  | Some d, _ => (d, k)
  | None, S fuel' => shortest_decimal fuel' (n + 1) m e t num den
  | None, O => (lo, k)
  end.

Fixpoint strip_zeros (fuel : nat) (d k : Z) : Z * Z :=
  match fuel with
  | O => (d, k)
  | S fuel' => if (d mod 10 =? 0) && negb (d =? 0) then strip_zeros fuel' (d / 10) (k + 1) else (d, k)
  end.

Definition zeros (n : Z) : ustring := repeat 48%N (Z.to_nat n).

(** The layout of [repr]: exponent notation when the decimal point would
    fall more than 16 places to the right of the first digit or 4 or more to
    its left, positional notation otherwise, and then never without a
    fractional part. *)
Definition layout_repr (digits : ustring) (decpt : Z) : ustring :=
  let nd := Z.of_nat (List.length digits) in
  if (decpt <=? -4) || (16 <? decpt) then
    let x := decpt - 1 in
    let mant :=
      match digits with
      | [] => []
      | [d] => [d]
      | d :: r => d :: 46%N :: r
      end in
    let ex := str_of_Z (Z.abs x) in
    mant ++ [101%N] ++ [if x <? 0 then 45%N else 43%N]
         ++ (if Z.abs x <? 10 then 48%N :: ex else ex)
  else if decpt <=? 0 then
    u "0." ++ zeros (- decpt) ++ digits
  else if nd <=? decpt then
    digits ++ zeros (decpt - nd) ++ u ".0"
  else
    firstn (Z.to_nat decpt) digits ++ 46%N :: skipn (Z.to_nat decpt) digits.

Definition repr_float (f : float) : ustring :=
  match f with
  | S754_nan => u "nan"
  | S754_infinity s => if s then u "-inf" else u "inf"
  | S754_zero s => if s then u "-0.0" else u "0.0"
  | S754_finite s m e =>
    let '(num, den) := fraction_of m e in
    let t := decimal_exponent num den in
    let '(d0, k0) := shortest_decimal 16 1 m e t num den in
    let '(d, k) := strip_zeros 400 d0 k0 in
    let digits := str_of_Z d in
    let body := layout_repr digits (Z.of_nat (List.length digits) + k) in
    if s then 45%N :: body else body
  end.

(** ** Python values and exceptions *)

(** What a cell of the sheet, or a field of a row, can hold.  A missing
    value is the float NaN, as in pandas. *)
Inductive pyval :=
| PyStr (s : ustring)
| PyInt (z : Z)
| PyFloat (f : float)
| PyNone.

Definition NaN : pyval := PyFloat S754_nan.

(** [str(v)] *)
Definition py_str (v : pyval) : ustring :=
  match v with
  | PyStr s => s
  | PyInt z => str_of_Z z
  | PyFloat f => repr_float f
  | PyNone => u "None"
  end.

(** [float(v)]; [None] stands for the exception raised. *)
Definition py_float (v : pyval) : option float :=
  match v with
  | PyStr s => float_of_str s
  | PyInt z => let f := float_of_Z z in if is_finite f then Some f else None
  | PyFloat f => Some f
  | PyNone => None
  end.

(** [pd.notna(v)] *)
Definition notna (v : pyval) : bool :=
  match v with
  | PyNone => false
  | PyFloat f => negb (is_nan f)
  | _ => true
  end.

Record exn := { exn_class : ustring; exn_msg : ustring }.

(** [str(e)] and [repr(e)] *)
Definition exn_str (e : exn) : ustring := exn_msg e.
Definition exn_repr (e : exn) : ustring :=
  exn_class e ++ u "('" ++ exn_msg e ++ u "')".

Inductive result (A : Type) :=
| Ok (a : A)
| Raise (e : exn).
Arguments Ok {A} a.
Arguments Raise {A} e.

Definition bind {A B : Type} (r : result A) (k : A -> result B) : result B :=
  match r with
  | Ok a => k a
  | Raise e => Raise e
  end.

Notation "x <- r ;; k" := (bind r (fun x => k))
  (at level 61, r at next level, right associativity).

(** ** Configuration *)

Definition SHEET_NAME : ustring := u "PROCESSOS S.LEITURA".
Definition CLIENTE_FIXO : ustring := u "SPRINGER CARRIER LTDA (MIDEA).".
Definition CONTEUDO_FIXO : ustring := u "CHEIO".
Definition PRODUTO_TITULO : ustring := u "FAST CIF/FOB".
Definition FORM_COD : ustring := u "FM 108".
Definition FORM_REV : ustring := u "00".
Definition LOGO_IMAGE_PATH : ustring := u "logo_tecadi.png".

Definition REQUIRED_FOR_PDF : list ustring :=
  [u "ARMADOR"; u "TECADI"; u "SKU"; u "QTD"; u "LISTA"; u "DEMANDA";
   u "TRANSPORTADORA"; u "NOME"; u "PLACA"].

(** ** Tables *)

(** A row of a table ([pd.Series]): labels with their values. *)
Definition series := list (ustring * pyval).

(** A [pd.DataFrame]: the column names and the rows, each with its index
    label. *)
Record DataFrame := {
  columns : list ustring;
  records : list (Z * list pyval)
}.

Definition row_series (df : DataFrame) (cells : list pyval) : series :=
  combine (columns df) cells.

Definition col_in (row : series) (col : ustring) : bool :=
  existsb (fun kv => ustring_eqb (fst kv) col) row.

(** [row.get(col, default)]; [row[col]] when [col] is a label of the row. *)
Definition row_get (row : series) (col : ustring) (default : pyval) : pyval :=
  dict_get row col default.

(** [col in df.columns] *)
Definition has_column (df : DataFrame) (col : ustring) : bool :=
  existsb (ustring_eqb col) (columns df).

(** The position of the first column of that name. *)
Fixpoint column_index (cols : list ustring) (col : ustring) : option nat :=
  match cols with
  | [] => None
  | c :: r =>
    if ustring_eqb c col then Some O
    else match column_index r col with Some i => Some (S i) | None => None end
  end.

Fixpoint update_nth {A : Type} (f : A -> A) (i : nat) (xs : list A) : list A :=
  match xs, i with
  | [], _ => []
  | x :: r, O => f x :: r
  | x :: r, S j => x :: update_nth f j r
  end.

(** [df[col] = f(df[col])], element by element. *)
Definition map_column (f : pyval -> pyval) (col : ustring) (df : DataFrame) : DataFrame :=
  match column_index (columns df) col with
  | None => df
  | Some i =>
    {| columns := columns df;
       records := map (fun r => (fst r, update_nth f i (snd r))) (records df) |}
  end.

(** ** Spreadsheet normaliser *)

Definition grid := list (list pyval).

Fixpoint first_index (p : nat -> bool) (idx : list nat) : option nat :=
  match idx with
  | [] => None
  | i :: r => if p i then Some i else first_index p r
  end.

(** The text of a raw row: [" ".join([str(x) for x in row])]. *)
Definition joined (row : list pyval) : ustring := join [space] (map py_str row).

Definition is_header (row : list pyval) : bool :=
  contains (u "DEMANDA") (upper (joined row))
  && contains (u "ARMADOR") (upper (joined row)).

Definition find_header_row (df_raw : grid) : nat :=
  match first_index (fun i => is_header (nth i df_raw []))
                    (seq 0 (Nat.min 20 (List.length df_raw))) with
  | Some i => i
  | None => O
  end.

(** [d.columns.duplicated()]: true at every occurrence of a name but the
    first. *)
Fixpoint duplicated (seen cols : list ustring) : list bool :=
  match cols with
  | [] => []
  | c :: r => existsb (ustring_eqb c) seen :: duplicated (c :: seen) r
  end.

(** The elements at the positions where the mask is false. *)
Fixpoint drop_masked {A : Type} (mask : list bool) (xs : list A) : list A :=
  match mask, xs with
  | m :: mask', x :: xs' => if m then drop_masked mask' xs' else x :: drop_masked mask' xs'
  | _, _ => []
  end.

Definition rename_columns (df : DataFrame) : DataFrame :=
  let renamed := map column_key (columns df) in
  let dup := duplicated [] renamed in
  {| columns := drop_masked dup renamed;
     records := map (fun r => (fst r, drop_masked dup (snd r))) (records df) |}.

(** The quantity cell: [astype(str)], the two [str.replace], then
    [pd.to_numeric(errors="coerce")]. *)
Definition coerce_qtd (v : pyval) : pyval :=
  PyFloat (to_numeric (replace (u ",") (u ".") (replace (u ".") (u "") (py_str v)))).

Definition normalize_status (v : pyval) : pyval :=
  PyStr (upper (strip (py_str v))).

Definition IndexError : exn :=
  {| exn_class := u "IndexError";
     exn_msg := u "single positional indexer is out-of-bounds" |}.

(** [load_excel_from_bytes] once the sheet is read as a raw grid. *)
Definition load_table (df_raw : grid) : result DataFrame :=
  let header_row := find_header_row df_raw in
  match nth_error df_raw header_row with
  | None => Raise IndexError
  | Some hdr =>
    let headers := map py_str hdr in
    let labelled := combine (map Z.of_nat (seq 0 (List.length df_raw))) df_raw in
    let body := skipn (header_row + 1) labelled in
    let body := map (fun r => (fst r, firstn 15 (snd r))) body in
    let body := filter (fun r => existsb notna (snd r)) body in
    let df := rename_columns {| columns := firstn 15 headers; records := body |} in
    let df := map_column coerce_qtd (u "QTD") df in
    let df := map_column normalize_status (u "STATUS") df in
    Ok {| columns := columns df;
          records := combine (map Z.of_nat (seq 0 (List.length (records df))))
                             (map snd (records df)) |}
  end.

(** ** Document composer *)

Local Open Scope Q_scope.

(** reportlab units, in points. *)
Definition inch : Q := 72.
Definition cm : Q := inch / 2.54.
Definition mm : Q := cm * 0.1.
Definition A4 : Q * Q := (210 * mm, 297 * mm).

Definition MARGIN_L : Q := 1.6 * cm.
Definition MARGIN_R : Q := 1.6 * cm.
Definition COL_LABEL_X : Q := MARGIN_L + 0.9 * cm.
Definition COL_VALUE_X : Q := MARGIN_L + 6.3 * cm.
Definition STEP_Y : Q := 0.95 * cm.
Definition ROUND_R : Q := 8.

Definition GAP_AFTER_INFO_TITLE : Q := 0.60 * cm.
Definition GAP_AFTER_FAST_TITLE : Q := 0.60 * cm.
Definition SIG_DELTA_DOWN : Q := 1.50 * cm.
Definition TITLE_SHIFT_LEFT : Q := 0.50 * cm.

Inductive color := black.

(** The operations of [reportlab.pdfgen.canvas.Canvas] the code calls, and
    the one flowable it lays out in a frame. *)
Inductive op :=
| SetFillColor (c : color)
| SetStrokeColor (c : color)
| DrawImage (path : ustring) (x y width height : Q)
| SetFont (name : ustring) (size : Q)
| SetLineWidth (w : Q)
| DrawString (x y : Q) (text : ustring)
| DrawCentredString (x y : Q) (text : ustring)
| DrawRightString (x y : Q) (text : ustring)
| RoundRect (x y width height radius : Q)
| Line (x1 y1 x2 y2 : Q)
| FrameParagraph (x y width height : Q) (text : ustring)
| ShowPage
| Save.

(** The canvas: what has been drawn on it so far, in order. *)
Definition canvas := list op.

Definition draw (c : canvas) (o : op) : canvas := c ++ [o].

Record datetime := { year : Z; month : Z; day : Z }.

Definition pad2 (z : Z) : ustring :=
  if (z <? 10)%Z then 48%N :: str_of_Z z else str_of_Z z.

(** [d.strftime("%d/%m/%Y")] *)
Definition strftime_dmY (d : datetime) : ustring :=
  pad2 (day d) ++ u "/" ++ pad2 (month d) ++ u "/" ++ str_of_Z (year d).

(** [format_qtd]: the [try] body raises when [float] or [round] does. *)
Definition format_qtd (val : pyval) : ustring :=
  match py_float val with
  | None => py_str val
  | Some f =>
    match py_round f with
    | None => py_str val
    | Some n =>
      if fltb (fabs (fsub f (float_of_Z n))) (float_of_decimal false 1 (-9))
      then str_of_Z n
      else repr_float f
    end
  end.

Definition str_or_default (row : series) (col : ustring) (default : ustring) : ustring :=
  if col_in row col && notna (row_get row col PyNone)
  then strip (py_str (row_get row col PyNone))
  else default.

(** The logo file as the composer finds it. *)
Inductive logo_file := LogoMissing | LogoUnreadable | LogoImage.

Definition draw_header (logo : logo_file) (c : canvas) (data_cabecalho : datetime)
    (page_w page_h : Q) : canvas :=
  let c := draw c (SetFillColor black) in
  let c := draw c (SetStrokeColor black) in
  let c :=
    match logo with
    | LogoImage =>
      draw c (DrawImage LOGO_IMAGE_PATH MARGIN_L (page_h - 2.35 * cm) (3.9 * cm) (1.25 * cm))
    | LogoMissing | LogoUnreadable => c
    end in
  let c := draw c (SetFont (u "Helvetica-Bold") 22) in
  let c := draw c (DrawCentredString (page_w / 2 - TITLE_SHIFT_LEFT) (page_h - 2.7 * cm)
                                     (u "Romaneio Manual")) in
  let box_w := 5.4 * cm in
  let box_h := 3.0 * cm in
  let box_x := page_w - MARGIN_R - box_w in
  let box_y := page_h - 2.0 * cm - box_h in
  let c := draw c (SetLineWidth 1.5) in
  let c := draw c (RoundRect box_x box_y box_w box_h 6) in
  let c := draw c (SetFont (u "Helvetica-Bold") 16) in
  let c := draw c (DrawCentredString (box_x + box_w / 2) (box_y + box_h - 0.9 * cm)
                                     (u "Romaneio")) in
  let c := draw c (SetFont (u "Helvetica") 10.5) in
  let c := draw c (DrawRightString (box_x + box_w - 0.3 * cm) (box_y + box_h - 1.55 * cm)
                                   (u "Cód.: " ++ FORM_COD)) in
  let c := draw c (DrawRightString (box_x + box_w - 0.3 * cm) (box_y + box_h - 2.10 * cm)
                                   (u "Rev.: " ++ FORM_REV)) in
  draw c (DrawRightString (box_x + box_w - 0.3 * cm) (box_y + 0.55 * cm)
                          (u "Data: " ++ strftime_dmY data_cabecalho)).

(** The loop that draws label and value pairs downwards from [y]; it
    returns the canvas and the [y] it ends at. *)
Fixpoint draw_rows (c : canvas) (y : Q) (rows : list (ustring * ustring)) : canvas * Q :=
  match rows with
  | [] => (c, y)
  | (rot, val) :: rest =>
    let c := draw c (DrawString COL_LABEL_X y rot) in
    let c := draw c (SetFont (u "Helvetica") 12) in
    let c := draw c (DrawString COL_VALUE_X y val) in
    let c := draw c (SetFont (u "Helvetica-Bold") 12) in
    draw_rows c (y - STEP_Y) rest
  end.

(** The height of the info section as the code computes it, with the
    number of rows left open; the code fixes it at 6. *)
Definition info_section_height (row_count : Z) : Q :=
  let title_h := 1.1 * cm in
  let content_h := inject_Z row_count * STEP_Y in
  let pad_top := 0.5 * cm in
  let pad_bottom := 0.6 * cm in
  title_h + pad_top + GAP_AFTER_INFO_TITLE + content_h + pad_bottom.

Definition info_rows (info : list (ustring * ustring)) : list (ustring * ustring) :=
  [ (u "DATA:",           dict_get info (u "DATA") (u ""));
    (u "CONTEUDO:",       dict_get info (u "CONTEUDO") (u ""));
    (u "CLIENTE:",        dict_get info (u "CLIENTE") (u ""));
    (u "TRANSPORTADORA:", dict_get info (u "TRANSPORTADORA") (u ""));
    (u "MOTORISTA:",      dict_get info (u "MOTORISTA") (u ""));
    (u "PLACA:",          dict_get info (u "PLACA") (u "")) ].

(** It returns the canvas and the [y] the next section starts at. *)
Definition draw_info_section (c : canvas) (info : list (ustring * ustring))
    (page_w page_h : Q) : canvas * Q :=
  let title_h := 1.1 * cm in
  let sec_h := info_section_height 6 in
  let top_y := page_h - 6.1 * cm in
  let bottom_y := top_y - sec_h in
  let c := draw c (SetLineWidth 1.5) in
  let c := draw c (RoundRect MARGIN_L bottom_y (page_w - MARGIN_L - MARGIN_R) sec_h ROUND_R) in
  let c := draw c (SetFont (u "Helvetica-Bold") 20) in
  let c := draw c (DrawString (MARGIN_L + 0.7 * cm) (top_y - 0.85 * cm) (u "Informações:")) in
  let y := top_y - title_h - GAP_AFTER_INFO_TITLE in
  let c := draw c (SetFont (u "Helvetica-Bold") 12) in
  let '(c, _) := draw_rows c y (info_rows info) in
  (c, bottom_y - 0.9 * cm).

Definition products_section_height : Q :=
  let title_h := 1.0 * cm in
  let fields_h := 4 * STEP_Y in
  let lista_h := 5.0 * cm in
  let pad_top := 0.5 * cm in
  let pad_bottom := 0.6 * cm in
  let gap_fields_lista := 0.35 * cm in
  title_h + pad_top + GAP_AFTER_FAST_TITLE + fields_h + gap_fields_lista + lista_h + pad_bottom.

Section Composer.

(** The markup parser of reportlab's [Paragraph]: the exception it raises
    on a text, if any. *)
Variable paragraph_error : ustring -> option exn.

Variable logo : logo_file.

Definition draw_products_section (c : canvas) (prod_info : list (ustring * ustring))
    (start_y page_w : Q) : result canvas :=
  let title_h := 1.0 * cm in
  let lista_h := 5.0 * cm in
  let pad_bottom := 0.6 * cm in
  let gap_fields_lista := 0.35 * cm in
  let sec_h := products_section_height in
  let bottom_y := start_y - sec_h in
  let c := draw c (SetLineWidth 1.5) in
  let c := draw c (RoundRect MARGIN_L bottom_y (page_w - MARGIN_L - MARGIN_R) sec_h ROUND_R) in
  let c := draw c (SetFont (u "Helvetica-Bold") 18) in
  let c := draw c (DrawString (MARGIN_L + 0.7 * cm) (start_y - 0.8 * cm) PRODUTO_TITULO) in
  let y := start_y - title_h - GAP_AFTER_FAST_TITLE in
  let c := draw c (SetFont (u "Helvetica-Bold") 12) in
  let fields :=
    [ (u "CNTR(ORIGEM):", dict_get prod_info (u "CNTR_ORIGEM") (u ""));
      (u "CNTR(TECADI):", dict_get prod_info (u "CNTR_TECADI") (u ""));
      (u "SKU:",          dict_get prod_info (u "SKU") (u ""));
      (u "QTD:",          dict_get prod_info (u "QTD") (u "")) ] in
  let '(c, y) := draw_rows c y fields in
  let y := y - gap_fields_lista in
  let c := draw c (DrawString COL_LABEL_X y (u "LISTA:")) in
  let y := y - 0.3 * cm in
  let lista_texto :=
    replace (u "  ") (u " ") (replace (u " ;") (u ";") (dict_get prod_info (u "LISTA") (u ""))) in
  match paragraph_error lista_texto with
  | Some e => Raise e
  | None =>
    let frame_x := COL_LABEL_X in
    let frame_y := bottom_y + pad_bottom + 0.2 * cm in
    let frame_w := page_w - MARGIN_R - frame_x in
    let frame_h := lista_h in
    let c := draw c (FrameParagraph frame_x frame_y frame_w frame_h lista_texto) in
    let sig_y := 2.6 * cm - SIG_DELTA_DOWN in
    let c := draw c (SetStrokeColor black) in
    let c := draw c (SetLineWidth 1) in
    let c := draw c (Line (2 * cm) sig_y (9 * cm) sig_y) in
    let c := draw c (Line (11 * cm) sig_y (18 * cm) sig_y) in
    let c := draw c (SetFont (u "Helvetica") 10) in
    let c := draw c (DrawCentredString (5.5 * cm) (sig_y - 0.45 * cm) (u "ASS: MOTORISTA")) in
    Ok (draw c (DrawCentredString (14.5 * cm) (sig_y - 0.45 * cm) (u "ASS: CONFERENTE")))
  end.

(** The document is the saved canvas. *)
Definition gerar_pdf_row (row : series) (data_cabecalho : datetime) : result canvas :=
  let c : canvas := [] in
  let '(page_w, page_h) := A4 in
  let c := draw_header logo c data_cabecalho page_w page_h in
  let info :=
    [ (u "DATA", strftime_dmY data_cabecalho);
      (u "CONTEUDO", CONTEUDO_FIXO);
      (u "CLIENTE", CLIENTE_FIXO);
      (u "TRANSPORTADORA", str_or_default row (u "TRANSPORTADORA") (u ""));
      (u "MOTORISTA", str_or_default row (u "NOME") (u ""));
      (u "PLACA", str_or_default row (u "PLACA") (u "")) ] in
  let '(c, next_y) := draw_info_section c info page_w page_h in
  let prod :=
    [ (u "CNTR_ORIGEM", str_or_default row (u "ARMADOR") (u ""));
      (u "CNTR_TECADI", str_or_default row (u "TECADI") (u ""));
      (u "SKU", str_or_default row (u "SKU") (u ""));
      (u "QTD", format_qtd (PyStr (str_or_default row (u "QTD") (u ""))));
      (u "LISTA", str_or_default row (u "LISTA") (u "")) ] in
  c <- draw_products_section c prod next_y page_w ;;
  let c := draw c ShowPage in
  Ok (draw c Save).

End Composer.

(** ** Download, session state and the two buttons *)

Local Open Scope Z_scope.

Definition bytes := list N.

(** What [requests.get] returns: [r.ok] and [r.content]. *)
Record response := { r_ok : bool; r_content : bytes }.

Definition usable (r : response) : bool :=
  r_ok r && negb (Nat.eqb (List.length (r_content r)) 0)
         && Nat.ltb 1000 (List.length (r_content r)).

Definition DownloadError : exn :=
  {| exn_class := u "RuntimeError";
     exn_msg := u "Não foi possível baixar a planilha. Verifique o compartilhamento do link no OneDrive." |}.

(** [onedrive_direct_download]; [get1] and [get2] are the outcomes of the
    request to the [download.aspx] address and of the fallback request to
    the link with [download=1]. *)
Definition onedrive_direct_download (get1 get2 : result response) : result bytes :=
  r1 <- get1 ;;
  if usable r1 then Ok (r_content r1)
  else
    r2 <- get2 ;;
    if usable r2 then Ok (r_content r2)
    else Raise DownloadError.

(** [st.session_state] *)
Record session := {
  df_cache : option DataFrame;
  fetch_error : option ustring;
  selected_keys : list ustring
}.

(** [re.search(r"(\d+)", s)]: the first maximal run of digits. *)
Fixpoint take_digits (s : ustring) : ustring :=
  match s with
  | [] => []
  | c :: s' => if isdigit c then c :: take_digits s' else []
  end.

Fixpoint search_digits (s : ustring) : option ustring :=
  match s with
  | [] => None
  | c :: s' => if isdigit c then Some (c :: take_digits s') else search_digits s'
  end.

Definition demanda_num (demanda_raw : ustring) : ustring :=
  match search_digits demanda_raw with
  | Some m => m
  | None => demanda_raw
  end.

Definition _make_key (row : series) : ustring :=
  let demanda_raw := py_str (row_get row (u "DEMANDA") (PyStr (u ""))) in
  demanda_num demanda_raw ++ u "|" ++ py_str (row_get row (u "ARMADOR") (PyStr (u ""))).

(** The name of a record's document in the archive. *)
Definition pdf_name (row : series) : ustring :=
  let demanda_raw := str_or_default row (u "DEMANDA") (u "") in
  let armador := str_or_default row (u "ARMADOR") (u "") in
  demanda_num demanda_raw ++ u "." ++ armador ++ u ".pdf".

(** [d[k] = v] *)
Fixpoint dict_set {A : Type} (d : list (ustring * A)) (k : ustring) (v : A)
    : list (ustring * A) :=
  match d with
  | [] => [(k, v)]
  | (k', v') :: d' => if ustring_eqb k' k then (k, v) :: d' else (k', v') :: dict_set d' k v
  end.

(** The label shown for a row in the selection box. *)
Definition label_of (r : series) : ustring :=
  join (u " — ")
    [ py_str (row_get r (u "DEMANDA") (PyStr (u "")));
      py_str (row_get r (u "ARMADOR") (PyStr (u "")));
      py_str (row_get r (u "TRANSPORTADORA") (PyStr (u "")));
      py_str (row_get r (u "NOME") (PyStr (u "")));
      py_str (row_get r (u "PLACA") (PyStr (u "")));
      py_str (row_get r (u "LISTA") (PyStr (u ""))) ].

(** The dictionary [labels]: one entry per key; its keys are the options
    of the selection box. *)
Definition labels (rows : list series) : list (ustring * ustring) :=
  fold_left (fun d r => dict_set d (_make_key r) (label_of r)) rows [].

(** [df[df["STATUS"].astype(str).str.upper().eq("FINALIZADO")]] *)
Definition is_finalizado (row : series) : bool :=
  ustring_eqb (upper (py_str (row_get row (u "STATUS") PyNone))) (u "FINALIZADO").

Definition KeyError (k : ustring) : exn :=
  {| exn_class := u "KeyError"; exn_msg := k |}.

(** An entry written to the archive. *)
Inductive zip_data :=
| PdfBytes (pdf : canvas)
| Text (s : ustring).

Definition zip_archive := list (ustring * zip_data).

Definition writestr (zf : zip_archive) (name : ustring) (data : zip_data) : zip_archive :=
  zf ++ [(name, data)].

(** What pressing the generate button leads to. *)
Inductive gerar_outcome :=
| NoCache
| Crash (e : exn)
| MissingColumns (faltam : list ustring)
| NothingSelected
| Download (zf : zip_archive).

Definition with_key (row : series) : series :=
  dict_set row (u "_key") (PyStr (_make_key row)).

(** [df_ok["_key"].isin(selected)] on one row. *)
Definition key_selected (selected : list ustring) (row : series) : bool :=
  existsb (ustring_eqb (py_str (row_get row (u "_key") PyNone))) selected.

(** The rows of [df_ok] when the loop is reached: those with status
    FINALIZADO, each with its [_key], restricted to the selected keys when
    there are any. *)
Definition df_ok_rows (df : DataFrame) (selected : list ustring) : list (Z * series) :=
  let rows := map (fun r => (fst r, row_series df (snd r))) (records df) in
  let rows := filter (fun r => is_finalizado (snd r)) rows in
  let rows := map (fun r => (fst r, with_key (snd r))) rows in
  match selected with
  | [] => rows
  | _ => filter (fun r => key_selected selected (snd r)) rows
  end.

(** [df_ok.columns] *)
Definition df_ok_columns (df : DataFrame) : list ustring :=
  if has_column df (u "_key") then columns df else columns df ++ [u "_key"].

Section App.

(** [pd.read_excel] on the downloaded bytes, for the sheet [SHEET_NAME]. *)
Variable read_excel : bytes -> result grid.

(** The composer, with the environment it runs in. *)
Variable gerar : series -> datetime -> result canvas.

Definition load_excel_from_bytes (xls_bytes : bytes) : result DataFrame :=
  df_raw <- read_excel xls_bytes ;;
  load_table df_raw.

Definition bt_atualizar (get1 get2 : result response) (st : session) : session :=
  match (xls_bytes <- onedrive_direct_download get1 get2 ;;
         load_excel_from_bytes xls_bytes) with
  | Ok df =>
    {| df_cache := Some df; fetch_error := None; selected_keys := selected_keys st |}
  | Raise e =>
    {| df_cache := None; fetch_error := Some (exn_str e);
       selected_keys := selected_keys st |}
  end.

(** The body of the loop over the selected rows. *)
Definition gerar_one (data_pdf : datetime) (zf : zip_archive) (ir : Z * series)
    : zip_archive :=
  let '(i, row) := ir in
  match gerar row data_pdf with
  | Ok pdf_bytes => writestr zf (pdf_name row) (PdfBytes pdf_bytes)
  | Raise e =>
    writestr zf (u "ERRO_" ++ str_of_Z i ++ u ".txt")
             (Text (u "Falha na linha " ++ str_of_Z i ++ u ": " ++ exn_repr e))
  end.

Definition gerar_zip (data_pdf : datetime) (rows : list (Z * series)) : zip_archive :=
  fold_left (gerar_one data_pdf) rows [].

Definition bt_gerar (data_pdf : datetime) (st : session) : gerar_outcome :=
  match df_cache st with
  | None => NoCache
  | Some df =>
    if negb (has_column df (u "STATUS")) then Crash (KeyError (u "STATUS"))
    else
      let df_ok := df_ok_rows df (selected_keys st) in
      let faltam :=
        filter (fun c => negb (existsb (ustring_eqb c) (df_ok_columns df))) REQUIRED_FOR_PDF in
      match faltam with
      | _ :: _ => MissingColumns faltam
      | [] =>
        match df_ok with
        | [] => NothingSelected
        | _ => Download (gerar_zip data_pdf df_ok)
        end
      end
  end.

End App.

(** ** Notions used in the statements *)

(** A starter is a character of combining class 0; the others are the
    combining marks [normalize] removes. *)
Definition starter (c : codepoint) : bool := (combining c =? 0)%N.

(** What is left of one character once decomposed and stripped of its
    marks, and the same in upper case. *)
Definition strip_marks_char (c : codepoint) : ustring :=
  filter starter (decomposition c).

Definition fold_char (c : codepoint) : ustring := upper (strip_marks_char c).

(** A combining mark that changes under [upper].  The tables have one, the
    Greek iota subscript U+0345: a mark in lower case, the letter iota in
    upper case. *)
Definition cased_mark (c : codepoint) : bool :=
  negb (starter c) && negb (ustring_eqb (to_upper c) [c]).




(** The number a finite float stands for. *)
Definition float_value (f : float) : option Q :=
  match f with
  | S754_zero _ => Some 0%Q
  | S754_finite s m e =>
    let v := (inject_Z (Zpos m) * (2 ^ e))%Q in
    Some (if s then (- v)%Q else v)
  | S754_infinity _ | S754_nan => None
  end.

(** The test [abs(f - round(f)) < 1e-9] of [format_qtd]. *)
Definition near_integral (f : float) (n : Z) : bool :=
  fltb (fabs (fsub f (float_of_Z n))) (float_of_decimal false 1 (-9)).

(** The rounded rectangles on a canvas, as (x, y, width, height), in the
    order drawn. *)
Fixpoint round_rects (c : canvas) : list (Q * Q * Q * Q) :=
  match c with
  | [] => []
  | RoundRect x y w h _ :: c' => (x, y, w, h) :: round_rects c'
  | _ :: c' => round_rects c'
  end.

Definition rect_bottom (r : Q * Q * Q * Q) : Q := snd (fst (fst r)).
Definition rect_height (r : Q * Q * Q * Q) : Q := snd r.
Definition rect_top (r : Q * Q * Q * Q) : Q := (rect_bottom r + rect_height r)%Q.

(** The fields of a record the composer draws. *)
Definition DISPLAY_FIELDS : list (list N) :=
  [u "TRANSPORTADORA"; u "NOME"; u "PLACA"; u "ARMADOR"; u "TECADI"; u "SKU";
   u "QTD"; u "LISTA"].

(** The text the composer hands to the paragraph flowable. *)
Definition lista_texto (row : series) : list N :=
  replace (u "  ") (u " ") (replace (u " ;") (u ";") (str_or_default row (u "LISTA") (u ""))).

(** A required field is present in a record when the record has the label
    and its value is not null. *)
Definition field_present (row : series) (col : ustring) : bool :=
  col_in row col && notna (row_get row col PyNone).

Definition has_required_fields (row : series) : bool :=
  forallb (field_present row) REQUIRED_FOR_PDF.

(** The rows of a table have one cell per column. *)
Definition well_formed (df : DataFrame) : Prop :=
  Forall (fun r => List.length (snd r) = List.length (columns df)) (records df).

Definition is_pdf (e : ustring * zip_data) : bool :=
  match snd e with PdfBytes _ => true | Text _ => false end.

(** *** Checks on the character tables

    Each is a boolean property of one code point; it is evaluated on every
    code point of the tables and proved for the others. *)

Definition table_domain : list codepoint :=
  map N.of_nat (seq 0 (N.to_nat table_limit)).

Definition check_stable (c : codepoint) : bool :=
  forallb (fun d => ustring_eqb (fold_char d) [d]) (fold_char c).




Definition check_space (c : codepoint) : bool :=
  if isspace c
  then negb (ustring_eqb (fold_char c) []) && forallb isspace (fold_char c)
       && ustring_eqb (to_upper c) [c]
  else negb (ustring_eqb (to_upper c) [])
       && forallb (fun d => negb (isspace d)) (to_upper c).

(** The float [f] is finite and stands for the number [q]. *)
Definition has_value (f : float) (q : Q) : Prop :=
  match float_value f with
  | Some v => (v == q)%Q
  | None => False
  end.

(** The quantity text with the periods taken out and the commas turned
    into periods, said directly. *)
Definition strip_periods (s : ustring) : ustring :=
  filter (fun c => negb (c =? 46)%N) s.

Definition commas_to_periods (s : ustring) : ustring :=
  map (fun c => if (c =? 44)%N then 46%N else c) s.

(** A record renders. *)
Definition renders (gerar : series -> datetime -> result canvas) (d : datetime)
    (ir : Z * series) : bool :=
  match gerar (snd ir) d with Ok _ => true | Raise _ => false end.

(** What one record leaves in the archive. *)
Definition batch_entry (gerar : series -> datetime -> result canvas) (d : datetime)
    (ir : Z * series) : list N * zip_data :=
  match gerar (snd ir) d with
  | Ok pdf => (pdf_name (snd ir), PdfBytes pdf)
  | Raise e =>
    (u "ERRO_" ++ str_of_Z (fst ir) ++ u ".txt",
     Text (u "Falha na linha " ++ str_of_Z (fst ir) ++ u ": " ++ exn_repr e))
  end.

(** *** Sample data *)

Definition sample_columns : list (list N) :=
  [u "DEMANDA"; u "ARMADOR"; u "TECADI"; u "SKU"; u "QTD"; u "LISTA";
   u "TRANSPORTADORA"; u "NOME"; u "PLACA"; u "STATUS"].

Definition sample_record (demanda armador lista : string) (placa : pyval) : list pyval :=
  [PyStr (u demanda); PyStr (u armador); PyStr (u "TCLU1234567"); PyStr (u "SKU-1");
   PyFloat (float_of_decimal false 10 0); PyStr (u lista); PyStr (u "TRANSLOG");
   PyStr (u "JOAO"); placa; PyStr (u "FINALIZADO")].

Definition sample_date : datetime := {| year := 2024; month := 3; day := 7 |}.

(** A markup parser that refuses a text with an opening angle bracket. *)
Definition sample_paragraph_error (s : list N) : option exn :=
  if contains (u "<") s
  then Some {| exn_class := u "ValueError"; exn_msg := u "paraparser: syntax error" |}
  else None.

Definition sample_gerar : series -> datetime -> result canvas :=
  gerar_pdf_row sample_paragraph_error LogoMissing.

(** Three finished records; the list text of the second is not well-formed
    markup. *)
Definition batch_table : DataFrame :=
  {| columns := sample_columns;
     records :=
       [ (0%Z, sample_record "DEM 1001" "MAERSK" "A1; A2" (PyStr (u "ABC1D23")));
         (1%Z, sample_record "DEM 1002" "MSC" "<para" (PyStr (u "DEF4G56")));
         (2%Z, sample_record "DEM 1003" "MSC" "B1" (PyStr (u "GHI7J89"))) ] |}.

(** One finished record without a plate. *)
Definition gate_table : DataFrame :=
  {| columns := sample_columns;
     records := [ (0%Z, sample_record "DEM 2001" "MAERSK" "A1" NaN) ] |}.

(** Two finished records with the same number in DEMANDA and the same
    ARMADOR. *)
Definition collision_table : DataFrame :=
  {| columns := sample_columns;
     records :=
       [ (0%Z, sample_record "DEM 1234 A" "MAERSK" "A1" (PyStr (u "ABC1D23")));
         (1%Z, sample_record "1234-B" "MAERSK" "B1" (PyStr (u "DEF4G56"))) ] |}.

Definition collision_first : series :=
  row_series collision_table
    (sample_record "DEM 1234 A" "MAERSK" "A1" (PyStr (u "ABC1D23"))).

Definition collision_second : series :=
  row_series collision_table
    (sample_record "1234-B" "MAERSK" "B1" (PyStr (u "DEF4G56"))).

Definition session_with (df : DataFrame) : session :=
  {| df_cache := Some df; fetch_error := None; selected_keys := [] |}.

Definition sample_read_excel (xls : bytes) : result grid :=
  Ok [map PyStr sample_columns].

(** The answer of a server that refuses the download. *)
Definition error_page : response :=
  {| r_ok := false; r_content := u "<html>403 FORBIDDEN</html>" |}.

Definition Timeout : exn :=
  {| exn_class := u "ReadTimeout"; exn_msg := u "Read timed out." |}.

(** The download followed by the load, as the refresh button chains them. *)
Definition fetch (read_excel : bytes -> result grid) (get1 get2 : result response)
    : result DataFrame :=
  xls_bytes <- onedrive_direct_download get1 get2 ;;
  load_excel_from_bytes read_excel xls_bytes.

(** *** Further checks on the character tables *)

(** What [fold_char] produces is changed neither by the removal of marks
    nor by [upper]. *)
Definition check_fixed (c : codepoint) : bool :=
  forallb (fun d => ustring_eqb (strip_marks_char d) [d] && ustring_eqb (to_upper d) [d])
          (fold_char c).

(** [upper] produces characters it leaves alone. *)
Definition check_upper_fixed (c : codepoint) : bool :=
  forallb (fun d => ustring_eqb (to_upper d) [d]) (to_upper c).

(** *** A sample sheet

    A title row, the header row with two spellings of one column, a blank
    row and two records. *)
Definition sample_sheet : grid :=
  [ [PyStr (u "Processos sem leitura"); NaN; NaN; NaN; NaN; NaN];
    [PyStr (u "Demanda"); PyStr (u "Armador"); PyStr (u "Qtd"); PyStr (u "Status");
     PyStr (u "Motorista"); PyStr (u "NOME")];
    [NaN; NaN; NaN; NaN; NaN; NaN];
    [PyStr (u "DEM 1001"); PyStr (u "MAERSK"); PyStr (u "1.234,5");
     PyStr (u " finalizado "); PyStr (u "JOAO"); PyStr (u "J. SILVA")];
    [PyInt 1002; PyStr (u "MSC"); PyInt 10; NaN; PyStr (u "ANA"); NaN] ].

(** Every row of a grid has the same number of cells. *)
Definition rectangular (df_raw : grid) (width : nat) : Prop :=
  Forall (fun row => List.length row = width) df_raw.

(** *** Quantity cells held as floats *)

(** [x] is coerced to the float [y]. *)
Definition coerced_to (x y : float) : bool :=
  match coerce_qtd (PyFloat x) with
  | PyFloat f => float_same f y
  | _ => false
  end.

(** The float cell [k / 10] comes out of the coercion as [k]. *)
Definition check_tenths (k : nat) : bool :=
  if Nat.eqb (k mod 10) 0 then true
  else coerced_to (float_of_decimal false (Z.of_nat k) (-1)) (float_of_Z (Z.of_nat k)).

(** *** Names in the archive *)


(** *** What a canvas shows *)

(** The font in effect after the operations of [c], [font] being in effect
    before them. *)
Fixpoint font_after (font : list N * Q) (c : canvas) : list N * Q :=
  match c with
  | [] => font
  | SetFont name size :: c' => font_after (name, size) c'
  | _ :: c' => font_after font c'
  end.

(** The strings drawn, in order, each with the font it is drawn in. *)
Fixpoint typeset (font : list N * Q) (c : canvas) : list ((list N * Q) * list N) :=
  match c with
  | [] => []
  | SetFont name size :: c' => typeset (name, size) c'
  | DrawString _ _ text :: c' => (font, text) :: typeset font c'
  | DrawCentredString _ _ text :: c' => (font, text) :: typeset font c'
  | DrawRightString _ _ text :: c' => (font, text) :: typeset font c'
  | _ :: c' => typeset font c'
  end.

Definition bold12 : list N * Q := (u "Helvetica-Bold", 12%Q).
Definition regular12 : list N * Q := (u "Helvetica", 12%Q).

(** The base lines of the strings drawn from their left end: the titles,
    labels and values of the sections. *)
Fixpoint baselines (c : canvas) : list Q :=
  match c with
  | [] => []
  | DrawString _ y _ :: c' => y :: baselines c'
  | _ :: c' => baselines c'
  end.

(** The frames a paragraph is laid out in, as [(x, y, width, height)]. *)
Fixpoint frames (c : canvas) : list (Q * Q * Q * Q) :=
  match c with
  | [] => []
  | FrameParagraph x y w h _ :: c' => (x, y, w, h) :: frames c'
  | _ :: c' => frames c'
  end.

(** The heights of the straight lines drawn; the code draws only
    horizontal ones. *)
Fixpoint line_heights (c : canvas) : list Q :=
  match c with
  | [] => []
  | Line _ y1 _ _ :: c' => y1 :: line_heights c'
  | _ :: c' => line_heights c'
  end.

Definition rect_left (r : Q * Q * Q * Q) : Q := fst (fst (fst r)).
Definition rect_width (r : Q * Q * Q * Q) : Q := snd (fst r).
Definition rect_right (r : Q * Q * Q * Q) : Q := (rect_left r + rect_width r)%Q.

(** The rectangle [inner] lies within [outer]. *)
Definition rect_within (inner outer : Q * Q * Q * Q) : Prop :=
  (rect_left outer <= rect_left inner /\ rect_right inner <= rect_right outer
   /\ rect_bottom outer <= rect_bottom inner /\ rect_top inner <= rect_top outer)%Q.

(** The page, as a rectangle. *)
Definition page : Q * Q * Q * Q := (0, 0, fst A4, snd A4)%Q.

(** Two records that differ in columns the composer does not read. *)
Definition sample_row_finished : series :=
  combine sample_columns (sample_record "DEM 1001" "MAERSK" "A1; A2" (PyStr (u "ABC1D23"))).

Definition sample_row_annotated : series :=
  dict_set (dict_set sample_row_finished (u "STATUS") (PyStr (u "finalizado")))
           (u "OBS") (PyStr (u "conferido")).

(** ** The header date

    [datetime.strptime(s, "%d/%m/%Y")] compiles the format to the regular
    expression
    [(3[0-1]|[1-2]\d|0[1-9]|[1-9]| [1-9])/(1[0-2]|0[1-9]|[1-9])/(\d\d\d\d)],
    takes its first match at the start of the text, refuses a text the
    match does not exhaust, and builds the date, which refuses a year 0 and
    a day the month does not have.  A regular expression is matched here
    as the list of its matches in the order backtracking finds them, each
    with the text left after it. *)

(** One character of a class. *)
Definition one_of (p : N -> bool) (s : list N) : list (N * list N) :=
  match s with
  | c :: rest => if p c then [(c, rest)] else []
  | [] => []
  end.

Definition between (lo hi : N) (c : N) : bool := ((lo <=? c) && (c <=? hi))%N.

(** [int] of a text of ASCII digits. *)
Definition int_of_digits (s : list N) : Z :=
  fold_left (fun acc c => (10 * acc + (Z.of_N c - 48))%Z) s 0%Z.

(** Two characters of the given classes, read as a number. *)
Definition two_chars (p1 p2 : N -> bool) (s : list N) : list (Z * list N) :=
  flat_map (fun ar => map (fun br => (int_of_digits [fst ar; fst br], snd br))
                          (one_of p2 (snd ar)))
           (one_of p1 s).

Definition one_char (p : N -> bool) (s : list N) : list (Z * list N) :=
  map (fun ar => (int_of_digits [fst ar], snd ar)) (one_of p s).

(** The literal character [c]. *)
Definition literal (c : N) (s : list N) : list (list N) :=
  map snd (one_of (N.eqb c) s).

(** [%d]: [3[0-1]|[1-2]\d|0[1-9]|[1-9]| [1-9]] *)
Definition match_day (s : list N) : list (Z * list N) :=
  two_chars (N.eqb 51) (between 48 49) s
  ++ two_chars (between 49 50) isdigit s
  ++ two_chars (N.eqb 48) (between 49 57) s
  ++ one_char (between 49 57) s
  ++ flat_map (one_char (between 49 57)) (literal 32 s).

(** [%m]: [1[0-2]|0[1-9]|[1-9]] *)
Definition match_month (s : list N) : list (Z * list N) :=
  two_chars (N.eqb 49) (between 48 50) s
  ++ two_chars (N.eqb 48) (between 49 57) s
  ++ one_char (between 49 57) s.

(** [%Y]: [\d\d\d\d] *)
Definition match_year (s : list N) : list (Z * list N) :=
  match s with
  | a :: b :: c :: d :: rest =>
    if isdigit a && isdigit b && isdigit c && isdigit d
    then [(int_of_digits [a; b; c; d], rest)] else []
  | _ => []
  end.

(** A field followed by the slash. *)
Definition then_slash (field : list N -> list (Z * list N)) (s : list N)
    : list (Z * list N) :=
  flat_map (fun vr => map (fun rest => (fst vr, rest)) (literal 47 (snd vr))) (field s).

(** The matches of the whole expression: day, month, year and the text
    left. *)
Definition match_dmY (s : list N) : list (Z * Z * Z * list N) :=
  flat_map (fun dr =>
    flat_map (fun mr =>
      map (fun yr => (fst dr, fst mr, fst yr, snd yr)) (match_year (snd mr)))
      (then_slash match_month (snd dr)))
    (then_slash match_day s).

(** [datetime._is_leap] and [datetime._days_in_month] *)
Definition is_leap (y : Z) : bool :=
  ((y mod 4 =? 0) && (negb (y mod 100 =? 0) || (y mod 400 =? 0)))%Z.

Definition days_in_month (y m : Z) : Z :=
  if ((m =? 2) && is_leap y)%Z then 29%Z
  else nth (Z.to_nat m) [0; 31; 28; 31; 30; 31; 30; 31; 31; 30; 31; 30; 31]%Z 0%Z.

(** The date exists: what the constructor of [datetime] checks. *)
Definition date_exists (y m d : Z) : bool :=
  ((1 <=? y) && (y <=? 9999) && (1 <=? m) && (m <=? 12)
   && (1 <=? d) && (d <=? days_in_month y m))%Z.

(** [datetime.strptime(s, "%d/%m/%Y")]; [None] when it raises
    [ValueError]. *)
Definition strptime_dmY (s : list N) : option datetime :=
  match match_dmY s with
  | [] => None
  | (d, m, y, rest) :: _ =>
    match rest with
    | _ :: _ => None
    | [] =>
      if date_exists y m d then Some {| year := y; month := m; day := d |} else None
    end
  end.

(** [parse_data_ptbr]; the caller stops the page on any exception, so
    [None] is the page that asks for the date again. *)
Definition parse_data_ptbr (s : list N) : option datetime :=
  strptime_dmY (strip s).

(** The date exists. *)
Definition valid_date (d : datetime) : bool :=
  date_exists (year d) (month d) (day d).

(** A year written with four digits, as [%Y] reads it. *)
Definition pad4 (y : Z) : list N :=
  repeat 48%N (4 - List.length (str_of_Z y)) ++ str_of_Z y.

(** The year [y] is written with four digits and read back. *)
Definition check_pad4 (k : nat) : bool :=
  let y := Z.of_nat k in
  match pad4 y with
  | [a; b; c; d] =>
    isdigit a && isdigit b && isdigit c && isdigit d
    && (int_of_digits [a; b; c; d] =? y)%Z
  | _ => false
  end.

(** A text of code points in the range of the character tables. *)
Definition in_tables (s : list N) : Prop := Forall (fun c => (c < table_limit)%N) s.

(** *** Quantities on the page *)

(** What the composer shows for a quantity cell, given the cell as the
    loaded table holds it. *)
Definition qtd_shown (cell : pyval) : list N :=
  format_qtd (PyStr (strip (py_str cell))).

(** The integers [k] and [-k], loaded and shown, read as they were
    written. *)
Definition check_shown (k : nat) : bool :=
  let n := Z.of_nat k in
  notna (coerce_qtd (PyInt n)) && notna (coerce_qtd (PyInt (- n)))
  && ustring_eqb (qtd_shown (coerce_qtd (PyInt n))) (str_of_Z n)
  && ustring_eqb (qtd_shown (coerce_qtd (PyInt (- n)))) (str_of_Z (- n)).

(** * Properties *)

Unset Implicit Arguments.

(** ** Lists *)

Section ListFacts.

Context {A B C : Type}.

Lemma filter_flat_map (p : B -> bool) (f : A -> list B) (l : list A) :
  filter p (flat_map f l) = flat_map (fun x => filter p (f x)) l.
Proof.
  induction l as [|x l IH]; simpl; [reflexivity|].
  now rewrite filter_app, IH.
Qed.

Lemma flat_map_flat_map (f : A -> list B) (g : B -> list C) (l : list A) :
  flat_map g (flat_map f l) = flat_map (fun x => flat_map g (f x)) l.
Proof.
  induction l as [|x l IH]; simpl; [reflexivity|].
  now rewrite flat_map_app, IH.
Qed.

Lemma flat_map_ext_in (f g : A -> list B) (l : list A) :
  (forall x, In x l -> f x = g x) -> flat_map f l = flat_map g l.
Proof.
  induction l as [|x l IH]; simpl; intros H; [reflexivity|].
  rewrite (H x) by now left.
  rewrite IH; [reflexivity|]. intros y Hy. apply H. now right.
Qed.

Lemma flat_map_fixed (g : A -> list A) (t : list A) :
  (forall d, In d t -> g d = [d]) -> flat_map g t = t.
Proof.
  induction t as [|d t IH]; simpl; intros H; [reflexivity|].
  rewrite (H d) by now left. simpl. f_equal. apply IH. intros; apply H; now right.
Qed.

Lemma filter_nothing (p : A -> bool) (l : list A) :
  (forall x, In x l -> p x = false) -> filter p l = [].
Proof.
  induction l as [|x l IH]; simpl; intros H; [reflexivity|].
  rewrite (H x) by now left. apply IH. intros; apply H; now right.
Qed.

Lemma concat_map_singleton (f : A -> B) (l : list A) :
  concat (map (fun x => [f x]) l) = map f l.
Proof.
  induction l as [|x l IH]; simpl; [reflexivity|]. now rewrite IH.
Qed.

End ListFacts.

Lemma ustring_eqb_eq (a b : ustring) : ustring_eqb a b = true <-> a = b.
Proof.
  unfold ustring_eqb. destruct (list_eq_dec N.eq_dec a b); split; congruence.
Qed.

Lemma ustring_eqb_refl (a : ustring) : ustring_eqb a a = true.
Proof. now apply ustring_eqb_eq. Qed.

Lemma ustring_eqb_neq (a b : ustring) : ustring_eqb a b = false <-> a <> b.
Proof.
  unfold ustring_eqb. destruct (list_eq_dec N.eq_dec a b); split; congruence.
Qed.

(** ** The character tables *)

Lemma in_table_domain (c : codepoint) : (c < table_limit)%N -> In c table_domain.
Proof.
  intros H. unfold table_domain.
  rewrite <- (N2Nat.id c). apply in_map. apply in_seq. lia.
Qed.

Lemma table_cases (P : codepoint -> bool) :
  forallb P table_domain = true ->
  (forall c, (table_limit <= c)%N -> P c = true) ->
  forall c, P c = true.
Proof.
  intros Htab Hout c.
  destruct (N.ltb_spec c table_limit) as [Hlt|Hge].
  - rewrite forallb_forall in Htab. apply Htab. now apply in_table_domain.
  - now apply Hout.
Qed.

Section Inert.

Variable c : codepoint.
Hypothesis outside : (table_limit <= c)%N.

Lemma decomposition_inert : decomposition c = [c].
Proof. unfold decomposition. now rewrite (proj2 (N.ltb_ge c table_limit) outside). Qed.

Lemma combining_inert : combining c = 0%N.
Proof. unfold combining. now rewrite (proj2 (N.ltb_ge c table_limit) outside). Qed.

Lemma to_upper_inert : to_upper c = [c].
Proof. unfold to_upper. now rewrite (proj2 (N.ltb_ge c table_limit) outside). Qed.

Lemma starter_inert : starter c = true.
Proof. unfold starter. now rewrite combining_inert. Qed.

Lemma strip_marks_inert : strip_marks_char c = [c].
Proof.
  unfold strip_marks_char. rewrite decomposition_inert. simpl.
  now rewrite starter_inert.
Qed.

Lemma fold_char_inert : fold_char c = [c].
Proof.
  unfold fold_char. rewrite strip_marks_inert. unfold upper. simpl.
  now rewrite to_upper_inert.
Qed.

End Inert.

Lemma isspace_in_table (c : codepoint) : isspace c = true -> (c < table_limit)%N.
Proof.
  destruct c as [|p]; [discriminate|].
  unfold isspace.
  repeat (destruct p as [p|p|]; try discriminate; try (intros _; reflexivity)).
Qed.

Lemma isspace_inert (c : codepoint) : (table_limit <= c)%N -> isspace c = false.
Proof.
  intros H. destruct (isspace c) eqn:E; [|reflexivity].
  apply isspace_in_table in E. lia.
Qed.

Lemma check_stable_all (c : codepoint) : check_stable c = true.
Proof.
  revert c. apply table_cases; [vm_compute; reflexivity|].
  intros c H. unfold check_stable. rewrite (fold_char_inert c H). simpl.
  now rewrite (fold_char_inert c H), ustring_eqb_refl.
Qed.




Lemma check_space_all (c : codepoint) : check_space c = true.
Proof.
  revert c. apply table_cases; [vm_compute; reflexivity|].
  intros c H. unfold check_space.
  rewrite (isspace_inert c H), (to_upper_inert c H). simpl.
  rewrite (isspace_inert c H). simpl.
  destruct (ustring_eqb [c] []) eqn:E; [|reflexivity].
  apply ustring_eqb_eq in E. discriminate.
Qed.

Lemma fold_char_stable (c d : codepoint) : In d (fold_char c) -> fold_char d = [d].
Proof.
  intros H. pose proof (check_stable_all c) as K. unfold check_stable in K.
  rewrite forallb_forall in K. now apply ustring_eqb_eq, K.
Qed.





Lemma upper_space (c : codepoint) : isspace c = true -> to_upper c = [c].
Proof.
  intros H. pose proof (check_space_all c) as K. unfold check_space in K.
  rewrite H in K. apply andb_prop in K as [_ K]. now apply ustring_eqb_eq.
Qed.

Lemma upper_nonspace (c : codepoint) :
  isspace c = false ->
  to_upper c <> [] /\ forallb (fun d => negb (isspace d)) (to_upper c) = true.
Proof.
  intros H. pose proof (check_space_all c) as K. unfold check_space in K.
  rewrite H in K. apply andb_prop in K as [K1 K2].
  split; [|exact K2]. apply ustring_eqb_neq. now destruct (ustring_eqb (to_upper c) []).
Qed.

(** ** Canonical ordering only moves marks *)

Lemma insert_mark_in (c : codepoint) (run : ustring) :
  forall d, In d (insert_mark c run) -> d = c \/ In d run.
Proof.
  induction run as [|e run IH]; simpl; intros d H.
  - destruct H as [H|[]]; now left.
  - destruct (combining c <? combining e)%N; simpl in H.
    + destruct H as [H|[H|H]]; auto.
    + destruct H as [H|H]; auto. destruct (IH d H); auto.
Qed.

Lemma sort_marks_marks (run : ustring) :
  (forall d, In d run -> starter d = false) ->
  forall d, In d (sort_marks run) -> starter d = false.
Proof.
  unfold sort_marks.
  assert (G : forall acc, (forall d, In d acc -> starter d = false) ->
                          (forall d, In d run -> starter d = false) ->
                          forall d, In d (fold_left (fun a c => insert_mark c a) run acc) ->
                                    starter d = false).
  { induction run as [|c run IH]; simpl; intros acc Hacc Hrun d Hd; [now apply Hacc|].
    apply (IH (insert_mark c acc)); auto.
    intros e He. apply insert_mark_in in He.
    destruct He as [->|He]; auto. }
  intros H. apply G; auto. intros d [].
Qed.

Lemma filter_canonical_order (s run : ustring) :
  (forall d, In d run -> starter d = false) ->
  filter starter (canonical_order run s) = filter starter s.
Proof.
  revert run. induction s as [|c s IH]; simpl; intros run Hrun.
  - apply filter_nothing. now apply sort_marks_marks.
  - fold (starter c). destruct (starter c) eqn:E.
    + rewrite filter_app. simpl. rewrite E.
      rewrite (filter_nothing starter (sort_marks run)) by now apply sort_marks_marks.
      simpl. f_equal. apply IH. intros d [].
    + apply IH. intros d Hd. apply in_app_or in Hd as [Hd|[<-|[]]]; auto.
Qed.

Lemma strip_marks_nfkd (s : ustring) :
  filter (fun c => (combining c =? 0)%N) (nfkd s) = flat_map strip_marks_char s.
Proof.
  change (fun c => (combining c =? 0)%N) with starter.
  unfold nfkd. rewrite filter_canonical_order by (intros d []).
  unfold full_decompose. apply filter_flat_map.
Qed.

(** ** [split], [strip] and [join] *)

Lemma split_acc_spaces (r cur : ustring) :
  forallb isspace r = true -> split_acc cur r = emit cur.
Proof.
  revert cur. induction r as [|c r IH]; simpl; intros cur H; [reflexivity|].
  apply andb_prop in H as [Hc Hr]. rewrite Hc, (IH [] Hr). simpl. apply app_nil_r.
Qed.

Lemma split_acc_sep (x y cur : ustring) (c : codepoint) :
  isspace c = true ->
  split_acc cur (x ++ c :: y) = split_acc cur x ++ split_acc [] y.
Proof.
  intros Hc. revert cur. induction x as [|a x IH]; simpl; intros cur.
  - now rewrite Hc.
  - destruct (isspace a); [|apply IH]. now rewrite IH, app_assoc.
Qed.

Lemma split_leading (l y : ustring) :
  forallb isspace l = true -> split (l ++ y) = split y.
Proof.
  unfold split. induction l as [|a l IH]; simpl; intros H; [reflexivity|].
  apply andb_prop in H as [Ha Hl]. rewrite Ha. simpl. now apply IH.
Qed.

Lemma split_trailing (y r cur : ustring) :
  forallb isspace r = true -> split_acc cur (y ++ r) = split_acc cur y.
Proof.
  intros Hr. revert cur. induction y as [|a y IH]; simpl; intros cur.
  - now apply split_acc_spaces.
  - destruct (isspace a); [|apply IH]. now rewrite IH.
Qed.

Lemma split_acc_word (w pre s : ustring) :
  forallb (fun d => negb (isspace d)) w = true ->
  split_acc pre (w ++ s) = split_acc (pre ++ w) s.
Proof.
  revert pre. induction w as [|a w IH]; simpl; intros pre H.
  - now rewrite app_nil_r.
  - apply andb_prop in H as [Ha Hw]. apply negb_true_iff in Ha. rewrite Ha.
    rewrite (IH _ Hw), <- app_assoc. reflexivity.
Qed.

Lemma split_word (w : ustring) :
  w <> [] -> forallb (fun d => negb (isspace d)) w = true -> split w = [w].
Proof.
  intros Hne Hw. unfold split.
  rewrite <- (app_nil_r w) at 1. rewrite (split_acc_word w [] [] Hw). simpl.
  destruct w; [contradiction|reflexivity].
Qed.

(** The words [split] returns are non-empty, without space, and made of
    characters of the text. *)
Lemma split_acc_words (s cur w : ustring) :
  forallb (fun d => negb (isspace d)) cur = true ->
  In w (split_acc cur s) ->
  w <> [] /\ forallb (fun d => negb (isspace d)) w = true
  /\ (forall d, In d w -> In d (cur ++ s)).
Proof.
  revert cur. induction s as [|c s IH]; simpl; intros cur Hcur Hw.
  - destruct cur as [|a cur]; simpl in Hw; [contradiction|].
    destruct Hw as [<-|[]]. rewrite app_nil_r. repeat split; auto. discriminate.
  - destruct (isspace c) eqn:E.
    + apply in_app_or in Hw as [Hw|Hw].
      * destruct cur as [|a cur]; simpl in Hw; [contradiction|].
        destruct Hw as [<-|[]]. repeat split; auto; [discriminate|].
        intros d Hd. apply in_or_app. now left.
      * destruct (IH [] eq_refl Hw) as (H1 & H2 & H3). repeat split; auto.
        intros d Hd. apply in_or_app. right. right. now apply H3.
    + assert (Hc : forallb (fun d => negb (isspace d)) (cur ++ [c]) = true).
      { rewrite forallb_app, Hcur. simpl. now rewrite E. }
      destruct (IH _ Hc Hw) as (H1 & H2 & H3). repeat split; auto.
      intros d Hd. specialize (H3 d Hd). now rewrite <- app_assoc in H3.
Qed.

Lemma split_words (s w : ustring) :
  In w (split s) ->
  w <> [] /\ forallb (fun d => negb (isspace d)) w = true /\ (forall d, In d w -> In d s).
Proof. intros H. now apply (split_acc_words s [] w eq_refl). Qed.

Lemma dropwhile_spaces (s : ustring) :
  exists l, s = l ++ dropwhile isspace s /\ forallb isspace l = true.
Proof.
  induction s as [|c s (l & Hl & Hs)]; simpl.
  - now exists [].
  - destruct (isspace c) eqn:E.
    + exists (c :: l). simpl. rewrite E. split; [now f_equal|exact Hs].
    + now exists [].
Qed.

(** [strip] takes white space away at both ends. *)
Lemma strip_spaces (s : ustring) :
  exists l r, s = l ++ strip s ++ r
              /\ forallb isspace l = true /\ forallb isspace r = true.
Proof.
  destruct (dropwhile_spaces s) as (l & Hl & Hls).
  destruct (dropwhile_spaces (rev (dropwhile isspace s))) as (r & Hr & Hrs).
  exists l, (rev r). unfold strip. repeat split; auto.
  - rewrite <- rev_app_distr, <- Hr, rev_involutive. exact Hl.
  - rewrite forallb_forall in *. intros x Hx. apply Hrs. now apply in_rev.
Qed.

Lemma split_strip (s : ustring) : split (strip s) = split s.
Proof.
  destruct (strip_spaces s) as (l & r & E & Hl & Hr).
  rewrite E at 2. rewrite (split_leading _ _ Hl). unfold split.
  now rewrite split_trailing.
Qed.

Lemma split_join (ws : list ustring) :
  (forall w, In w ws -> w <> [] /\ forallb (fun d => negb (isspace d)) w = true) ->
  split (join [space] ws) = ws.
Proof.
  induction ws as [|w ws IH]; intros H; [reflexivity|].
  destruct (H w (or_introl eq_refl)) as [Hne Hw].
  destruct ws as [|w' ws].
  - simpl. now apply split_word.
  - change (join [space] (w :: w' :: ws)) with (w ++ space :: join [space] (w' :: ws)).
    unfold split. rewrite split_acc_sep by reflexivity.
    fold (split w). fold (split (join [space] (w' :: ws))).
    rewrite (split_word w Hne Hw), IH; [reflexivity|].
    intros v Hv. apply H. now right.
Qed.

Lemma in_join (sep : ustring) (ws : list ustring) (d : codepoint) :
  In d (join sep ws) -> In d sep \/ exists w, In w ws /\ In d w.
Proof.
  induction ws as [|w ws IH]; simpl; [intros []|].
  destruct ws as [|w' ws].
  - intros H. right. exists w. auto.
  - intros H. apply in_app_or in H as [H|H]; [right; exists w; auto|].
    apply in_app_or in H as [H|H]; [now left|].
    destruct (IH H) as [K|(v & Hv & Hd)]; [now left|]. right. exists v. auto.
Qed.

(** How [split] sees a text rewritten character by character, when a
    space is rewritten into spaces. *)
Section SplitFlatMap.

Variable g : codepoint -> ustring.
Hypothesis g_space :
  forall c, isspace c = true -> g c <> [] /\ forallb isspace (g c) = true.

Lemma concat_emit (cur : ustring) :
  concat (map (fun w => split (flat_map g w)) (emit cur)) = split (flat_map g cur).
Proof. destruct cur; simpl; [reflexivity|apply app_nil_r]. Qed.

Lemma split_flat_map_acc (s cur : ustring) :
  split (flat_map g (cur ++ s))
  = concat (map (fun w => split (flat_map g w)) (split_acc cur s)).
Proof.
  revert cur. induction s as [|c s IH]; simpl; intros cur.
  - rewrite app_nil_r. symmetry. apply concat_emit.
  - destruct (isspace c) eqn:E.
    + rewrite map_app, concat_app, concat_emit, <- (IH []). simpl.
      rewrite flat_map_app. simpl.
      destruct (g_space c E) as [Hne Hsp].
      destruct (g c) as [|a sp]; [contradiction|]. simpl in Hsp.
      apply andb_prop in Hsp as [Ha Hsp]. simpl.
      unfold split at 1. rewrite split_acc_sep by exact Ha.
      f_equal. now apply split_leading.
    + rewrite <- IH. now rewrite <- app_assoc.
Qed.

Lemma split_flat_map (s : ustring) :
  split (flat_map g s) = concat (map (fun w => split (flat_map g w)) (split s)).
Proof. exact (split_flat_map_acc s []). Qed.

End SplitFlatMap.

(** ** [normalize] *)

Lemma upper_app (a b : ustring) : upper (a ++ b) = upper a ++ upper b.
Proof. apply flat_map_app. Qed.

Lemma upper_join (ws : list ustring) :
  upper (join [space] ws) = join [space] (map upper ws).
Proof.
  induction ws as [|w ws IH]; [reflexivity|].
  destruct ws as [|w' ws]; [reflexivity|].
  change (join [space] (w :: w' :: ws)) with (w ++ [space] ++ join [space] (w' :: ws)).
  rewrite !upper_app, IH. reflexivity.
Qed.

Lemma upper_word (w : ustring) :
  w <> [] -> forallb (fun d => negb (isspace d)) w = true ->
  upper w <> [] /\ forallb (fun d => negb (isspace d)) (upper w) = true.
Proof.
  intros Hne Hw. split.
  - destruct w as [|c w]; [contradiction|]. simpl in Hw.
    apply andb_prop in Hw as [Hc _]. apply negb_true_iff in Hc.
    destruct (upper_nonspace c Hc) as [H _]. unfold upper. simpl.
    destruct (to_upper c); [contradiction|discriminate].
  - clear Hne. induction w as [|c w IH]; [reflexivity|]. simpl in Hw.
    apply andb_prop in Hw as [Hc Hw]. apply negb_true_iff in Hc.
    unfold upper. simpl. rewrite forallb_app.
    destruct (upper_nonspace c Hc) as [_ ->]. now apply IH.
Qed.

Lemma split_upper (x : ustring) : split (upper x) = map upper (split x).
Proof.
  unfold upper at 1. rewrite split_flat_map.
  - rewrite <- (concat_map_singleton upper (split x)). f_equal. apply map_ext_in.
    intros w Hw. apply split_words in Hw as (Hne & Hw & _).
    destruct (upper_word w Hne Hw) as [H1 H2]. now apply split_word.
  - intros c Hc. rewrite (upper_space c Hc). simpl. now rewrite Hc.
Qed.

(** The normal form: fold every character, then keep the words, one space
    apart. *)
Lemma normalize_folded (s : ustring) :
  normalize s = join [space] (split (flat_map fold_char s)).
Proof.
  unfold normalize. rewrite strip_marks_nfkd, split_strip, upper_join.
  rewrite <- split_upper. unfold upper. rewrite flat_map_flat_map. reflexivity.
Qed.

Lemma normalize_idempotent (s : ustring) : normalize (normalize s) = normalize s.
Proof.
  rewrite (normalize_folded (normalize s)), (normalize_folded s).
  set (ws := split (flat_map fold_char s)).
  assert (Hws : forall w, In w ws ->
            w <> [] /\ forallb (fun d => negb (isspace d)) w = true
            /\ (forall d, In d w -> In d (flat_map fold_char s))).
  { intros w Hw. now apply split_words. }
  rewrite flat_map_fixed.
  - rewrite split_join; [reflexivity|]. intros w Hw. destruct (Hws w Hw) as (? & ? & _). auto.
  - intros d Hd. apply in_join in Hd as [[<-|[]]|(w & Hw & Hd)]; [reflexivity|].
    destruct (Hws w Hw) as (_ & _ & Hin). apply Hin in Hd.
    apply in_flat_map in Hd as (c & _ & Hd). now apply (fold_char_stable c).
Qed.

(** The iota subscript is the one cased mark of the tables. *)
Lemma cased_marks_of_tables : filter cased_mark table_domain = [837%N].
Proof. vm_compute. reflexivity. Qed.









(** ** Header detection *)

Lemma first_index_ext (p q : nat -> bool) (idx : list nat) :
  (forall i, In i idx -> p i = q i) -> first_index p idx = first_index q idx.
Proof.
  induction idx as [|i idx IH]; simpl; intros H; [reflexivity|].
  rewrite (H i) by now left. destruct (q i); [reflexivity|].
  apply IH. intros; apply H; now right.
Qed.

Lemma first_index_found (p : nat -> bool) (n a k : nat) :
  (a <= k < a + n)%nat -> p k = true ->
  (forall j, (a <= j < k)%nat -> p j = false) ->
  first_index p (seq a n) = Some k.
Proof.
  revert a. induction n as [|n IH]; simpl; intros a Hk Hp Hbefore; [lia|].
  destruct (Nat.eq_dec a k) as [->|Hne].
  - now rewrite Hp.
  - rewrite (Hbefore a) by lia. apply IH; [lia|exact Hp|]. intros j Hj. apply Hbefore. lia.
Qed.

Lemma first_index_none (p : nat -> bool) (n a : nat) :
  (forall j, (a <= j < a + n)%nat -> p j = false) ->
  first_index p (seq a n) = None.
Proof.
  revert a. induction n as [|n IH]; simpl; intros a H; [reflexivity|].
  rewrite (H a) by lia. apply IH. intros j Hj. apply H. lia.
Qed.

Lemma find_header_row_window (df_raw : grid) :
  find_header_row df_raw = find_header_row (firstn 20 df_raw).
Proof.
  unfold find_header_row.
  assert (L : Nat.min 20 (List.length (firstn 20 df_raw)) = Nat.min 20 (List.length df_raw)).
  { rewrite length_firstn. lia. }
  rewrite L.
  rewrite (first_index_ext (fun i => is_header (nth i df_raw []))
                           (fun i => is_header (nth i (firstn 20 df_raw) []))); [reflexivity|].
  intros i Hi. apply in_seq in Hi.
  rewrite <- (firstn_skipn 20 df_raw) at 1.
  rewrite app_nth1; [reflexivity|]. rewrite length_firstn. lia.
Qed.

(** C1. Header detection looks at the first 20 rows only (all of them when
    there are fewer); it returns the index of the first of these rows whose
    joined, upper-cased text contains both DEMANDA and ARMADOR, and 0 when
    none of them does. *)
Theorem find_header_row_spec (df_raw : grid) :
  find_header_row df_raw = find_header_row (firstn 20 df_raw)
  /\ (forall k, (k < 20)%nat -> (k < List.length df_raw)%nat ->
        is_header (nth k df_raw []) = true ->
        (forall j, (j < k)%nat -> is_header (nth j df_raw []) = false) ->
        find_header_row df_raw = k)
  /\ ((forall j, (j < 20)%nat -> (j < List.length df_raw)%nat ->
          is_header (nth j df_raw []) = false) ->
      find_header_row df_raw = O)
  /\ (forall row, is_header row = true <->
        contains (u "DEMANDA") (upper (join [space] (map py_str row))) = true
        /\ contains (u "ARMADOR") (upper (join [space] (map py_str row))) = true).
Proof.
  split; [apply find_header_row_window|]. split; [|split].
  - intros k Hk Hlen Hrow Hfirst. unfold find_header_row.
    rewrite first_index_found with (k := k); auto; [lia|].
    intros j Hj. apply Hfirst. lia.
  - intros Hnone. unfold find_header_row.
    rewrite first_index_none; [reflexivity|]. intros j Hj. apply Hnone; lia.
  - intros row. unfold is_header, joined. apply andb_true_iff.
Qed.

Lemma find_header_row_spec_witness :
  find_header_row
    [ [PyStr (u "Planilha de processos")];
      [NaN; NaN];
      [PyStr (u "Demanda"); PyStr (u "Armador"); PyStr (u "Status")];
      [PyInt 1234; PyStr (u "MAERSK"); PyStr (u "Finalizado")] ] = 2%nat.
Proof.
  apply (proj1 (proj2 (find_header_row_spec _))); simpl; try lia.
  - vm_compute; reflexivity.
  - intros j Hj. destruct j as [|[|j]]; [vm_compute; reflexivity ..|lia].
Defined.

(** ** Quantity coercion and formatting *)

(** [round] returns an integer nearest to the float: for the float
    [m * 2 ^ e], twice the distance to the result is at most one. *)
Lemma round_half_even_nearest (m e : Z) :
  (0 < m)%Z -> (e < 0)%Z ->
  (2 * Z.abs (m - round_half_even m e * 2 ^ (- e)) <= 2 ^ (- e))%Z.
Proof.
  intros Hm He. unfold round_half_even.
  destruct (Z.leb_spec 0 e) as [H|_]; [lia|].
  assert (Hd : (0 < 2 ^ (- e))%Z) by (apply Z.pow_pos_nonneg; lia).
  pose proof (Z.div_mod m (2 ^ (- e)) ltac:(lia)) as Hdm.
  pose proof (Z.mod_pos_bound m (2 ^ (- e)) Hd) as Hr.
  set (d := (2 ^ (- e))%Z) in *. set (q := (m / d)%Z) in *. set (r := (m mod d)%Z) in *.
  destruct (Z.compare_spec (2 * r) d) as [Heq|Hlt|Hgt].
  - destruct (Z.even q); nia.
  - nia.
  - nia.
Qed.

Lemma round_half_even_integer (m e : Z) :
  (0 <= e)%Z -> round_half_even m e = (m * 2 ^ e)%Z.
Proof.
  intros H. unfold round_half_even. now rewrite (proj2 (Z.leb_le 0 e) H).
Qed.

Local Open Scope Q_scope.

Lemma two_power_neg (e : Z) :
  (e < 0)%Z -> (2 ^ e)%Q == / inject_Z (2 ^ (- e)).
Proof.
  intros He. rewrite Zpower_Qpower by lia.
  replace e with (- - e)%Z at 1 by lia. now rewrite Qpower_opp.
Qed.

Lemma two_power_pos (e : Z) :
  (0 <= e)%Z -> (2 ^ e)%Q == inject_Z (2 ^ e).
Proof. intros He. now rewrite Zpower_Qpower by lia. Qed.

Lemma Qabs_inject_Z (k : Z) : Qabs (inject_Z k) = inject_Z (Z.abs k).
Proof. reflexivity. Qed.

Lemma round_nearest_Q (m : positive) (e : Z) :
  Qabs (inject_Z (Zpos m) * 2 ^ e - inject_Z (round_half_even (Zpos m) e)) <= 1 # 2.
Proof.
  destruct (Z.leb_spec 0 e) as [He|He].
  - rewrite round_half_even_integer by exact He.
    rewrite two_power_pos by exact He. rewrite inject_Z_mult.
    setoid_replace (inject_Z (Z.pos m) * inject_Z (2 ^ e)
                    - inject_Z (Z.pos m) * inject_Z (2 ^ e)) with 0 by ring.
    vm_compute. discriminate.
  - pose proof (round_half_even_nearest (Zpos m) e ltac:(lia) He) as Hz.
    assert (Hd : (0 < 2 ^ (- e))%Z) by (apply Z.pow_pos_nonneg; lia).
    rewrite two_power_neg by exact He.
    set (d := (2 ^ (- e))%Z) in *. set (r := round_half_even (Zpos m) e) in *.
    clearbody d r.
    assert (Hdq : 0 < inject_Z d) by (change 0 with (inject_Z 0); now rewrite <- Zlt_Qlt).
    setoid_replace (inject_Z (Z.pos m) * / inject_Z d - inject_Z r)
      with (inject_Z (Z.pos m - r * d) / inject_Z d).
    2:{ unfold Z.sub. rewrite inject_Z_plus, inject_Z_opp, inject_Z_mult. field.
        intros E. rewrite E in Hdq. now apply Qlt_irrefl in Hdq. }
    unfold Qdiv. rewrite Qabs_Qmult. rewrite (Qabs_pos (/ inject_Z d)).
    2:{ apply Qlt_le_weak. now apply Qinv_lt_0_compat. }
    apply Qle_shift_div_r; [exact Hdq|].
    rewrite Qabs_inject_Z. unfold Qle, Qmult, inject_Z. cbn [Qnum Qden]. lia.
Qed.

Lemma py_round_nearest (f : float) (n : Z) (v : Q) :
  py_round f = Some n -> float_value f = Some v ->
  Qabs (v - inject_Z n) <= 1 # 2.
Proof.
  destruct f as [s|s| |s m e]; cbn [py_round float_value]; try discriminate.
  - intros H1 H2. injection H1 as <-. injection H2 as <-. vm_compute. discriminate.
  - intros H1 H2. injection H1 as <-. injection H2 as <-.
    pose proof (round_nearest_Q m e) as K.
    destruct s; [|exact K].
    rewrite inject_Z_opp.
    apply Qle_trans with (2 := K). apply Qle_lteq. right.
    rewrite <- Qabs_opp. apply Qabs_wd. ring.
Qed.

Lemma replace_char_delete (d : codepoint) (s : ustring) :
  replace [d] [] s = filter (fun c => negb (c =? d)%N) s.
Proof.
  unfold replace. induction s as [|c s IH]; simpl; [reflexivity|].
  rewrite andb_true_r, (N.eqb_sym d c).
  destruct (c =? d)%N; simpl; now rewrite IH.
Qed.

Lemma replace_char_char (d e : codepoint) (s : ustring) :
  replace [d] [e] s = map (fun c => if (c =? d)%N then e else c) s.
Proof.
  unfold replace. induction s as [|c s IH]; simpl; [reflexivity|].
  rewrite andb_true_r, (N.eqb_sym d c).
  destruct (c =? d)%N; simpl; now rewrite IH.
Qed.

Lemma coerce_qtd_pipeline (v : pyval) :
  coerce_qtd v = PyFloat (to_numeric (commas_to_periods (strip_periods (py_str v)))).
Proof.
  unfold coerce_qtd, commas_to_periods, strip_periods.
  change (u ",") with [44%N]. change (u ".") with [46%N]. change (u "") with (@nil N).
  now rewrite replace_char_delete, replace_char_char.
Qed.

(** C2. The quantity cell is read as text, its periods are taken out,
    its commas become periods, and the result is read as a number:
    "1.234,5" gives 1234.5, "10" gives 10, and what does not read as a
    number, such as "abc", gives the null value NaN.  The coercion is a
    total function: it raises for no cell. *)
Theorem coerce_qtd_spec :
  (forall v,
     coerce_qtd v = PyFloat (to_numeric (commas_to_periods (strip_periods (py_str v)))))
  /\ (exists f, coerce_qtd (PyStr (u "1.234,5")) = PyFloat f /\ has_value f 1234.5)
  /\ (exists f, coerce_qtd (PyStr (u "10")) = PyFloat f /\ has_value f 10)
  /\ coerce_qtd (PyStr (u "abc")) = NaN
  /\ (forall v,
        number_of_str false (commas_to_periods (strip_periods (py_str v))) = None ->
        coerce_qtd v = NaN /\ notna (coerce_qtd v) = false)
  /\ (forall v, exists f, coerce_qtd v = PyFloat f).
Proof.
  split; [exact coerce_qtd_pipeline|]. split; [|split; [|split; [|split]]].
  - eexists. split; [vm_compute; reflexivity|]. vm_compute. reflexivity.
  - eexists. split; [vm_compute; reflexivity|]. vm_compute. reflexivity.
  - vm_compute. reflexivity.
  - intros v H. rewrite coerce_qtd_pipeline. unfold to_numeric. rewrite H. now split.
  - intros v. eexists. apply coerce_qtd_pipeline.
Qed.

Lemma coerce_qtd_spec_witness :
  coerce_qtd (PyStr (u "1,2,3")) = NaN /\ notna (coerce_qtd (PyStr (u "1,2,3"))) = false.
Proof.
  apply (proj1 (proj2 (proj2 (proj2 (proj2 coerce_qtd_spec))))).
  vm_compute. reflexivity.
Defined.

Lemma py_round_finite (f : float) :
  is_finite f = false -> py_round f = None.
Proof. destruct f; simpl; congruence. Qed.

(** C3. Quantity formatting.  A value that reads as a finite number is
    rendered as its rounded value, an integer nearest to it, when the test
    [abs(f - round(f)) < 1e-9] holds, and as the shortest decimal numeral of
    the float otherwise; 1234.0 gives "1234" and 1234.5 gives "1234.5".  A
    value that does not read as a number is passed through as its text, and
    so is one that reads as NaN or as an infinity. *)
Theorem format_qtd_spec :
  (forall val f n, py_float val = Some f -> py_round f = Some n ->
     near_integral f n = true -> format_qtd val = str_of_Z n)
  /\ (forall val f n, py_float val = Some f -> py_round f = Some n ->
     near_integral f n = false -> format_qtd val = repr_float f)
  /\ (forall val, py_float val = None -> format_qtd val = py_str val)
  /\ (forall s, float_of_str s = None -> format_qtd (PyStr s) = s)
  /\ (forall val f, py_float val = Some f -> is_finite f = false ->
     format_qtd val = py_str val)
  /\ (forall f n v, py_round f = Some n -> float_value f = Some v ->
     (Qabs (v - inject_Z n) <= 1 # 2)%Q)
  /\ (exists f, has_value f 1234 /\ format_qtd (PyFloat f) = u "1234")
  /\ (exists f, has_value f 1234.5 /\ format_qtd (PyFloat f) = u "1234.5")
  /\ format_qtd (PyStr (u "1234.0")) = u "1234"
  /\ format_qtd (PyStr (u "1234.5")) = u "1234.5"
  /\ format_qtd (PyStr (u "abc")) = u "abc".
Proof.
  repeat match goal with |- _ /\ _ => split end.
  - intros val f n Hf Hn Hnear. unfold format_qtd. rewrite Hf, Hn.
    unfold near_integral in Hnear. now rewrite Hnear.
  - intros val f n Hf Hn Hnear. unfold format_qtd. rewrite Hf, Hn.
    unfold near_integral in Hnear. now rewrite Hnear.
  - intros val Hf. unfold format_qtd. now rewrite Hf.
  - intros s Hf. unfold format_qtd. change (py_float (PyStr s)) with (float_of_str s).
    now rewrite Hf.
  - intros val f Hf Hfin. unfold format_qtd. now rewrite Hf, (py_round_finite f Hfin).
  - exact py_round_nearest.
  - exists (float_of_decimal false 1234 0). split; vm_compute; reflexivity.
  - exists (float_of_decimal false 12345 (-1)). split; vm_compute; reflexivity.
  - vm_compute. reflexivity.
  - vm_compute. reflexivity.
  - vm_compute. reflexivity.
Qed.

Lemma format_qtd_spec_witness :
  format_qtd (PyStr (u "12,5")) = u "12,5" /\ format_qtd (PyStr (u "7.0000000001")) = u "7".
Proof.
  split.
  - apply (proj1 (proj2 (proj2 (proj2 format_qtd_spec)))). vm_compute. reflexivity.
  - change (u "7") with (str_of_Z 7).
    apply (proj1 format_qtd_spec) with (f := float_of_decimal false 70000000001 (-10));
      vm_compute; reflexivity.
Defined.

(** ** Section chaining *)

Local Open Scope Q_scope.

Lemma round_rects_app (a b : canvas) :
  round_rects (a ++ b) = round_rects a ++ round_rects b.
Proof.
  induction a as [|o a IH]; [reflexivity|].
  destruct o; simpl; now rewrite IH.
Qed.

Lemma round_rects_draw (c : canvas) (o : op) :
  round_rects (draw c o) = round_rects c ++ round_rects [o].
Proof. apply round_rects_app. Qed.

Lemma draw_rows_rects (rows : list (list N * list N)) (c : canvas) (y : Q) :
  round_rects (fst (draw_rows c y rows)) = round_rects c.
Proof.
  revert c y. induction rows as [|[rot val] rows IH]; intros c y; [reflexivity|].
  cbn [draw_rows]. rewrite IH, !round_rects_draw. cbn [round_rects].
  now rewrite !app_nil_r.
Qed.

Lemma draw_header_rects (logo : logo_file) (c : canvas) (d : datetime) (pw ph : Q) :
  round_rects (draw_header logo c d pw ph)
  = round_rects c
    ++ [(pw - MARGIN_R - 5.4 * cm, ph - 2.0 * cm - 3.0 * cm, 5.4 * cm, 3.0 * cm)].
Proof.
  unfold draw_header. destruct logo; rewrite !round_rects_draw; cbn [round_rects];
    now rewrite !app_nil_r.
Qed.

Lemma draw_info_section_rects (c : canvas) (info : list (list N * list N)) (pw ph : Q) :
  round_rects (fst (draw_info_section c info pw ph))
  = round_rects c
    ++ [(MARGIN_L, ph - 6.1 * cm - info_section_height 6,
         pw - MARGIN_L - MARGIN_R, info_section_height 6)].
Proof.
  unfold draw_info_section.
  match goal with |- context [draw_rows ?c0 ?y0 ?r0] =>
    pose proof (draw_rows_rects r0 c0 y0) as H; destruct (draw_rows c0 y0 r0) as [c1 y1]
  end.
  cbn [fst] in *. rewrite H, !round_rects_draw. cbn [round_rects].
  now rewrite !app_nil_r.
Qed.

Lemma draw_info_section_next (c : canvas) (info : list (list N * list N)) (pw ph : Q) :
  snd (draw_info_section c info pw ph)
  = ph - 6.1 * cm - info_section_height 6 - 0.9 * cm.
Proof.
  unfold draw_info_section.
  match goal with |- context [draw_rows ?c0 ?y0 ?r0] =>
    destruct (draw_rows c0 y0 r0) as [c1 y1]
  end.
  reflexivity.
Qed.

Lemma draw_products_section_rects (perr : list N -> option exn) (c c' : canvas)
    (prod : list (list N * list N)) (start_y pw : Q) :
  draw_products_section perr c prod start_y pw = Ok c' ->
  round_rects c'
  = round_rects c
    ++ [(MARGIN_L, start_y - products_section_height,
         pw - MARGIN_L - MARGIN_R, products_section_height)].
Proof.
  unfold draw_products_section.
  match goal with |- context [draw_rows ?c0 ?y0 ?r0] =>
    pose proof (draw_rows_rects r0 c0 y0) as H; destruct (draw_rows c0 y0 r0) as [c1 y1]
  end.
  cbn [fst] in H.
  match goal with |- context [perr ?t] => destruct (perr t) end; [discriminate|].
  intros E. injection E as <-.
  rewrite !round_rects_draw, H, !round_rects_draw. cbn [round_rects].
  now rewrite !app_nil_r.
Qed.

Lemma info_section_height_step (n : Z) :
  info_section_height (n + 1) == info_section_height n + STEP_Y.
Proof. unfold info_section_height. rewrite inject_Z_plus. ring. Qed.

Lemma info_section_height_increasing (n m : Z) :
  (n < m)%Z -> info_section_height n < info_section_height m.
Proof.
  intros H. unfold info_section_height.
  apply Qplus_lt_le_compat; [|apply Qle_refl].
  apply Qplus_lt_r. apply Qmult_lt_r; [reflexivity|].
  now rewrite <- Zlt_Qlt.
Qed.

(** C5. The height of the info section is the title height, the top
    padding, the gap under the title, one step per row and the bottom
    padding, with 6 rows; it grows by exactly one step for each row added to
    the count.  The info section returns its bottom less 0.9 cm, and that
    value is where the product section starts: the top of its rectangle. *)
Theorem section_chaining :
  (forall n, info_section_height n
             == 1.1 * cm + 0.5 * cm + GAP_AFTER_INFO_TITLE + inject_Z n * STEP_Y + 0.6 * cm)
  /\ (forall n, info_section_height (n + 1) == info_section_height n + STEP_Y)
  /\ (forall n m, (n < m)%Z -> info_section_height n < info_section_height m)
  /\ (forall c info pw ph,
        round_rects (fst (draw_info_section c info pw ph))
        = round_rects c ++ [(MARGIN_L, ph - 6.1 * cm - info_section_height 6,
                             pw - MARGIN_L - MARGIN_R, info_section_height 6)]
        /\ snd (draw_info_section c info pw ph)
           = ph - 6.1 * cm - info_section_height 6 - 0.9 * cm
        /\ List.length (info_rows info) = 6%nat)
  /\ (forall perr logo row d pdf,
        gerar_pdf_row perr logo row d = Ok pdf ->
        exists box info_rect prod_rect,
          round_rects pdf = [box; info_rect; prod_rect]
          /\ rect_height info_rect == info_section_height 6
          /\ rect_top prod_rect == rect_bottom info_rect - 0.9 * cm).
Proof.
  split; [intros n; reflexivity|].
  split; [exact info_section_height_step|].
  split; [exact info_section_height_increasing|].
  split.
  - intros c info pw ph.
    split; [apply draw_info_section_rects|]. split; [apply draw_info_section_next|reflexivity].
  - intros perr logo row d pdf. unfold gerar_pdf_row.
    destruct A4 as [pw ph] eqn:EA4.
    match goal with |- context [draw_info_section ?c0 ?i0 pw ph] =>
      pose proof (draw_info_section_rects c0 i0 pw ph) as Hi;
      pose proof (draw_info_section_next c0 i0 pw ph) as Hn;
      destruct (draw_info_section c0 i0 pw ph) as [c1 next_y]
    end.
    cbn [fst snd] in Hi, Hn. rewrite draw_header_rects in Hi. cbn [round_rects app] in Hi.
    unfold bind.
    match goal with |- context [draw_products_section perr c1 ?p0 next_y pw] =>
      destruct (draw_products_section perr c1 p0 next_y pw) as [c2|e] eqn:Ep
    end; [|discriminate].
    intros E. injection E as <-.
    apply draw_products_section_rects in Ep.
    rewrite !round_rects_draw, Ep, Hi. cbn [round_rects app].
    do 3 eexists. split; [reflexivity|]. split.
    + reflexivity.
    + unfold rect_top, rect_bottom, rect_height. cbn [fst snd]. rewrite Hn. ring.
Qed.

Lemma section_chaining_witness :
  info_section_height 6 < info_section_height 7.
Proof.
  apply (proj1 (proj2 (proj2 section_chaining))). reflexivity.
Defined.

(** ** What the composer reads *)

Section ComposerInputs.

Variable paragraph_error : list N -> option exn.
Variable logo : logo_file.

(** Of a record, the composer reads the eight display fields and nothing
    else: two records that agree on them give the same document. *)
Lemma gerar_pdf_row_display_fields (r1 r2 : series) (d : datetime) :
  (forall col, In col DISPLAY_FIELDS ->
     str_or_default r1 col (u "") = str_or_default r2 col (u "")) ->
  gerar_pdf_row paragraph_error logo r1 d = gerar_pdf_row paragraph_error logo r2 d.
Proof.
  intros H. unfold gerar_pdf_row.
  rewrite (H (u "TRANSPORTADORA")), (H (u "NOME")), (H (u "PLACA")), (H (u "ARMADOR")),
          (H (u "TECADI")), (H (u "SKU")), (H (u "QTD")), (H (u "LISTA"));
    try reflexivity; unfold DISPLAY_FIELDS; simpl; tauto.
Qed.

(** A document fails to render exactly when the paragraph flowable refuses
    the list text, and then with the exception of the flowable. *)
Lemma gerar_pdf_row_fails (row : series) (d : datetime) (e : exn) :
  gerar_pdf_row paragraph_error logo row d = Raise e
  <-> paragraph_error (lista_texto row) = Some e.
Proof.
  unfold gerar_pdf_row, lista_texto.
  destruct A4 as [pw ph].
  match goal with |- context [draw_info_section ?c0 ?i0 pw ph] =>
    destruct (draw_info_section c0 i0 pw ph) as [c1 next_y]
  end.
  unfold draw_products_section, bind.
  match goal with |- context [draw_rows ?c0 ?y0 ?r0] =>
    destruct (draw_rows c0 y0 r0) as [c2 y2]
  end.
  cbn [dict_get ustring_eqb]. 
  change (dict_get _ (u "LISTA") (u "")) with (str_or_default row (u "LISTA") (u "")).
  destruct (paragraph_error _) as [e'|]; split; intros H; congruence.
Qed.

End ComposerInputs.

(** ** Batch generation *)

Local Open Scope Z_scope.

Section Batch.

Variable gerar : series -> datetime -> result canvas.
Variable d : datetime.

Lemma gerar_zip_from (rows : list (Z * series)) (zf : zip_archive) :
  fold_left (gerar_one gerar d) rows zf = zf ++ map (batch_entry gerar d) rows.
Proof.
  revert zf. induction rows as [|[i row] rows IH]; intros zf; simpl.
  - now rewrite app_nil_r.
  - rewrite IH. unfold gerar_one, batch_entry, writestr. simpl.
    destruct (gerar row d); now rewrite <- app_assoc.
Qed.

Lemma gerar_zip_entries (rows : list (Z * series)) :
  Forall2 (fun ir e =>
             match gerar (snd ir) d with
             | Ok pdf => e = (pdf_name (snd ir), PdfBytes pdf)
             | Raise ex =>
               e = (u "ERRO_" ++ str_of_Z (fst ir) ++ u ".txt",
                    Text (u "Falha na linha " ++ str_of_Z (fst ir) ++ u ": " ++ exn_repr ex))
             end)
          rows (gerar_zip gerar d rows).
Proof.
  unfold gerar_zip. rewrite gerar_zip_from. simpl.
  induction rows as [|ir rows IH]; simpl; constructor; [|exact IH].
  unfold batch_entry. now destruct (gerar (snd ir) d).
Qed.

Lemma gerar_zip_documents (rows : list (Z * series)) :
  List.length (filter is_pdf (gerar_zip gerar d rows))
  = List.length (filter (renders gerar d) rows)
  /\ List.length (filter (fun e => negb (is_pdf e)) (gerar_zip gerar d rows))
     = List.length (filter (fun ir => negb (renders gerar d ir)) rows).
Proof.
  unfold gerar_zip. rewrite gerar_zip_from. cbn [app].
  assert (E : forall ir, is_pdf (batch_entry gerar d ir) = renders gerar d ir).
  { intros ir. unfold is_pdf, batch_entry, renders. now destruct (gerar (snd ir) d). }
  induction rows as [|ir rows [IH1 IH2]]; [now split|].
  cbn [map filter]. rewrite E.
  destruct (renders gerar d ir); cbn [negb List.length]; rewrite IH1, IH2; now split.
Qed.

Lemma bt_gerar_download (st : session) (zf : zip_archive) :
  bt_gerar gerar d st = Download zf ->
  exists df, df_cache st = Some df
             /\ zf = gerar_zip gerar d (df_ok_rows df (selected_keys st)).
Proof.
  unfold bt_gerar. destruct (df_cache st) as [df|]; [|discriminate].
  destruct (negb (has_column df (u "STATUS"))); [discriminate|].
  destruct (filter _ REQUIRED_FOR_PDF); [|discriminate].
  destruct (df_ok_rows df (selected_keys st)) eqn:E; [discriminate|].
  intros H. injection H as <-. exists df. now rewrite E.
Qed.

End Batch.

(** C6. Every selected record leaves exactly one entry in the archive, in
    order: its document when it renders, an error marker in its place when
    rendering raises.  The documents are as many as the records that render
    and the markers as many as those that fail, so that no failure stops
    the batch and no document is lost; of three records of which the second
    fails, two documents and one marker are written. *)
Theorem batch_isolation :
  (forall gerar d rows,
     Forall2 (fun ir e =>
                match gerar (snd ir) d with
                | Ok pdf => e = (pdf_name (snd ir), PdfBytes pdf)
                | Raise ex =>
                  e = (u "ERRO_" ++ str_of_Z (fst ir) ++ u ".txt",
                       Text (u "Falha na linha " ++ str_of_Z (fst ir) ++ u ": "
                               ++ exn_repr ex))
                end)
             rows (gerar_zip gerar d rows)
     /\ List.length (filter is_pdf (gerar_zip gerar d rows))
        = List.length (filter (renders gerar d) rows)
     /\ List.length (filter (fun e => negb (is_pdf e)) (gerar_zip gerar d rows))
        = List.length (filter (fun ir => negb (renders gerar d ir)) rows))
  /\ (forall gerar d st zf,
        bt_gerar gerar d st = Download zf ->
        exists df, df_cache st = Some df
                   /\ zf = gerar_zip gerar d (df_ok_rows df (selected_keys st)))
  /\ (exists zf,
        bt_gerar sample_gerar sample_date (session_with batch_table) = Download zf
        /\ map fst zf = [u "1001.MAERSK.pdf"; u "ERRO_1.txt"; u "1003.MSC.pdf"]
        /\ map is_pdf zf = [true; false; true]).
Proof.
  split; [|split].
  - intros gerar d rows. split; [apply gerar_zip_entries|apply gerar_zip_documents].
  - intros gerar d st zf. apply bt_gerar_download.
  - eexists. split; [vm_compute; reflexivity|]. split; vm_compute; reflexivity.
Qed.

Lemma batch_isolation_witness :
  exists df, df_cache (session_with batch_table) = Some df
             /\ gerar_zip sample_gerar sample_date (df_ok_rows batch_table [])
                = gerar_zip sample_gerar sample_date
                            (df_ok_rows df (selected_keys (session_with batch_table))).
Proof.
  apply (proj1 (proj2 batch_isolation)). vm_compute. reflexivity.
Defined.

(** ** The refresh button *)

Section Refresh.

Variable read_excel : bytes -> result grid.

Lemma bt_atualizar_failed (get1 get2 : result response) (st : session) (e : exn) :
  fetch read_excel get1 get2 = Raise e ->
  bt_atualizar read_excel get1 get2 st
  = {| df_cache := None; fetch_error := Some (exn_str e);
       selected_keys := selected_keys st |}.
Proof. unfold fetch, bt_atualizar. now intros ->. Qed.

Lemma bt_atualizar_loaded (get1 get2 : result response) (st : session) (df : DataFrame) :
  fetch read_excel get1 get2 = Ok df ->
  bt_atualizar read_excel get1 get2 st
  = {| df_cache := Some df; fetch_error := None; selected_keys := selected_keys st |}.
Proof. unfold fetch, bt_atualizar. now intros ->. Qed.

End Refresh.

(** C8, amended.  A refresh that fails, after the fallback
    request too, does not propagate: the handler records the text of the
    error and resets the cached table to none, so the table loaded before
    is discarded; the selection is kept.  A refresh that succeeds replaces
    the table and clears the error. *)
Theorem failed_refresh_clears_cache :
  forall read_excel get1 get2 st,
    (forall e, fetch read_excel get1 get2 = Raise e ->
       df_cache (bt_atualizar read_excel get1 get2 st) = None
       /\ fetch_error (bt_atualizar read_excel get1 get2 st) = Some (exn_str e)
       /\ selected_keys (bt_atualizar read_excel get1 get2 st) = selected_keys st)
    /\ (forall df, fetch read_excel get1 get2 = Ok df ->
       df_cache (bt_atualizar read_excel get1 get2 st) = Some df
       /\ fetch_error (bt_atualizar read_excel get1 get2 st) = None)
    /\ (forall r1 r2, get1 = Ok r1 -> get2 = Ok r2 ->
       usable r1 = false -> usable r2 = false ->
       fetch read_excel get1 get2 = Raise DownloadError).
Proof.
  intros read_excel get1 get2 st. split; [|split].
  - intros e H. now rewrite (bt_atualizar_failed read_excel get1 get2 st e H).
  - intros df H. now rewrite (bt_atualizar_loaded read_excel get1 get2 st df H).
  - intros r1 r2 -> -> H1 H2. unfold fetch, onedrive_direct_download. simpl.
    now rewrite H1, H2.
Qed.

Lemma failed_refresh_clears_cache_witness :
  df_cache (bt_atualizar sample_read_excel (Raise Timeout) (Raise Timeout)
                         (session_with batch_table)) = None
  /\ fetch_error (bt_atualizar sample_read_excel (Raise Timeout) (Raise Timeout)
                               (session_with batch_table)) = Some (exn_str Timeout)
  /\ selected_keys (bt_atualizar sample_read_excel (Raise Timeout) (Raise Timeout)
                                 (session_with batch_table)) = [].
Proof.
  apply (proj1 (failed_refresh_clears_cache sample_read_excel (Raise Timeout)
                  (Raise Timeout) (session_with batch_table))).
  reflexivity.
Defined.

(** C8 as stated fails: a session holds a table, both requests answer with
    an error page, and the table is gone after the refresh. *)
Lemma failed_refresh_counterexample :
  fetch sample_read_excel (Ok error_page) (Ok error_page) = Raise DownloadError
  /\ df_cache (session_with batch_table) = Some batch_table
  /\ df_cache (bt_atualizar sample_read_excel (Ok error_page) (Ok error_page)
                            (session_with batch_table)) = None
  /\ df_cache (bt_atualizar sample_read_excel (Ok error_page) (Ok error_page)
                            (session_with batch_table))
     <> df_cache (session_with batch_table).
Proof.
  split; [reflexivity|]. split; [reflexivity|]. split; [reflexivity|].
  discriminate.
Qed.

(** ** The required columns *)

Lemma dict_get_absent {A : Type} (row : list (list N * A)) (col : list N) (x : A) :
  existsb (fun kv => ustring_eqb (fst kv) col) row = false -> dict_get row col x = x.
Proof.
  induction row as [|[k v] row IH]; simpl; [reflexivity|].
  destruct (ustring_eqb k col); simpl; [discriminate|exact IH].
Qed.

Lemma dict_get_present {A : Type} (row : list (list N * A)) (col : list N) (x y : A) :
  existsb (fun kv => ustring_eqb (fst kv) col) row = true ->
  dict_get row col x = dict_get row col y.
Proof.
  induction row as [|[k v] row IH]; simpl; [discriminate|].
  destruct (ustring_eqb k col); simpl; [reflexivity|exact IH].
Qed.

Lemma col_in_dict_set (row : series) (k col : list N) (v : pyval) :
  col_in row col = true -> col_in (dict_set row k v) col = true.
Proof.
  unfold col_in. induction row as [|[k' v'] row IH]; simpl; [discriminate|].
  destruct (ustring_eqb k' k) eqn:E; simpl.
  - apply ustring_eqb_eq in E. subst k'. now destruct (ustring_eqb k col).
  - destruct (ustring_eqb k' col); simpl; [reflexivity|exact IH].
Qed.

Lemma col_in_combine (cols : list (list N)) (cells : list pyval) (col : list N) :
  List.length cells = List.length cols ->
  col_in (combine cols cells) col = existsb (ustring_eqb col) cols.
Proof.
  unfold col_in. revert cells. induction cols as [|c cols IH]; intros cells H; [reflexivity|].
  destruct cells as [|x cells]; [discriminate|]. simpl in *.
  rewrite IH by congruence. f_equal.
  destruct (ustring_eqb c col) eqn:E.
  - apply ustring_eqb_eq in E. subst. now rewrite ustring_eqb_refl.
  - destruct (ustring_eqb col c) eqn:E'; [|reflexivity].
    apply ustring_eqb_eq in E'. subst. now rewrite ustring_eqb_refl in E.
Qed.

Lemma required_not_key (c : list N) :
  In c REQUIRED_FOR_PDF -> ustring_eqb c (u "_key") = false.
Proof.
  intros H. repeat (destruct H as [<-|H]; [reflexivity|]). destruct H.
Qed.

Lemma required_in_df_ok (df : DataFrame) (c : list N) :
  In c REQUIRED_FOR_PDF ->
  existsb (ustring_eqb c) (df_ok_columns df) = has_column df c.
Proof.
  intros H. unfold df_ok_columns, has_column.
  destruct (existsb (ustring_eqb (u "_key")) (columns df)); [reflexivity|].
  rewrite existsb_app. cbn [existsb]. rewrite (required_not_key c H).
  now rewrite !orb_false_r.
Qed.

Lemma df_ok_rows_origin (df : DataFrame) (selected : list (list N)) (ir : Z * series) :
  In ir (df_ok_rows df selected) ->
  exists r, In r (records df) /\ ir = (fst r, with_key (row_series df (snd r))).
Proof.
  unfold df_ok_rows. intros H.
  assert (K : In ir (map (fun r => (fst r, with_key (snd r)))
                 (filter (fun r => is_finalizado (snd r))
                    (map (fun r => (fst r, row_series df (snd r))) (records df))))).
  { destruct selected; [exact H|]. now apply filter_In in H. }
  apply in_map_iff in K as (r1 & <- & K). apply filter_In in K as [K _].
  apply in_map_iff in K as (r & <- & K). exists r. now split.
Qed.

Section Gate.

Variable gerar : series -> datetime -> result canvas.
Variable d : datetime.

Lemma gate_passed (st : session) (df : DataFrame) (zf : zip_archive) :
  df_cache st = Some df -> bt_gerar gerar d st = Download zf ->
  forall c, In c REQUIRED_FOR_PDF -> has_column df c = true.
Proof.
  unfold bt_gerar. intros ->.
  destruct (negb (has_column df (u "STATUS"))); [discriminate|].
  destruct (filter _ REQUIRED_FOR_PDF) eqn:E; [|discriminate].
  intros _ c Hc.
  destruct (has_column df c) eqn:Hcol; [reflexivity|].
  assert (K : In c (filter (fun c => negb (existsb (ustring_eqb c) (df_ok_columns df)))
                           REQUIRED_FOR_PDF)).
  { apply filter_In. split; [exact Hc|]. now rewrite (required_in_df_ok df c Hc), Hcol. }
  rewrite E in K. destruct K.
Qed.

Lemma gate_blocked (st : session) (df : DataFrame) (c : list N) :
  df_cache st = Some df -> has_column df (u "STATUS") = true ->
  In c REQUIRED_FOR_PDF -> has_column df c = false ->
  exists faltam, bt_gerar gerar d st = MissingColumns faltam /\ In c faltam.
Proof.
  unfold bt_gerar. intros -> -> Hc Hcol. cbn [negb].
  assert (K : In c (filter (fun c => negb (existsb (ustring_eqb c) (df_ok_columns df)))
                           REQUIRED_FOR_PDF)).
  { apply filter_In. split; [exact Hc|]. now rewrite (required_in_df_ok df c Hc), Hcol. }
  destruct (filter _ REQUIRED_FOR_PDF) as [|c0 l]; [destruct K|].
  eexists. split; [reflexivity|exact K].
Qed.

End Gate.

(** C9, amended.  The gate is on the columns of the table, not
    on the records: when a required column is missing from the table the
    missing columns are reported and nothing is generated; when a batch is
    generated, every required column exists, so every record passed to the
    composer carries every required label.  Whether the value under a
    label is null is not checked. *)
Theorem required_columns_gate :
  forall gerar d st df,
    df_cache st = Some df -> well_formed df ->
    (forall zf, bt_gerar gerar d st = Download zf ->
       (forall c, In c REQUIRED_FOR_PDF -> has_column df c = true)
       /\ (forall ir c, In ir (df_ok_rows df (selected_keys st)) ->
              In c REQUIRED_FOR_PDF -> col_in (snd ir) c = true))
    /\ (forall c, has_column df (u "STATUS") = true ->
          In c REQUIRED_FOR_PDF -> has_column df c = false ->
          exists faltam, bt_gerar gerar d st = MissingColumns faltam /\ In c faltam).
Proof.
  intros gerar d st df Hdf Hwf. split.
  - intros zf Hzf. pose proof (gate_passed gerar d st df zf Hdf Hzf) as Hcols.
    split; [exact Hcols|]. intros ir c Hir Hc.
    apply df_ok_rows_origin in Hir as (r & Hr & ->). cbn [snd].
    unfold with_key. apply col_in_dict_set. unfold row_series.
    rewrite col_in_combine; [now apply Hcols|].
    unfold well_formed in Hwf. rewrite Forall_forall in Hwf. now apply Hwf.
  - intros c Hs Hc Hcol. now apply (gate_blocked gerar d st df c).
Qed.

Lemma required_columns_gate_witness :
  has_column gate_table (u "PLACA") = true
  /\ col_in (with_key (row_series gate_table (sample_record "DEM 2001" "MAERSK" "A1" NaN)))
            (u "PLACA") = true.
Proof.
  assert (Hwf : well_formed gate_table) by (repeat constructor).
  destruct (required_columns_gate sample_gerar sample_date
              (session_with gate_table) gate_table eq_refl Hwf) as [H _].
  destruct (bt_gerar sample_gerar sample_date (session_with gate_table)) as [| | | |zf] eqn:E;
    try (vm_compute in E; discriminate).
  destruct (H zf eq_refl) as [Hcols Hrows].
  assert (Hplaca : In (u "PLACA") REQUIRED_FOR_PDF) by (vm_compute; tauto).
  split; [exact (Hcols _ Hplaca)|].
  apply (Hrows (0%Z, with_key (row_series gate_table
                                 (sample_record "DEM 2001" "MAERSK" "A1" NaN))) _);
    [|exact Hplaca].
  left. vm_compute. reflexivity.
Defined.

(** C9 as stated fails: the one finished record of [gate_table] has no
    plate, it is not flagged, and its document is generated. *)
Lemma required_fields_counterexample :
  exists row pdf,
    df_ok_rows gate_table (selected_keys (session_with gate_table)) = [(0, row)]
    /\ field_present row (u "PLACA") = false
    /\ has_required_fields row = false
    /\ sample_gerar row sample_date = Ok pdf
    /\ bt_gerar sample_gerar sample_date (session_with gate_table)
       = Download [(u "2001.MAERSK.pdf", PdfBytes pdf)].
Proof.
  do 2 eexists. split; [vm_compute; reflexivity|].
  split; [vm_compute; reflexivity|]. split; [vm_compute; reflexivity|].
  split; vm_compute; reflexivity.
Qed.

(** ** Keys and file names *)

Lemma digit_not_space (c : N) : isdigit c = true -> isspace c = false.
Proof.
  unfold isdigit. intros H. apply andb_prop in H as [H1 H2].
  apply N.leb_le in H1, H2.
  assert (K : (c = 48 \/ c = 49 \/ c = 50 \/ c = 51 \/ c = 52 \/ c = 53 \/ c = 54
               \/ c = 55 \/ c = 56 \/ c = 57)%N) by lia.
  repeat (destruct K as [->|K]; [reflexivity|]). now subst.
Qed.

Lemma space_not_digit (c : N) : isspace c = true -> isdigit c = false.
Proof.
  intros H. destruct (isdigit c) eqn:E; [|reflexivity].
  apply digit_not_space in E. congruence.
Qed.

Lemma take_digits_trailing (y r : list N) :
  forallb isspace r = true -> take_digits (y ++ r) = take_digits y.
Proof.
  intros Hr. induction y as [|c y IH]; simpl.
  - destruct r as [|a r]; [reflexivity|]. simpl in *.
    apply andb_prop in Hr as [Ha _]. now rewrite (space_not_digit a Ha).
  - now rewrite IH.
Qed.

Lemma search_digits_spaces (r : list N) :
  forallb isspace r = true -> search_digits r = None.
Proof.
  induction r as [|a r IH]; simpl; intros H; [reflexivity|].
  apply andb_prop in H as [Ha Hr]. rewrite (space_not_digit a Ha). now apply IH.
Qed.

Lemma search_digits_trailing (y r : list N) :
  forallb isspace r = true -> search_digits (y ++ r) = search_digits y.
Proof.
  intros Hr. induction y as [|c y IH]; simpl.
  - now apply search_digits_spaces.
  - rewrite IH. now rewrite (take_digits_trailing y r Hr).
Qed.

Lemma search_digits_leading (l y : list N) :
  forallb isspace l = true -> search_digits (l ++ y) = search_digits y.
Proof.
  induction l as [|a l IH]; simpl; intros H; [reflexivity|].
  apply andb_prop in H as [Ha Hl]. rewrite (space_not_digit a Ha). now apply IH.
Qed.

Lemma search_digits_strip (s : list N) : search_digits (strip s) = search_digits s.
Proof.
  destruct (strip_spaces s) as (l & r & E & Hl & Hr).
  rewrite E at 2. rewrite (search_digits_leading l _ Hl).
  now rewrite (search_digits_trailing (strip s) r Hr).
Qed.

(** [str_or_default] in terms of [row.get]. *)
Lemma str_or_default_get (row : series) (col : list N) :
  str_or_default row col (u "")
  = let v := row_get row col (PyStr (u "")) in
    if notna v then strip (py_str v) else u "".
Proof.
  unfold str_or_default, col_in, row_get.
  destruct (existsb (fun kv => ustring_eqb (fst kv) col) row) eqn:E.
  - now rewrite (dict_get_present row col PyNone (PyStr (u "")) E).
  - now rewrite (dict_get_absent row col (PyStr (u "")) E).
Qed.

Lemma digits_notna (v : pyval) (m : list N) :
  search_digits (py_str v) = Some m -> notna v = true.
Proof.
  destruct v as [s|z|f|]; try reflexivity.
  - destruct f; try reflexivity. intros H. vm_compute in H. discriminate.
  - intros H. vm_compute in H. discriminate.
Qed.

Lemma pdf_name_digits (row : series) (m : list N) :
  search_digits (py_str (row_get row (u "DEMANDA") (PyStr (u "")))) = Some m ->
  pdf_name row = m ++ u "." ++ str_or_default row (u "ARMADOR") (u "") ++ u ".pdf".
Proof.
  intros H. unfold pdf_name. rewrite (str_or_default_get row (u "DEMANDA")). cbv zeta.
  rewrite (digits_notna _ m H). unfold demanda_num.
  now rewrite search_digits_strip, H.
Qed.

Lemma dict_get_set {A : Type} (row : list (list N * A)) (k : list N) (v x : A) :
  dict_get (dict_set row k v) k x = v.
Proof.
  induction row as [|[k' v'] row IH]; simpl.
  - now rewrite ustring_eqb_refl.
  - destruct (ustring_eqb k' k) eqn:E; simpl.
    + now rewrite ustring_eqb_refl.
    + now rewrite E.
Qed.

(** C10. Neither the selection key nor the file name identifies a record.
    Two records whose DEMANDA texts have the same first run of digits and
    whose ARMADOR values are equal get the same key, so that the selection
    box has one option for both and selecting it selects both, and their
    documents are written to the archive under the same name. *)
Theorem key_collision :
  forall (r1 r2 : series) (m : list N),
    search_digits (py_str (row_get r1 (u "DEMANDA") (PyStr (u "")))) = Some m ->
    search_digits (py_str (row_get r2 (u "DEMANDA") (PyStr (u "")))) = Some m ->
    row_get r1 (u "ARMADOR") (PyStr (u "")) = row_get r2 (u "ARMADOR") (PyStr (u "")) ->
    _make_key r1 = _make_key r2
    /\ List.length (labels [r1; r2]) = 1%nat
    /\ (forall selected,
          key_selected selected (with_key r1) = key_selected selected (with_key r2))
    /\ pdf_name r1 = pdf_name r2
    /\ (forall gerar d i1 i2 pdf1 pdf2,
          gerar r1 d = Ok pdf1 -> gerar r2 d = Ok pdf2 ->
          gerar_zip gerar d [(i1, r1); (i2, r2)]
          = [(pdf_name r1, PdfBytes pdf1); (pdf_name r1, PdfBytes pdf2)]).
Proof.
  intros r1 r2 m H1 H2 Ha.
  assert (Hk : _make_key r1 = _make_key r2).
  { unfold _make_key, demanda_num. cbv zeta. now rewrite H1, H2, Ha. }
  assert (Hn : pdf_name r1 = pdf_name r2).
  { rewrite (pdf_name_digits r1 m H1), (pdf_name_digits r2 m H2).
    now rewrite !str_or_default_get, Ha. }
  split; [exact Hk|]. split; [|split; [|split; [exact Hn|]]].
  - unfold labels. cbn [fold_left dict_set]. rewrite Hk, ustring_eqb_refl. reflexivity.
  - intros selected. unfold key_selected, with_key, row_get.
    now rewrite !dict_get_set, Hk.
  - intros gerar d i1 i2 pdf1 pdf2 G1 G2. unfold gerar_zip. cbn [fold_left gerar_one].
    rewrite G1. unfold writestr. cbn [app]. rewrite G2, Hn. reflexivity.
Qed.

Lemma key_collision_witness :
  collision_first <> collision_second
  /\ _make_key collision_first = _make_key collision_second
  /\ pdf_name collision_first = pdf_name collision_second
  /\ exists zf,
       bt_gerar sample_gerar sample_date (session_with collision_table) = Download zf
       /\ map fst zf = [u "1234.MAERSK.pdf"; u "1234.MAERSK.pdf"].
Proof.
  pose proof (key_collision collision_first collision_second (u "1234")
                eq_refl eq_refl eq_refl) as (Hk & _ & _ & Hn & _).
  split; [discriminate|]. split; [exact Hk|]. split; [exact Hn|].
  eexists. split; vm_compute; reflexivity.
Defined.

(** * Further properties *)

(** ** Normal forms of [normalize] *)

Lemma check_fixed_all (c : codepoint) : check_fixed c = true.
Proof.
  revert c. apply table_cases; [vm_compute; reflexivity|].
  intros c H. unfold check_fixed. rewrite (fold_char_inert c H). simpl.
  now rewrite (strip_marks_inert c H), (to_upper_inert c H), !ustring_eqb_refl.
Qed.

Lemma check_upper_fixed_all (c : codepoint) : check_upper_fixed c = true.
Proof.
  revert c. apply table_cases; [vm_compute; reflexivity|].
  intros c H. unfold check_upper_fixed. rewrite (to_upper_inert c H). simpl.
  now rewrite (to_upper_inert c H), ustring_eqb_refl.
Qed.

Lemma upper_upper (s : ustring) : upper (upper s) = upper s.
Proof.
  unfold upper. rewrite flat_map_flat_map. apply flat_map_ext_in. intros c _.
  apply flat_map_fixed. intros d Hd.
  pose proof (check_upper_fixed_all c) as K. unfold check_upper_fixed in K.
  rewrite forallb_forall in K. now apply ustring_eqb_eq, K.
Qed.

Lemma folded_fixed (c d : codepoint) :
  In d (fold_char c) -> strip_marks_char d = [d] /\ to_upper d = [d].
Proof.
  intros H. pose proof (check_fixed_all c) as K. unfold check_fixed in K.
  rewrite forallb_forall in K. specialize (K d H). apply andb_prop in K as [K1 K2].
  split; now apply ustring_eqb_eq.
Qed.

(** The characters of a normalised text: a space, or a character produced
    by folding. *)
Lemma normalize_chars (s : ustring) (d : codepoint) :
  In d (normalize s) -> d = space \/ exists c, In d (fold_char c).
Proof.
  rewrite normalize_folded. intros H.
  apply in_join in H as [[<-|[]]|(w & Hw & Hd)]; [now left|]. right.
  apply split_words in Hw as (_ & _ & Hin). apply Hin in Hd.
  apply in_flat_map in Hd as (c & _ & Hd). now exists c.
Qed.

Lemma normalize_char_fixed (s : ustring) (d : codepoint) :
  In d (normalize s) -> strip_marks_char d = [d] /\ to_upper d = [d].
Proof.
  intros H. apply normalize_chars in H as [->|(c & Hc)].
  - split; reflexivity.
  - now apply (folded_fixed c).
Qed.

(** X1. Each of the three passes of [normalize] leaves a normalised text
    as it is: there is no mark left to strip, the white space is already
    one space between words and none around, and the text is upper case. *)
Theorem normalize_canonical (s : ustring) :
  filter (fun c => (combining c =? 0)%N) (nfkd (normalize s)) = normalize s
  /\ join [space] (split (strip (normalize s))) = normalize s
  /\ upper (normalize s) = normalize s.
Proof.
  split; [|split].
  - rewrite strip_marks_nfkd. apply flat_map_fixed.
    intros d Hd. now apply (normalize_char_fixed s).
  - rewrite split_strip. rewrite (normalize_folded s) at 1.
    rewrite split_join; [symmetry; apply normalize_folded|].
    intros w Hw. apply split_words in Hw as (H1 & H2 & _). now split.
  - apply flat_map_fixed. intros d Hd. now apply (normalize_char_fixed s).
Qed.

(** ** The alias table *)

Lemma dict_get_cases {A : Type} (dict : list (list N * A)) (k : list N) (x : A) :
  dict_get dict k x = x \/ In (dict_get dict k x) (map snd dict).
Proof.
  induction dict as [|[k' v] dict IH]; simpl; [now left|].
  destruct (ustring_eqb k' k); [right; now left|].
  destruct IH as [IH|IH]; [now left|right; now right].
Qed.

Lemma column_key_canonical (v : list N) :
  In v (map snd COLMAP) -> column_key v = v.
Proof.
  intros H. simpl in H.
  repeat (destruct H as [<-|H]; [vm_compute; reflexivity|]). destruct H.
Qed.

(** X2. The name given to a header is a fixed point of the renaming: giving
    names a second time changes none. *)
Theorem column_key_idempotent (c : list N) : column_key (column_key c) = column_key c.
Proof.
  unfold column_key at 2.
  destruct (dict_get_cases COLMAP (normalize c) (normalize c)) as [E|E].
  - rewrite E. unfold column_key. now rewrite normalize_idempotent, E.
  - now apply column_key_canonical.
Qed.

(** X3. The entry of the alias table keyed "DATA PROGRAMAÇÃO" is dead: no
    header normalises to a text with a cedilla or a tilde, so the lookup
    never meets that key; headers spelt that way go through the entry keyed
    "DATA PROGRAMACAO". *)
Theorem accented_alias_unreachable (c : list N) :
  normalize c <> u "DATA PROGRAMAÇÃO"
  /\ normalize (u "DATA PROGRAMAÇÃO") = u "DATA PROGRAMACAO".
Proof.
  split; [|vm_compute; reflexivity].
  intros E. pose proof (proj1 (normalize_canonical c)) as K.
  rewrite strip_marks_nfkd, E in K. vm_compute in K. discriminate.
Qed.

(** ** Loading the sheet *)

Lemma first_index_some (p : nat -> bool) (idx : list nat) (i : nat) :
  first_index p idx = Some i -> In i idx /\ p i = true.
Proof.
  induction idx as [|j idx IH]; simpl; [discriminate|].
  destruct (p j) eqn:E.
  - intros H. injection H as <-. split; [now left|exact E].
  - intros H. destruct (IH H). split; [now right|assumption].
Qed.

(** X4. The header row found lies in the scanned window, so it is a row of
    the sheet; when it is not row 0, it is a row with both marker words. *)
Theorem find_header_row_bounds (df_raw : grid) :
  df_raw <> [] ->
  (find_header_row df_raw < Nat.min 20 (List.length df_raw))%nat
  /\ (find_header_row df_raw <> O ->
      is_header (nth (find_header_row df_raw) df_raw []) = true).
Proof.
  intros Hne. unfold find_header_row.
  destruct (first_index _ _) as [i|] eqn:E.
  - apply first_index_some in E as [Hin Hp]. apply in_seq in Hin.
    split; [lia|]. now intros _.
  - split; [|congruence]. destruct df_raw; [contradiction|]. simpl. lia.
Qed.

Lemma find_header_row_bounds_witness :
  (find_header_row [[NaN]; [PyStr (u "demanda armador")]] < 2)%nat.
Proof.
  apply (proj1 (find_header_row_bounds [[NaN]; [PyStr (u "demanda armador")]]
                  ltac:(discriminate))).
Defined.

(** X5. Loading raises for an empty sheet only, and then the [IndexError]
    of the access to the header row. *)
Theorem load_table_raises (df_raw : grid) :
  match load_table df_raw with
  | Raise e => df_raw = [] /\ e = IndexError
  | Ok _ => df_raw <> []
  end.
Proof.
  unfold load_table.
  destruct (nth_error df_raw (find_header_row df_raw)) as [hdr|] eqn:E.
  - intros ->. destruct (find_header_row []); discriminate.
  - split; [|reflexivity]. destruct df_raw as [|r df]; [reflexivity|].
    apply nth_error_None in E.
    pose proof (proj1 (find_header_row_bounds (r :: df) ltac:(discriminate))). lia.
Qed.

Lemma in_seen (c : list N) (seen : list (list N)) :
  existsb (ustring_eqb c) seen = true <-> In c seen.
Proof.
  rewrite existsb_exists. split.
  - intros (x & Hx & E). apply ustring_eqb_eq in E. now subst.
  - intros H. exists c. split; [exact H|apply ustring_eqb_refl].
Qed.

Lemma dedup_fresh (cols seen : list (list N)) :
  NoDup (drop_masked (duplicated seen cols) cols)
  /\ forall x, In x (drop_masked (duplicated seen cols) cols) -> ~ In x seen.
Proof.
  revert seen. induction cols as [|c cols IH]; intros seen; simpl.
  - split; [constructor|intros x []].
  - destruct (IH (c :: seen)) as [Hnd Hfresh].
    destruct (existsb (ustring_eqb c) seen) eqn:E.
    + split; [exact Hnd|]. intros x Hx Hs. apply (Hfresh x Hx). now right.
    + split.
      * constructor; [|exact Hnd]. intros Hc. apply (Hfresh c Hc). now left.
      * intros x [<-|Hx] Hs.
        -- apply in_seen in Hs. congruence.
        -- apply (Hfresh x Hx). now right.
Qed.

Lemma drop_masked_length_le {A : Type} (mask : list bool) (xs : list A) :
  (List.length (drop_masked mask xs) <= List.length xs)%nat.
Proof.
  revert xs. induction mask as [|m mask IH]; intros [|x xs]; simpl; try lia.
  specialize (IH xs). destruct m; simpl; lia.
Qed.

Lemma drop_masked_length {A B : Type} (mask : list bool) (xs : list A) (ys : list B) :
  List.length xs = List.length mask -> List.length ys = List.length mask ->
  List.length (drop_masked mask xs) = List.length (drop_masked mask ys).
Proof.
  revert xs ys. induction mask as [|m mask IH]; intros [|x xs] [|y ys]; simpl;
    try discriminate; try reflexivity.
  intros Hx Hy. destruct m; simpl; [|f_equal]; apply IH; congruence.
Qed.

Lemma duplicated_length (seen cols : list (list N)) :
  List.length (duplicated seen cols) = List.length cols.
Proof.
  revert seen. induction cols as [|c cols IH]; intros seen; simpl; [reflexivity|].
  now rewrite IH.
Qed.

Lemma update_nth_length {A : Type} (f : A -> A) (i : nat) (xs : list A) :
  List.length (update_nth f i xs) = List.length xs.
Proof.
  revert i. induction xs as [|x xs IH]; intros [|i]; simpl; try reflexivity.
  now rewrite IH.
Qed.

Lemma map_column_columns (f : pyval -> pyval) (col : list N) (df : DataFrame) :
  columns (map_column f col df) = columns df.
Proof. unfold map_column. now destruct (column_index (columns df) col). Qed.

Lemma map_column_records (f : pyval -> pyval) (col : list N) (df : DataFrame) :
  exists g, records (map_column f col df) = map (fun r => (fst r, g (snd r))) (records df)
            /\ forall cells, List.length (g cells) = List.length cells.
Proof.
  unfold map_column. destruct (column_index (columns df) col) as [i|].
  - exists (update_nth f i). split; [reflexivity|]. intros. apply update_nth_length.
  - exists (fun cells => cells). split; [|reflexivity].
    rewrite <- (map_id (records df)) at 1. apply map_ext. now intros [].
Qed.

Lemma map_fst_combine {A B : Type} (xs : list A) (ys : list B) :
  List.length xs = List.length ys -> map fst (combine xs ys) = xs.
Proof.
  revert ys. induction xs as [|x xs IH]; intros [|y ys]; simpl; try discriminate;
    [reflexivity|]. intros H. f_equal. apply IH. congruence.
Qed.

(** The table before the index is reset. *)
Lemma load_table_ok (df_raw : grid) (t : DataFrame) :
  load_table df_raw = Ok t ->
  exists hdr body,
    nth_error df_raw (find_header_row df_raw) = Some hdr
    /\ body = filter (fun r => existsb notna (snd r))
                (map (fun r => (fst r, firstn 15 (snd r)))
                   (skipn (find_header_row df_raw + 1)
                      (combine (map Z.of_nat (seq 0 (List.length df_raw))) df_raw)))
    /\ let df := map_column normalize_status (u "STATUS")
                   (map_column coerce_qtd (u "QTD")
                      (rename_columns {| columns := firstn 15 (map py_str hdr);
                                         records := body |})) in
       t = {| columns := columns df;
              records := combine (map Z.of_nat (seq 0 (List.length (records df))))
                                 (map snd (records df)) |}.
Proof.
  unfold load_table.
  destruct (nth_error df_raw (find_header_row df_raw)) as [hdr|]; [|discriminate].
  intros H. injection H as <-. exists hdr. eexists. split; [reflexivity|].
  split; reflexivity.
Qed.

(** X6. A loaded table has at most 15 columns, no two of the same name; its
    rows are numbered from 0 in order, and they are at most the rows of the
    sheet below the header row. *)
Theorem load_table_shape (df_raw : grid) (t : DataFrame) :
  load_table df_raw = Ok t ->
  (List.length (columns t) <= 15)%nat
  /\ NoDup (columns t)
  /\ map fst (records t) = map Z.of_nat (seq 0 (List.length (records t)))
  /\ (List.length (records t) + find_header_row df_raw + 1 <= List.length df_raw)%nat.
Proof.
  intros H. apply load_table_ok in H as (hdr & body & Hh & Hb & Ht). cbv zeta in Ht.
  set (df0 := {| columns := firstn 15 (map py_str hdr); records := body |}) in *.
  destruct (map_column_records coerce_qtd (u "QTD") (rename_columns df0)) as (g1 & G1 & _).
  destruct (map_column_records normalize_status (u "STATUS")
              (map_column coerce_qtd (u "QTD") (rename_columns df0))) as (g2 & G2 & _).
  assert (Hlen : List.length (records (map_column normalize_status (u "STATUS")
                   (map_column coerce_qtd (u "QTD") (rename_columns df0))))
                 = List.length body).
  { rewrite G2, length_map, G1, length_map. unfold rename_columns. simpl.
    now rewrite length_map. }
  subst t. cbn [columns records]. rewrite !map_column_columns.
  unfold rename_columns at 1 2. cbn [columns].
  split; [|split; [|split]].
  - eapply Nat.le_trans; [apply drop_masked_length_le|].
    rewrite length_map. cbn [columns df0]. rewrite length_firstn. lia.
  - apply dedup_fresh.
  - rewrite length_combine, !length_map, length_seq, Nat.min_id.
    apply map_fst_combine. now rewrite !length_map, length_seq.
  - rewrite length_combine, !length_map, length_seq, Nat.min_id, Hlen, Hb.
    eapply Nat.le_trans.
    { apply Nat.add_le_mono_r. apply Nat.add_le_mono_r. apply filter_length_le. }
    rewrite length_map, length_skipn, length_combine, length_map, length_seq, Nat.min_id.
    assert (find_header_row df_raw < List.length df_raw)%nat
      by (apply nth_error_Some; congruence).
    lia.
Qed.

Lemma load_table_shape_witness :
  exists t,
    load_table sample_sheet = Ok t
    /\ (List.length (columns t) <= 15)%nat
    /\ NoDup (columns t)
    /\ map fst (records t) = map Z.of_nat (seq 0 (List.length (records t)))
    /\ (List.length (records t) + find_header_row sample_sheet + 1
        <= List.length sample_sheet)%nat.
Proof.
  destruct (load_table sample_sheet) as [t|e] eqn:E; [|vm_compute in E; discriminate].
  exists t. split; [reflexivity|]. exact (load_table_shape sample_sheet t E).
Defined.

Lemma in_skipn_in {A : Type} (n : nat) (xs : list A) (x : A) :
  In x (skipn n xs) -> In x xs.
Proof.
  intros H. rewrite <- (firstn_skipn n xs). apply in_or_app. now right.
Qed.

Lemma firstn_length_same {A B : Type} (n : nat) (xs : list A) (ys : list B) :
  List.length xs = List.length ys ->
  List.length (firstn n xs) = List.length (firstn n ys).
Proof. intros H. now rewrite !length_firstn, H. Qed.

(** X7. When every row of the sheet has the same number of cells, every row
    of the loaded table has one cell per column. *)
Theorem load_table_well_formed (df_raw : grid) (width : nat) (t : DataFrame) :
  rectangular df_raw width -> load_table df_raw = Ok t -> well_formed t.
Proof.
  intros Hrect H. apply load_table_ok in H as (hdr & body & Hh & Hb & Ht). cbv zeta in Ht.
  unfold rectangular in Hrect. rewrite Forall_forall in Hrect.
  assert (Hhdr : List.length hdr = width) by (apply Hrect; eapply nth_error_In; eauto).
  set (df0 := {| columns := firstn 15 (map py_str hdr); records := body |}) in *.
  set (dup := duplicated [] (map column_key (columns df0))).
  assert (Hbody : forall r, In r body -> List.length (snd r) = List.length (columns df0)).
  { intros r Hr. rewrite Hb in Hr. apply filter_In in Hr as [Hr _].
    apply in_map_iff in Hr as (r0 & <- & Hr0). apply in_skipn_in in Hr0.
    destruct r0 as [i row]. apply in_combine_r in Hr0. cbn [snd columns df0].
    apply firstn_length_same. rewrite length_map, Hhdr. now apply Hrect. }
  destruct (map_column_records coerce_qtd (u "QTD") (rename_columns df0)) as (g1 & G1 & L1).
  destruct (map_column_records normalize_status (u "STATUS")
              (map_column coerce_qtd (u "QTD") (rename_columns df0))) as (g2 & G2 & L2).
  subst t. unfold well_formed. cbn [columns records]. rewrite !map_column_columns.
  apply Forall_forall. intros [i cells] Hin. apply in_combine_r in Hin. cbn [snd].
  rewrite G2, G1 in Hin. unfold rename_columns in Hin. cbn [records] in Hin.
  rewrite !map_map in Hin. apply in_map_iff in Hin as (r & <- & Hr). cbn [snd fst].
  rewrite L2, L1. unfold rename_columns. cbn [columns]. fold dup.
  apply drop_masked_length.
  - unfold dup. now rewrite duplicated_length, length_map, (Hbody r Hr).
  - unfold dup. now rewrite duplicated_length.
Qed.

Lemma load_table_well_formed_witness :
  exists t, load_table sample_sheet = Ok t /\ well_formed t.
Proof.
  destruct (load_table sample_sheet) as [t|e] eqn:E; [|vm_compute in E; discriminate].
  exists t. split; [reflexivity|].
  apply (load_table_well_formed sample_sheet 6 t); [|exact E].
  repeat constructor.
Defined.

(** ** Renaming and rewriting columns *)

Lemma dedup_lookup {A : Type} (cols seen : list (list N)) (cells : list A)
    (name : list N) (x : A) :
  ~ In name seen ->
  dict_get (combine (drop_masked (duplicated seen cols) cols)
                    (drop_masked (duplicated seen cols) cells)) name x
  = dict_get (combine cols cells) name x.
Proof.
  revert seen cells. induction cols as [|c cols IH]; intros seen cells Hn; [reflexivity|].
  destruct cells as [|v cells]; simpl.
  - now rewrite combine_nil.
  - destruct (ustring_eqb c name) eqn:E.
    + apply ustring_eqb_eq in E. subst c.
      destruct (existsb (ustring_eqb name) seen) eqn:S.
      * apply in_seen in S. contradiction.
      * simpl. now rewrite ustring_eqb_refl.
    + assert (Hn' : ~ In name (c :: seen)).
      { intros [->|H]; [|contradiction]. now rewrite ustring_eqb_refl in E. }
      destruct (existsb (ustring_eqb c) seen); simpl; [|rewrite E]; now apply IH.
Qed.

(** X8. After [rename_columns] no two columns have the same name, and
    looking a name up in a row gives the value of the first column that was
    given this name: of two columns renamed alike the second is dropped. *)
Theorem rename_columns_lookup (df : DataFrame) :
  NoDup (columns (rename_columns df))
  /\ List.length (records (rename_columns df)) = List.length (records df)
  /\ forall i cells name x,
       In (i, cells) (records df) ->
       exists cells',
         In (i, cells') (records (rename_columns df))
         /\ row_get (row_series (rename_columns df) cells') name x
            = row_get (combine (map column_key (columns df)) cells) name x.
Proof.
  split; [apply dedup_fresh|]. split; [unfold rename_columns; simpl; apply length_map|].
  intros i cells name x Hin.
  exists (drop_masked (duplicated [] (map column_key (columns df))) cells). split.
  - unfold rename_columns. cbn [records].
    apply in_map_iff. exists (i, cells). now split.
  - unfold row_get, row_series, rename_columns. cbn [columns].
    apply dedup_lookup. intros [].
Qed.

Lemma rename_columns_lookup_witness :
  exists cells',
    In (0%Z, cells') (records (rename_columns
          {| columns := [u "Motorista"; u "NOME"];
             records := [(0%Z, [PyStr (u "JOAO"); PyStr (u "J. SILVA")])] |}))
    /\ row_get (row_series (rename_columns
          {| columns := [u "Motorista"; u "NOME"];
             records := [(0%Z, [PyStr (u "JOAO"); PyStr (u "J. SILVA")])] |}) cells')
          (u "NOME") PyNone
       = row_get (combine (map column_key [u "Motorista"; u "NOME"])
                          [PyStr (u "JOAO"); PyStr (u "J. SILVA")]) (u "NOME") PyNone.
Proof.
  apply (proj2 (proj2 (rename_columns_lookup
          {| columns := [u "Motorista"; u "NOME"];
             records := [(0%Z, [PyStr (u "JOAO"); PyStr (u "J. SILVA")])] |}))).
  now left.
Defined.

Lemma duplicated_fresh (cols seen : list (list N)) :
  NoDup cols -> (forall x, In x cols -> ~ In x seen) ->
  forallb negb (duplicated seen cols) = true.
Proof.
  revert seen. induction cols as [|c cols IH]; intros seen Hnd Hfresh; [reflexivity|].
  simpl. inversion Hnd as [|? ? Hc Hnd']; subst.
  destruct (existsb (ustring_eqb c) seen) eqn:E.
  - apply in_seen in E. exfalso. apply (Hfresh c); [now left|exact E].
  - simpl. apply IH; [exact Hnd'|].
    intros x Hx [<-|Hs]; [contradiction|]. apply (Hfresh x); [now right|exact Hs].
Qed.

Lemma drop_masked_none {A : Type} (mask : list bool) (xs : list A) :
  forallb negb mask = true -> List.length xs = List.length mask ->
  drop_masked mask xs = xs.
Proof.
  revert xs. induction mask as [|m mask IH]; intros [|x xs]; simpl; try discriminate;
    try reflexivity.
  intros H L. apply andb_prop in H as [Hm H]. destruct m; [discriminate|].
  f_equal. apply IH; [exact H|congruence].
Qed.

Lemma drop_masked_in {A : Type} (mask : list bool) (xs : list A) (x : A) :
  In x (drop_masked mask xs) -> In x xs.
Proof.
  revert xs. induction mask as [|m mask IH]; intros [|y xs]; simpl; try contradiction.
  destruct m; simpl; intros H; [right; now apply IH|].
  destruct H as [H|H]; [now left|right; now apply IH].
Qed.

(** X9. On a table whose rows have one cell per column, renaming the
    columns a second time changes nothing. *)
Theorem rename_columns_idempotent (df : DataFrame) :
  well_formed df -> rename_columns (rename_columns df) = rename_columns df.
Proof.
  intros Hwf. unfold well_formed in Hwf. rewrite Forall_forall in Hwf.
  pose proof (dedup_fresh (map column_key (columns df)) []) as [Hnd _].
  set (dup := duplicated [] (map column_key (columns df))) in *.
  set (cols := drop_masked dup (map column_key (columns df))) in *.
  assert (Hfix : map column_key cols = cols).
  { rewrite <- (map_id cols) at 2. apply map_ext_in. intros c Hc.
    apply drop_masked_in in Hc. apply in_map_iff in Hc as (c0 & <- & _).
    apply column_key_idempotent. }
  assert (Hno : forallb negb (duplicated [] cols) = true).
  { apply duplicated_fresh; [exact Hnd|]. intros x _ []. }
  unfold rename_columns at 1. fold dup. 
  change (columns (rename_columns df)) with cols.
  change (records (rename_columns df))
    with (map (fun r => (fst r, drop_masked dup (snd r))) (records df)).
  rewrite Hfix. unfold rename_columns. fold dup. fold cols. f_equal.
  - apply drop_masked_none; [exact Hno|]. now rewrite duplicated_length.
  - rewrite map_map. apply map_ext_in. intros r Hr. cbn [fst snd]. f_equal.
    apply drop_masked_none; [exact Hno|]. rewrite duplicated_length. unfold cols.
    apply drop_masked_length.
    + unfold dup. now rewrite duplicated_length, length_map, (Hwf r Hr).
    + unfold dup. now rewrite duplicated_length.
Qed.

Lemma rename_columns_idempotent_witness :
  rename_columns (rename_columns batch_table) = rename_columns batch_table.
Proof.
  apply rename_columns_idempotent. repeat constructor.
Defined.





(** ** The columns a loaded table rewrites *)





(** X11. The status filter sees through case and surrounding white space:
    a row whose status cell was normalised on loading passes the filter
    exactly when the cell's text, stripped and upper-cased, is FINALIZADO. *)
Theorem status_filter_normalized (row : series) (v : pyval) :
  is_finalizado (dict_set row (u "STATUS") (normalize_status v))
  = ustring_eqb (upper (strip (py_str v))) (u "FINALIZADO").
Proof.
  unfold is_finalizado, row_get. rewrite dict_get_set. unfold normalize_status.
  cbn [py_str]. now rewrite upper_upper.
Qed.

(** ** Integers in the quantity column *)

Local Open Scope Z_scope.









Lemma dropwhile_head (p : N -> bool) (s : list N) :
  match s with [] => True | c :: _ => p c = false end -> dropwhile p s = s.
Proof. destruct s as [|c s]; [reflexivity|]. simpl. now intros ->. Qed.

(** A text without white space at either end is its own [strip]. *)
Lemma strip_fixed (s : list N) :
  match s with [] => True | c :: _ => isspace c = false end ->
  match rev s with [] => True | c :: _ => isspace c = false end ->
  strip s = s.
Proof.
  intros H1 H2. unfold strip.
  rewrite (dropwhile_head isspace s H1), (dropwhile_head isspace (rev s) H2).
  apply rev_involutive.
Qed.





Lemma float_same_eq (x y : float) : float_same x y = true -> x = y.
Proof.
  destruct x as [a|a| |a m e], y as [b|b| |b n f]; simpl; try discriminate; intros H.
  - now rewrite (eqb_prop a b H).
  - now rewrite (eqb_prop a b H).
  - reflexivity.
  - apply andb_prop in H as [H He]. apply andb_prop in H as [Hs Hm].
    apply eqb_prop in Hs. apply Pos.eqb_eq in Hm. apply Z.eqb_eq in He. congruence.
Qed.

Lemma check_tenths_range : forallb check_tenths (seq 1 1999) = true.
Proof. vm_compute. reflexivity. Qed.

(** X13. A quantity cell that holds a float with one decimal digit loses
    its decimal point: the text of the float has a period, the period is
    removed as a group separator, and the cell [k / 10] is coerced to [k].
    Checked for every [k] below 2000 that is not a multiple of 10. *)
Theorem coerce_qtd_tenths (k : nat) :
  (1 <= k <= 1999)%nat -> (k mod 10 <> 0)%nat ->
  coerce_qtd (PyFloat (float_of_decimal false (Z.of_nat k) (-1)))
  = PyFloat (float_of_Z (Z.of_nat k)).
Proof.
  intros Hk Hm. pose proof check_tenths_range as H. rewrite forallb_forall in H.
  specialize (H k ltac:(apply in_seq; lia)). unfold check_tenths in H.
  destruct (Nat.eqb_spec (k mod 10) 0) as [E|_]; [contradiction|].
  unfold coerced_to in H.
  destruct (coerce_qtd (PyFloat (float_of_decimal false (Z.of_nat k) (-1))));
    try discriminate.
  f_equal. now apply float_same_eq.
Qed.

Lemma coerce_qtd_tenths_witness :
  coerce_qtd (PyFloat (float_of_decimal false (Z.of_nat 125) (-1)))
  = PyFloat (float_of_Z (Z.of_nat 125)).
Proof. apply coerce_qtd_tenths; [lia|discriminate]. Defined.

(** ** The download *)

(** X14. What the download returns is the content of an answer that is
    marked ok and longer than 1000 bytes: the first answer when it is such,
    whatever the second request would give, and otherwise the second.  It
    raises the error of a request that raised, or its own error when both
    answers are unusable. *)
Theorem download_outcomes (get1 get2 : result response) :
  (forall b, onedrive_direct_download get1 get2 = Ok b ->
     (1000 < List.length b)%nat
     /\ ((exists r, get1 = Ok r /\ r_ok r = true /\ b = r_content r)
         \/ (exists r1 r2, get1 = Ok r1 /\ usable r1 = false
                           /\ get2 = Ok r2 /\ r_ok r2 = true /\ b = r_content r2)))
  /\ (forall r, get1 = Ok r -> usable r = true ->
        onedrive_direct_download get1 get2 = Ok (r_content r))
  /\ (forall e, onedrive_direct_download get1 get2 = Raise e ->
        get1 = Raise e
        \/ (exists r1, get1 = Ok r1 /\ usable r1 = false /\ get2 = Raise e)
        \/ (exists r1 r2, get1 = Ok r1 /\ usable r1 = false
                          /\ get2 = Ok r2 /\ usable r2 = false /\ e = DownloadError)).
Proof.
  assert (U : forall r, usable r = true -> r_ok r = true /\ (1000 < List.length (r_content r))%nat).
  { intros r H. unfold usable in H. apply andb_prop in H as [H H3].
    apply andb_prop in H as [H1 _]. apply Nat.ltb_lt in H3. now split. }
  unfold onedrive_direct_download, bind. split; [|split].
  - intros b H. destruct get1 as [r1|e1]; [|discriminate].
    destruct (usable r1) eqn:U1.
    + injection H as <-. destruct (U r1 U1). split; [assumption|]. left. now exists r1.
    + destruct get2 as [r2|e2]; [|discriminate].
      destruct (usable r2) eqn:U2; [|discriminate].
      injection H as <-. destruct (U r2 U2). split; [assumption|]. right.
      now exists r1, r2.
  - intros r -> Hr. now rewrite Hr.
  - intros e H. destruct get1 as [r1|e1]; [|left; congruence].
    right. destruct (usable r1) eqn:U1; [discriminate|].
    destruct get2 as [r2|e2].
    + destruct (usable r2) eqn:U2; [discriminate|]. right.
      exists r1, r2. injection H as <-. auto.
    + left. exists r1. injection H as <-. auto.
Qed.

(** ** Text of a field *)

Lemma dropwhile_head_false (p : N -> bool) (s : list N) :
  match dropwhile p s with [] => True | c :: _ => p c = false end.
Proof.
  induction s as [|c s IH]; simpl; [exact I|].
  destruct (p c) eqn:E; [exact IH|exact E].
Qed.

Lemma strip_strip (s : list N) : strip (strip s) = strip s.
Proof.
  apply strip_fixed.
  - unfold strip.
    destruct (dropwhile_spaces (rev (dropwhile isspace s))) as (l & Hl & _).
    set (y := dropwhile isspace s) in *. set (z := dropwhile isspace (rev y)) in *.
    assert (Hy : y = rev z ++ rev l).
    { rewrite <- rev_app_distr, <- Hl. symmetry. apply rev_involutive. }
    pose proof (dropwhile_head_false isspace s) as Hh. fold y in Hh.
    destruct (rev z) as [|c r] eqn:E; [exact I|].
    rewrite Hy in Hh. exact Hh.
  - unfold strip. rewrite rev_involutive. apply dropwhile_head_false.
Qed.

(** X15. The text [str_or_default] returns for a field has no white space
    at either end, and it is the default when the row lacks the field or
    holds a null in it. *)
Theorem str_or_default_stripped (row : series) (col : list N) :
  strip (str_or_default row col (u "")) = str_or_default row col (u "")
  /\ (forall default, field_present row col = false ->
        str_or_default row col default = default)
  /\ (forall default, field_present row col = true ->
        str_or_default row col default = strip (py_str (row_get row col PyNone))).
Proof.
  split; [|split].
  - unfold str_or_default.
    destruct (col_in row col && notna (row_get row col PyNone)); [apply strip_strip|reflexivity].
  - intros default H. unfold str_or_default. unfold field_present in H. now rewrite H.
  - intros default H. unfold str_or_default. unfold field_present in H. now rewrite H.
Qed.

Lemma str_or_default_stripped_witness :
  str_or_default [(u "PLACA", NaN)] (u "PLACA") (u "-") = u "-".
Proof.
  apply (proj1 (proj2 (str_or_default_stripped [(u "PLACA", NaN)] (u "PLACA")))).
  reflexivity.
Defined.

(** ** The number in DEMANDA *)

Lemma take_digits_spec (s : list N) :
  exists post, s = take_digits s ++ post
               /\ forallb isdigit (take_digits s) = true
               /\ match post with [] => True | c :: _ => isdigit c = false end.
Proof.
  induction s as [|c s (post & E & Hd & Hp)].
  - now exists [].
  - cbn [take_digits]. destruct (isdigit c) eqn:Ec.
    + exists post. cbn [app forallb]. rewrite Ec, Hd. repeat split; auto. now f_equal.
    + exists (c :: s). repeat split; auto.
Qed.

(** X16. The search for [(\d+)] finds the leftmost run of digits and takes
    all of it: the text is a digit-free part, then the run, which is not
    empty, then a rest that does not start with a digit.  It finds nothing
    only in a text without digits, and then the whole text stands for the
    number. *)
Theorem search_digits_spec (s : list N) :
  match search_digits s with
  | Some m =>
    demanda_num s = m
    /\ exists pre post,
         s = pre ++ m ++ post
         /\ forallb (fun c => negb (isdigit c)) pre = true
         /\ m <> [] /\ forallb isdigit m = true
         /\ match post with [] => True | c :: _ => isdigit c = false end
  | None => demanda_num s = s /\ forallb (fun c => negb (isdigit c)) s = true
  end.
Proof.
  unfold demanda_num. induction s as [|c s IH]; [now split|].
  cbn [search_digits]. destruct (isdigit c) eqn:Ec.
  - split; [reflexivity|]. destruct (take_digits_spec s) as (post & E & Hd & Hp).
    exists [], post. cbn [app forallb]. rewrite Ec, Hd.
    repeat split; auto; [now f_equal|discriminate].
  - destruct (search_digits s) as [m|].
    + destruct IH as [_ (pre & post & E & Hpre & Hne & Hd & Hp)].
      split; [reflexivity|]. exists (c :: pre), post. cbn [app forallb]. rewrite Ec, Hpre.
      repeat split; auto. now f_equal.
    + destruct IH as [_ IH]. split; [reflexivity|]. cbn [forallb]. now rewrite Ec, IH.
Qed.

(** ** Names in the archive *)










(** Rows kept by a filter keep their index labels apart. *)
Lemma index_labels_kept {A : Type} (keep : Z * A -> bool) (rows : list (Z * A)) :
  NoDup (map fst rows) -> NoDup (map fst (filter keep rows)).
Proof.
  induction rows as [|[i row] rows IH]; cbn [map filter fst]; intros Hnd; [constructor|].
  apply NoDup_cons_iff in Hnd as [Hi Hnd].
  destruct (keep (i, row)); [|now apply IH].
  cbn [map fst]. apply NoDup_cons; [|now apply IH].
  intros Hin. apply Hi. apply in_map_iff in Hin as ([i' row'] & E & Hin).
  apply filter_In in Hin as [Hin _]. cbn [fst] in E. subst i'.
  apply in_map_iff. now exists (i, row').
Qed.




(** ** The rows of a batch *)

Lemma key_selected_with_key (selected : list (list N)) (row : series) :
  key_selected selected (with_key row) = true <-> In (_make_key row) selected.
Proof.
  unfold key_selected, with_key, row_get. rewrite dict_get_set. cbn [py_str].
  rewrite existsb_exists. split.
  - intros (x & Hx & E). apply ustring_eqb_eq in E. now subst.
  - intros H. exists (_make_key row). split; [exact H|apply ustring_eqb_refl].
Qed.

Lemma df_ok_rows_all (df : DataFrame) (ir : Z * series) :
  In ir (df_ok_rows df [])
  <-> exists r, In r (records df)
                /\ is_finalizado (row_series df (snd r)) = true
                /\ ir = (fst r, with_key (row_series df (snd r))).
Proof.
  unfold df_ok_rows. rewrite in_map_iff. split.
  - intros ([i row] & <- & H). apply filter_In in H as [H F].
    apply in_map_iff in H as (r & E & H). injection E as <- <-.
    exists r. now repeat split.
  - intros (r & H & F & ->). exists (fst r, row_series df (snd r)). split; [reflexivity|].
    apply filter_In. split; [|exact F]. apply in_map_iff. now exists r.
Qed.

Lemma df_ok_rows_filter (df : DataFrame) (selected : list (list N)) :
  df_ok_rows df selected
  = match selected with
    | [] => df_ok_rows df []
    | _ => filter (fun r => key_selected selected (snd r)) (df_ok_rows df [])
    end.
Proof. now destruct selected. Qed.

Lemma df_ok_rows_index (df : DataFrame) (selected : list (list N)) :
  NoDup (map fst (records df)) -> NoDup (map fst (df_ok_rows df selected)).
Proof.
  intros H. rewrite df_ok_rows_filter.
  assert (H0 : NoDup (map fst (df_ok_rows df []))).
  { unfold df_ok_rows. rewrite map_map. cbn [fst].
    set (rows := map _ (records df)).
    assert (E : map fst rows = map fst (records df)).
    { unfold rows. rewrite map_map. reflexivity. }
    rewrite <- E in H. now apply index_labels_kept. }
  destruct selected; [exact H0|]. now apply index_labels_kept.
Qed.

(** X18. The rows a batch is generated from are the records of the cached
    table whose status is FINALIZADO, each with its key added, and, when
    keys are selected, only those whose key is among them; an empty
    selection keeps them all.  They keep the index labels of the table, so
    the labels of a batch are distinct when those of the table are. *)
Theorem df_ok_rows_spec (df : DataFrame) (selected : list (list N)) :
  (forall ir, In ir (df_ok_rows df selected)
     <-> exists r, In r (records df)
                   /\ is_finalizado (row_series df (snd r)) = true
                   /\ (selected = [] \/ In (_make_key (row_series df (snd r))) selected)
                   /\ ir = (fst r, with_key (row_series df (snd r))))
  /\ (NoDup (map fst (records df)) -> NoDup (map fst (df_ok_rows df selected))).
Proof.
  split; [|apply df_ok_rows_index].
  intros ir. rewrite df_ok_rows_filter. destruct selected as [|k sel].
  - rewrite df_ok_rows_all. split.
    + intros (r & H & F & E). exists r. repeat split; auto.
    + intros (r & H & F & _ & E). exists r. now repeat split.
  - rewrite filter_In, df_ok_rows_all. split.
    + intros [(r & H & F & E) S]. exists r. repeat split; auto. right.
      subst ir. cbn [snd] in S. now apply key_selected_with_key.
    + intros (r & H & F & [S|S] & E); [discriminate S|]. split.
      * exists r. now repeat split.
      * subst ir. cbn [snd]. now apply key_selected_with_key.
Qed.

Lemma df_ok_rows_spec_witness :
  NoDup (map fst (df_ok_rows batch_table [])).
Proof.
  apply (proj2 (df_ok_rows_spec batch_table [])).
  vm_compute. repeat constructor; simpl; intuition discriminate.
Defined.

(** ** The selection box *)

Lemma dict_set_keys {A : Type} (d : list (list N * A)) (k : list N) (v : A) :
  map fst (dict_set d k v)
  = if existsb (ustring_eqb k) (map fst d) then map fst d else map fst d ++ [k].
Proof.
  induction d as [|[k' v'] d IH]; [reflexivity|]. cbn [dict_set map fst existsb].
  destruct (ustring_eqb k' k) eqn:E.
  - apply ustring_eqb_eq in E. subst k'. now rewrite ustring_eqb_refl.
  - assert (E' : ustring_eqb k k' = false).
    { apply ustring_eqb_neq. apply ustring_eqb_neq in E. congruence. }
    rewrite E'. cbn [orb map fst]. rewrite IH.
    now destruct (existsb (ustring_eqb k) (map fst d)).
Qed.

Lemma dict_get_set_other {A : Type} (d : list (list N * A)) (k k' : list N) (v x : A) :
  k <> k' -> dict_get (dict_set d k v) k' x = dict_get d k' x.
Proof.
  intros Hk. induction d as [|[k0 v0] d IH]; cbn [dict_set dict_get].
  - apply ustring_eqb_neq in Hk. now rewrite Hk.
  - destruct (ustring_eqb k0 k) eqn:E.
    + apply ustring_eqb_eq in E. subst k0. cbn [dict_get].
      apply ustring_eqb_neq in Hk. now rewrite Hk.
    + cbn [dict_get]. now rewrite IH.
Qed.

Lemma labels_keys_from (rows : list series) (d : list (list N * list N))
    (seen : list (list N)) :
  (forall x, In x seen <-> In x (map fst d)) ->
  map fst (fold_left (fun d r => dict_set d (_make_key r) (label_of r)) rows d)
  = map fst d ++ drop_masked (duplicated seen (map _make_key rows)) (map _make_key rows).
Proof.
  revert d seen. induction rows as [|r rows IH]; intros d seen Hs.
  - cbn. now rewrite app_nil_r.
  - cbn [fold_left map duplicated drop_masked].
    rewrite (IH (dict_set d (_make_key r) (label_of r)) (_make_key r :: seen)).
    + rewrite dict_set_keys.
      destruct (existsb (ustring_eqb (_make_key r)) seen) eqn:E.
      * apply in_seen in E. apply Hs in E. apply in_seen in E. now rewrite E.
      * assert (E' : existsb (ustring_eqb (_make_key r)) (map fst d) = false).
        { destruct (existsb (ustring_eqb (_make_key r)) (map fst d)) eqn:E2; [|reflexivity].
          apply in_seen in E2. apply Hs in E2. apply in_seen in E2. congruence. }
        rewrite E'. now rewrite <- app_assoc.
    + intros x. rewrite dict_set_keys. cbn [In].
      destruct (existsb (ustring_eqb (_make_key r)) (map fst d)) eqn:E.
      * apply in_seen in E. rewrite Hs. split; [intros [<-|H]; assumption|now right].
      * rewrite in_app_iff, Hs. cbn [In]. intuition.
Qed.

Lemma dedup_complete (cols seen : list (list N)) (x : list N) :
  In x cols -> ~ In x seen -> In x (drop_masked (duplicated seen cols) cols).
Proof.
  revert seen. induction cols as [|c cols IH]; intros seen Hin Hs; [contradiction|].
  cbn [duplicated drop_masked].
  destruct (list_eq_dec N.eq_dec c x) as [->|Hc].
  - destruct (existsb (ustring_eqb x) seen) eqn:E; [|now left].
    apply in_seen in E. contradiction.
  - assert (H : In x (drop_masked (duplicated (c :: seen) cols) cols)).
    { apply IH; [now destruct Hin|]. intros [H|H]; contradiction. }
    destruct (existsb (ustring_eqb c) seen); [exact H|now right].
Qed.

Lemma labels_last_from (rows : list series) (d : list (list N * list N))
    (k x : list N) :
  (forall r, In r rows -> _make_key r <> k) ->
  dict_get (fold_left (fun d r => dict_set d (_make_key r) (label_of r)) rows d) k x
  = dict_get d k x.
Proof.
  revert d. induction rows as [|r rows IH]; intros d H; [reflexivity|].
  cbn [fold_left]. rewrite IH.
  - apply dict_get_set_other. apply H. now left.
  - intros r' Hr. apply H. now right.
Qed.

(** X19. The options of the selection box are the keys of the finished
    rows in the order of their first occurrence, each once; the label shown
    for a key is that of the last row that has it. *)
Theorem labels_spec (rows : list series) :
  map fst (labels rows)
  = drop_masked (duplicated [] (map _make_key rows)) (map _make_key rows)
  /\ NoDup (map fst (labels rows))
  /\ (forall k, In k (map fst (labels rows)) <-> exists r, In r rows /\ _make_key r = k)
  /\ (forall before r after x,
        rows = before ++ r :: after ->
        (forall r', In r' after -> _make_key r' <> _make_key r) ->
        dict_get (labels rows) (_make_key r) x = label_of r).
Proof.
  assert (K : map fst (labels rows)
              = drop_masked (duplicated [] (map _make_key rows)) (map _make_key rows)).
  { unfold labels. rewrite (labels_keys_from rows [] []); [reflexivity|]. now intros x. }
  split; [exact K|]. split; [|split].
  - rewrite K. apply dedup_fresh.
  - intros k. rewrite K. split.
    + intros H. apply drop_masked_in in H. apply in_map_iff in H as (r & E & H).
      now exists r.
    + intros (r & H & <-). apply dedup_complete; [|intros []].
      apply in_map_iff. now exists r.
  - intros before r after x -> Hafter. unfold labels. rewrite fold_left_app.
    cbn [fold_left]. rewrite labels_last_from; [apply dict_get_set|exact Hafter].
Qed.

(** ** The rows of a section *)

Lemma typeset_app (font : list N * Q) (a b : canvas) :
  typeset font (a ++ b) = typeset font a ++ typeset (font_after font a) b.
Proof.
  revert font. induction a as [|o a IH]; intros font; [reflexivity|].
  destruct o; cbn [app typeset font_after]; now rewrite IH.
Qed.

Lemma font_after_app (font : list N * Q) (a b : canvas) :
  font_after font (a ++ b) = font_after (font_after font a) b.
Proof.
  revert font. induction a as [|o a IH]; intros font; [reflexivity|].
  destruct o; cbn [app font_after]; now rewrite IH.
Qed.

Lemma baselines_app (a b : canvas) : baselines (a ++ b) = baselines a ++ baselines b.
Proof.
  induction a as [|o a IH]; [reflexivity|].
  destruct o; cbn [app baselines]; now rewrite IH.
Qed.

Lemma frames_app (a b : canvas) : frames (a ++ b) = frames a ++ frames b.
Proof.
  induction a as [|o a IH]; [reflexivity|].
  destruct o; cbn [app frames]; now rewrite IH.
Qed.

Lemma line_heights_app (a b : canvas) :
  line_heights (a ++ b) = line_heights a ++ line_heights b.
Proof.
  induction a as [|o a IH]; [reflexivity|].
  destruct o; cbn [app line_heights]; now rewrite IH.
Qed.

Lemma STEP_Y_pos : (0 < STEP_Y)%Q.
Proof. reflexivity. Qed.

Lemma cm_pos : (0 < cm)%Q.
Proof. reflexivity. Qed.

(** What the loop adds to the canvas. *)
Lemma draw_rows_ops (rows : list (list N * list N)) (c : canvas) (y : Q) :
  exists ops,
    fst (draw_rows c y rows) = c ++ ops
    /\ List.length ops = (4 * List.length rows)%nat
    /\ typeset bold12 ops
       = flat_map (fun p => [(bold12, fst p); (regular12, snd p)]) rows
    /\ font_after bold12 ops = bold12
    /\ round_rects ops = [] /\ frames ops = [] /\ line_heights ops = []
    /\ Forall (fun yy => snd (draw_rows c y rows) < yy /\ yy <= y)%Q (baselines ops)
    /\ (snd (draw_rows c y rows) == y - inject_Z (Z.of_nat (List.length rows)) * STEP_Y)%Q.
Proof.
  revert c y. induction rows as [|[rot val] rows IH]; intros c y.
  - exists []. cbn [draw_rows fst snd List.length Z.of_nat flat_map].
    rewrite app_nil_r. repeat split; try reflexivity; [constructor|].
    change (inject_Z 0) with 0%Q. ring.
  - cbn [draw_rows].
    match goal with |- context [draw_rows ?c4 (y - STEP_Y)%Q rows] =>
      destruct (IH c4 (y - STEP_Y)%Q) as (ops & E & L & T & F & R & Fr & Li & B & Y);
      set (r := draw_rows c4 (y - STEP_Y)%Q rows) in *
    end.
    assert (Hk : (0 <= inject_Z (Z.of_nat (List.length rows)) * STEP_Y)%Q).
    { apply Qmult_le_0_compat; [|apply Qlt_le_weak, STEP_Y_pos].
      change 0%Q with (inject_Z 0). rewrite <- Zle_Qle. lia. }
    pose proof STEP_Y_pos as Hs.
    exists ([DrawString COL_LABEL_X y rot; SetFont (u "Helvetica") 12;
             DrawString COL_VALUE_X y val; SetFont (u "Helvetica-Bold") 12] ++ ops).
    split; [|split; [|split; [|split; [|split; [|split; [|split; [|split]]]]]]].
    + rewrite E. unfold draw. now rewrite <- !app_assoc.
    + rewrite length_app, L. cbn [List.length]. lia.
    + cbn [flat_map app fst snd]. rewrite <- T. reflexivity.
    + exact F.
    + exact R.
    + exact Fr.
    + exact Li.
    + cbn [app baselines].
      assert (Hy : (snd r < y /\ y <= y)%Q).
      { split; [|apply Qle_refl]. rewrite Y. lra. }
      constructor; [exact Hy|]. constructor; [exact Hy|].
      apply (Forall_impl _ (P := fun yy => (snd r < yy /\ yy <= y - STEP_Y)%Q)); [|exact B].
      intros yy [H1 H2]. split; [exact H1|]. lra.
    + rewrite Y. cbn [List.length]. rewrite Nat2Z.inj_succ. unfold Z.succ.
      rewrite inject_Z_plus. change (inject_Z 1) with 1%Q. ring.
Qed.

(** X20. The loop that draws the rows of a section adds four operations
    for each row and nothing else.  When it starts in Helvetica-Bold 12 it
    draws every label in that font and every value in Helvetica 12, and it
    leaves Helvetica-Bold 12 in effect.  The base lines it draws on are at
    most the starting height and strictly above the height it ends at,
    which is one step lower for each row. *)
Theorem draw_rows_spec (rows : list (list N * list N)) (c : canvas) (y : Q) :
  (snd (draw_rows c y rows) == y - inject_Z (Z.of_nat (List.length rows)) * STEP_Y)%Q
  /\ exists ops,
       fst (draw_rows c y rows) = c ++ ops
       /\ List.length ops = (4 * List.length rows)%nat
       /\ typeset bold12 ops
          = flat_map (fun p => [(bold12, fst p); (regular12, snd p)]) rows
       /\ font_after bold12 ops = bold12
       /\ Forall (fun yy => snd (draw_rows c y rows) < yy /\ yy <= y)%Q (baselines ops).
Proof.
  destruct (draw_rows_ops rows c y) as (ops & E & L & T & F & _ & _ & _ & B & Y).
  split; [exact Y|]. exists ops. now repeat split.
Qed.

(** ** The sections *)

Ltac split_all := repeat match goal with |- _ /\ _ => split end.

Ltac canvas_obs :=
  unfold draw;
  rewrite ?round_rects_app, ?frames_app, ?line_heights_app, ?baselines_app;
  cbn [round_rects frames line_heights baselines app].

Lemma draw_header_ops (logo : logo_file) (c : canvas) (d : datetime) (pw ph : Q) :
  exists ops,
    draw_header logo c d pw ph = c ++ ops
    /\ baselines ops = [] /\ frames ops = [] /\ line_heights ops = [].
Proof.
  unfold draw_header, draw. destruct logo; rewrite <- !app_assoc; cbn [app];
    eexists; (split; [reflexivity|]); now split_all.
Qed.

Lemma draw_info_section_ops (c : canvas) (info : list (list N * list N)) (pw ph : Q) :
  exists ops,
    fst (draw_info_section c info pw ph) = c ++ ops
    /\ round_rects ops
       = [(MARGIN_L, ph - 6.1 * cm - info_section_height 6,
           pw - MARGIN_L - MARGIN_R, info_section_height 6)%Q]
    /\ frames ops = [] /\ line_heights ops = []
    /\ Forall (fun yy => ph - 6.1 * cm - info_section_height 6 < yy
                         /\ yy < ph - 6.1 * cm)%Q (baselines ops).
Proof.
  unfold draw_info_section.
  match goal with |- context [draw_rows ?c5 ?y0 (info_rows info)] =>
    destruct (draw_rows_ops (info_rows info) c5 y0)
      as (ops & E & _ & _ & _ & R & Fr & Li & B & Y);
    destruct (draw_rows c5 y0 (info_rows info)) as [c6 y6]
  end.
  cbn [fst snd] in *. subst c6.
  eexists. split; [unfold draw; rewrite <- !app_assoc; cbn [app]; reflexivity|].
  pose proof cm_pos as Hcm.
  change (inject_Z (Z.of_nat (List.length (info_rows info)))) with 6%Q in Y.
  cbn [round_rects frames line_heights baselines].
  rewrite R, Fr, Li. split_all; try reflexivity.
  constructor.
  - unfold info_section_height, GAP_AFTER_INFO_TITLE, STEP_Y.
    change (inject_Z 6) with 6%Q. split; lra.
  - eapply Forall_impl; [|exact B]. cbv beta. intros yy [H1 H2]. rewrite Y in H1.
    unfold info_section_height, GAP_AFTER_INFO_TITLE, STEP_Y in *.
    change (inject_Z 6) with 6%Q. split; lra.
Qed.

Lemma draw_products_section_ops (perr : list N -> option exn) (c c' : canvas)
    (prod : list (list N * list N)) (start_y pw : Q) :
  draw_products_section perr c prod start_y pw = Ok c' ->
  exists ops,
    c' = c ++ ops
    /\ round_rects ops
       = [(MARGIN_L, start_y - products_section_height,
           pw - MARGIN_L - MARGIN_R, products_section_height)%Q]
    /\ frames ops
       = [(COL_LABEL_X, start_y - products_section_height + 0.6 * cm + 0.2 * cm,
           pw - MARGIN_R - COL_LABEL_X, 5.0 * cm)%Q]
    /\ line_heights ops = [2.6 * cm - SIG_DELTA_DOWN; 2.6 * cm - SIG_DELTA_DOWN]%Q
    /\ Forall (fun yy => start_y - products_section_height < yy /\ yy < start_y)%Q
              (baselines ops).
Proof.
  unfold draw_products_section.
  match goal with |- context [draw_rows ?c5 ?y0 ?fields] =>
    destruct (draw_rows_ops fields c5 y0)
      as (ops & E & _ & _ & _ & R & Fr & Li & B & Y);
    destruct (draw_rows c5 y0 fields) as [c6 y6]
  end.
  cbn [fst snd] in *. subst c6.
  destruct (perr _) as [e|]; [discriminate|]. intros H. injection H as <-.
  eexists. split; [unfold draw; rewrite <- !app_assoc; cbn [app]; reflexivity|].
  pose proof cm_pos as Hcm.
  change (inject_Z (Z.of_nat (List.length _))) with 4%Q in Y.
  cbn [round_rects frames line_heights baselines].
  rewrite ?round_rects_app, ?frames_app, ?line_heights_app, ?baselines_app.
  cbn [round_rects frames line_heights baselines app].
  rewrite R, Fr, Li. cbn [app]. split_all; try reflexivity.
  constructor.
  - unfold products_section_height, GAP_AFTER_FAST_TITLE, STEP_Y. split; lra.
  - apply Forall_app. split.
    + eapply Forall_impl; [|exact B]. cbv beta. intros yy [H1 H2]. rewrite Y in H1.
      unfold products_section_height, GAP_AFTER_FAST_TITLE, STEP_Y in *. split; lra.
    + constructor; [|constructor]. rewrite Y.
      unfold products_section_height, GAP_AFTER_FAST_TITLE, STEP_Y. split; lra.
Qed.

(** X21. What a section draws beyond the canvas it is given holds one
    rounded rectangle, and the base line of every title, label and value
    of the section lies strictly between the bottom and the top of that
    rectangle, wherever the section starts; the paragraph frame of the
    products section lies within the rectangle too. *)
Theorem section_contents :
  (forall c info pw ph,
     exists ops r,
       fst (draw_info_section c info pw ph) = c ++ ops
       /\ round_rects ops = [r]
       /\ Forall (fun yy => rect_bottom r < yy /\ yy < rect_top r)%Q (baselines ops))
  /\ (forall perr c prod start_y pw c',
        draw_products_section perr c prod start_y pw = Ok c' ->
        exists ops r f,
          c' = c ++ ops
          /\ round_rects ops = [r] /\ (rect_top r == start_y)%Q
          /\ Forall (fun yy => rect_bottom r < yy /\ yy < rect_top r)%Q (baselines ops)
          /\ frames ops = [f] /\ rect_within f r).
Proof.
  split.
  - intros c info pw ph.
    destruct (draw_info_section_ops c info pw ph) as (ops & E & R & _ & _ & B).
    exists ops. eexists. split; [exact E|]. split; [exact R|].
    eapply Forall_impl; [|exact B]. cbv beta.
    unfold rect_top, rect_bottom, rect_height. cbn [fst snd].
    intros yy [H1 H2]. split; lra.
  - intros perr c prod start_y pw c' H.
    destruct (draw_products_section_ops perr c c' prod start_y pw H)
      as (ops & E & R & Fr & _ & B).
    exists ops. do 2 eexists. split; [exact E|]. split; [exact R|].
    unfold rect_within, rect_top, rect_right, rect_left, rect_width, rect_bottom, rect_height.
    cbn [fst snd]. split; [ring|]. split; [|split; [exact Fr|]].
    + eapply Forall_impl; [|exact B]. cbv beta. intros yy [H1 H2]. split; lra.
    + pose proof cm_pos as Hcm. cbn [fst snd].
      unfold products_section_height, GAP_AFTER_FAST_TITLE, STEP_Y, COL_LABEL_X, MARGIN_L,
        MARGIN_R.
      split_all; lra.
Qed.

Lemma section_contents_witness :
  exists ops r f,
    draw_products_section sample_paragraph_error [SetLineWidth 1] []
                          (20 * cm)%Q (fst A4) = Ok ([SetLineWidth 1] ++ ops)
    /\ round_rects ops = [r] /\ frames ops = [f] /\ rect_within f r.
Proof.
  destruct (draw_products_section sample_paragraph_error [SetLineWidth 1] []
                                  (20 * cm)%Q (fst A4)) as [c'|e] eqn:E;
    [|vm_compute in E; discriminate E].
  destruct (proj2 section_contents sample_paragraph_error [SetLineWidth 1] []
                  (20 * cm)%Q (fst A4) c' E) as (ops & r & f & -> & R & _ & _ & Fr & W).
  exists ops, r, f. now split_all.
Defined.

(** ** The page *)

Ltac q_closed :=
  match goal with
  | |- (_ <= _)%Q => apply Qle_bool_iff; vm_compute; reflexivity
  | |- (_ < _)%Q => apply Qlt_alt; vm_compute; reflexivity
  end.

(** X22. On the page of a document that renders there are three rounded
    rectangles, the header box, the info section and the products section,
    each within the A4 page and each strictly below the one before; the
    paragraph frame lies within the products section, and the two
    signature lines are on the page, strictly below the products
    section. *)
Theorem page_layout (perr : list N -> option exn) (logo : logo_file) (row : series)
    (d : datetime) (c : canvas) :
  gerar_pdf_row perr logo row d = Ok c ->
  exists header info products frame sig_y,
    round_rects c = [header; info; products]
    /\ rect_within header page /\ rect_within info page /\ rect_within products page
    /\ (rect_top info < rect_bottom header)%Q
    /\ (rect_top products < rect_bottom info)%Q
    /\ frames c = [frame] /\ rect_within frame products
    /\ line_heights c = [sig_y; sig_y]
    /\ (0 < sig_y)%Q /\ (sig_y < rect_bottom products)%Q.
Proof.
  unfold gerar_pdf_row, A4. cbv iota beta.
  set (pw := (210 * mm)%Q). set (ph := (297 * mm)%Q).
  destruct (draw_header_ops logo [] d pw ph) as (oh & Eh & Bh & Fh & Lh).
  pose proof (draw_header_rects logo [] d pw ph) as Rh.
  set (ch := draw_header logo [] d pw ph) in *.
  match goal with |- context [draw_info_section ch ?i0 pw ph] =>
    destruct (draw_info_section_ops ch i0 pw ph) as (oi & Ei & Ri & Fi & Li & Bi);
    pose proof (draw_info_section_next ch i0 pw ph) as Ni;
    destruct (draw_info_section ch i0 pw ph) as [ci next_y]
  end.
  cbn [fst snd] in Ei, Ni. subst next_y.
  unfold bind.
  match goal with |- context [draw_products_section perr ci ?p0 ?y0 pw] =>
    destruct (draw_products_section perr ci p0 y0 pw) as [cp|e] eqn:Ep;
    [apply draw_products_section_ops in Ep as (op' & Ep & Rp & Fp & Lp & Bp)|discriminate]
  end.
  intros H. injection H as <-. subst cp ci. rewrite Eh. cbn [app round_rects] in Rh.
  rewrite Eh in Rh. cbn [app] in Rh.
  do 5 eexists.
  split; [|split; [|split; [|split; [|split; [|split; [|split; [|split; [|split; [|split]]]]]]]]].
  - unfold draw. cbn [app]. rewrite !round_rects_app. rewrite Rh, Ri, Rp.
    cbn [round_rects app]. reflexivity.
  - unfold rect_within, page, rect_top, rect_right, rect_left, rect_width, rect_bottom,
      rect_height. cbn [fst snd]. split_all; q_closed.
  - unfold rect_within, page, rect_top, rect_right, rect_left, rect_width, rect_bottom,
      rect_height. cbn [fst snd]. split_all; q_closed.
  - unfold rect_within, page, rect_top, rect_right, rect_left, rect_width, rect_bottom,
      rect_height. cbn [fst snd]. split_all; q_closed.
  - unfold rect_top, rect_bottom, rect_height. cbn [fst snd]. q_closed.
  - unfold rect_top, rect_bottom, rect_height. cbn [fst snd]. q_closed.
  - unfold draw. cbn [app]. rewrite !frames_app. rewrite Fh, Fi, Fp.
    cbn [frames app]. reflexivity.
  - unfold rect_within, rect_top, rect_right, rect_left, rect_width, rect_bottom,
      rect_height. cbn [fst snd]. split_all; q_closed.
  - unfold draw. cbn [app]. rewrite !line_heights_app. rewrite Lh, Li, Lp.
    cbn [line_heights app]. reflexivity.
  - q_closed.
  - unfold rect_bottom. cbn [fst snd]. q_closed.
Qed.

Lemma page_layout_witness :
  exists c header info products,
    sample_gerar sample_row_finished sample_date = Ok c
    /\ round_rects c = [header; info; products]
    /\ rect_within header page /\ rect_within info page /\ rect_within products page.
Proof.
  destruct (sample_gerar sample_row_finished sample_date) as [c|e] eqn:E;
    [|vm_compute in E; discriminate E].
  destruct (page_layout sample_paragraph_error LogoMissing sample_row_finished sample_date c E)
    as (header & info & products & frame & sig_y & R & W1 & W2 & W3 & _).
  exists c, header, info, products. now split_all.
Defined.

(** ** What an archive entry depends on *)

(** X23. The entry a row leaves in the archive depends only on the index
    label of the row and on the text of nine of its fields, DEMANDA and
    the eight the composer draws: two rows with the same label that agree
    on these leave the same entry, whatever else they hold. *)
Theorem archive_entry_fields (perr : list N -> option exn) (logo : logo_file)
    (d : datetime) (zf : zip_archive) (i : Z) (r1 r2 : series) :
  (forall col, In col (u "DEMANDA" :: DISPLAY_FIELDS) ->
     str_or_default r1 col (u "") = str_or_default r2 col (u "")) ->
  gerar_one (gerar_pdf_row perr logo) d zf (i, r1)
  = gerar_one (gerar_pdf_row perr logo) d zf (i, r2).
Proof.
  intros H. unfold gerar_one.
  rewrite (gerar_pdf_row_display_fields perr logo r1 r2 d).
  - unfold pdf_name. rewrite (H (u "DEMANDA")), (H (u "ARMADOR")); [reflexivity| |].
    + right. unfold DISPLAY_FIELDS. simpl. tauto.
    + now left.
  - intros col Hc. apply H. now right.
Qed.

Lemma archive_entry_fields_witness :
  gerar_one sample_gerar sample_date [] (0%Z, sample_row_finished)
  = gerar_one sample_gerar sample_date [] (0%Z, sample_row_annotated)
  /\ sample_row_finished <> sample_row_annotated.
Proof.
  split; [|intros H; vm_compute in H; discriminate H].
  apply (archive_entry_fields sample_paragraph_error LogoMissing sample_date [] 0%Z
           sample_row_finished sample_row_annotated).
  intros col Hc. unfold DISPLAY_FIELDS in Hc. cbn [In] in Hc.
  repeat (destruct Hc as [<-|Hc]; [vm_compute; reflexivity|]). contradiction.
Defined.

(** ** The header date *)

Lemma strip_head (s : list N) :
  match strip s with [] => True | c :: _ => isspace c = false end.
Proof.
  unfold strip.
  destruct (dropwhile_spaces (rev (dropwhile isspace s))) as (l & Hl & _).
  set (y := dropwhile isspace s) in *. set (z := dropwhile isspace (rev y)) in *.
  assert (Hy : y = rev z ++ rev l).
  { rewrite <- rev_app_distr, <- Hl. symmetry. apply rev_involutive. }
  pose proof (dropwhile_head_false isspace s) as Hh. fold y in Hh.
  destruct (rev z) as [|c r] eqn:E; [exact I|].
  rewrite Hy in Hh. exact Hh.
Qed.

Lemma one_of_in (p : N -> bool) (s : list N) (a : N) (r : list N) :
  In (a, r) (one_of p s) -> s = a :: r /\ p a = true.
Proof.
  destruct s as [|c s]; [intros []|]. cbn [one_of].
  destruct (p c) eqn:E; [|intros []].
  intros [H|[]]. injection H as <- <-. now split.
Qed.

Lemma two_chars_in (p1 p2 : N -> bool) (s : list N) (v : Z) (r : list N) :
  In (v, r) (two_chars p1 p2 s) ->
  exists a b, s = a :: b :: r /\ p1 a = true /\ p2 b = true
              /\ v = int_of_digits [a; b].
Proof.
  unfold two_chars. rewrite in_flat_map. intros ([a r1] & H1 & H).
  apply in_map_iff in H as ([b r2] & E & H2). cbn [fst snd] in *.
  injection E as <- <-.
  apply one_of_in in H1 as [-> P1]. apply one_of_in in H2 as [-> P2].
  now exists a, b.
Qed.

Lemma one_char_in (p : N -> bool) (s : list N) (v : Z) (r : list N) :
  In (v, r) (one_char p s) ->
  exists a, s = a :: r /\ p a = true /\ v = int_of_digits [a].
Proof.
  unfold one_char. intros H. apply in_map_iff in H as ([a r1] & E & H1).
  cbn [fst snd] in E. injection E as <- <-. apply one_of_in in H1 as [-> P1].
  now exists a.
Qed.

Lemma literal_in (c : N) (s r : list N) : In r (literal c s) -> s = c :: r.
Proof.
  unfold literal. intros H. apply in_map_iff in H as ([a r1] & E & H1).
  cbn [snd] in E. subst r1. apply one_of_in in H1 as [-> P]. apply N.eqb_eq in P.
  now subst.
Qed.

Lemma between_cases (lo hi c : N) : between lo hi c = true -> (lo <= c <= hi)%N.
Proof.
  unfold between. intros H. apply andb_prop in H as [H1 H2].
  apply N.leb_le in H1. apply N.leb_le in H2. now split.
Qed.

Lemma isdigit_cases (c : N) : isdigit c = true -> (48 <= c <= 57)%N.
Proof.
  unfold isdigit. intros H. apply andb_prop in H as [H1 H2].
  apply N.leb_le in H1. apply N.leb_le in H2. now split.
Qed.

Ltac class_cases :=
  repeat match goal with
  | H : N.eqb _ _ = true |- _ => apply N.eqb_eq in H; subst
  | H : between _ _ _ = true |- _ => apply between_cases in H
  | H : isdigit _ = true |- _ => apply isdigit_cases in H
  end.

Ltac enum_char c :=
  let H := fresh in
  assert (H : (c = 48 \/ c = 49 \/ c = 50 \/ c = 51 \/ c = 52 \/ c = 53 \/ c = 54
               \/ c = 55 \/ c = 56 \/ c = 57)%N) by lia;
  repeat (destruct H as [H|H]; [subst c|]); try subst c.

Ltac field_text :=
  first [ left; reflexivity
        | right; left; reflexivity
        | right; right; reflexivity
        | right; reflexivity ].

Lemma match_day_in (s : list N) (v : Z) (r : list N) :
  In (v, r) (match_day s) ->
  exists D, s = D ++ r /\ (1 <= v <= 31)%Z
            /\ (D = str_of_Z v \/ D = pad2 v \/ D = 32%N :: str_of_Z v).
Proof.
  unfold match_day. rewrite !in_app_iff. intros [H|[H|[H|[H|H]]]].
  - apply two_chars_in in H as (a & b & -> & P1 & P2 & ->). class_cases.
    enum_char b; try lia; eexists [_; _]; (split; [reflexivity|]);
      (split; [vm_compute; split; discriminate|field_text]).
  - apply two_chars_in in H as (a & b & -> & P1 & P2 & ->). class_cases.
    enum_char a; try lia; enum_char b; try lia; eexists [_; _]; (split; [reflexivity|]);
      (split; [vm_compute; split; discriminate|field_text]).
  - apply two_chars_in in H as (a & b & -> & P1 & P2 & ->). class_cases.
    enum_char b; try lia; eexists [_; _]; (split; [reflexivity|]);
      (split; [vm_compute; split; discriminate|field_text]).
  - apply one_char_in in H as (a & -> & P1 & ->). class_cases.
    enum_char a; try lia; eexists [_]; (split; [reflexivity|]);
      (split; [vm_compute; split; discriminate|field_text]).
  - apply in_flat_map in H as (r1 & H1 & H). apply literal_in in H1 as ->.
    apply one_char_in in H as (a & -> & P1 & ->). class_cases.
    enum_char a; try lia; eexists [_; _]; (split; [reflexivity|]);
      (split; [vm_compute; split; discriminate|field_text]).
Qed.

Lemma match_month_in (s : list N) (v : Z) (r : list N) :
  In (v, r) (match_month s) ->
  exists M, s = M ++ r /\ (1 <= v <= 12)%Z /\ (M = str_of_Z v \/ M = pad2 v).
Proof.
  unfold match_month. rewrite !in_app_iff. intros [H|[H|H]].
  - apply two_chars_in in H as (a & b & -> & P1 & P2 & ->). class_cases.
    enum_char b; try lia; eexists [_; _]; (split; [reflexivity|]);
      (split; [vm_compute; split; discriminate|field_text]).
  - apply two_chars_in in H as (a & b & -> & P1 & P2 & ->). class_cases.
    enum_char b; try lia; eexists [_; _]; (split; [reflexivity|]);
      (split; [vm_compute; split; discriminate|field_text]).
  - apply one_char_in in H as (a & -> & P1 & ->). class_cases.
    enum_char a; try lia; eexists [_]; (split; [reflexivity|]);
      (split; [vm_compute; split; discriminate|field_text]).
Qed.

Lemma check_pad4_range : forallb check_pad4 (seq 0 (100 * 100)) = true.
Proof. vm_compute. reflexivity. Qed.

Lemma pad4_digits (y : Z) :
  (0 <= y <= 9999)%Z ->
  exists a b c d,
    pad4 y = [a; b; c; d]
    /\ isdigit a = true /\ isdigit b = true /\ isdigit c = true /\ isdigit d = true
    /\ int_of_digits [a; b; c; d] = y.
Proof.
  intros Hy. pose proof check_pad4_range as H. rewrite forallb_forall in H.
  specialize (H (Z.to_nat y)). unfold check_pad4 in H. rewrite Z2Nat.id in H by lia.
  cbv zeta in H.
  destruct (pad4 y) as [|a [|b [|c [|d [|e r]]]]];
    try (assert (F : false = true) by (apply H; apply in_seq; lia); discriminate F).
  assert (T : isdigit a && isdigit b && isdigit c && isdigit d
              && (int_of_digits [a; b; c; d] =? y)%Z = true)
    by (apply H; apply in_seq; lia).
  apply andb_prop in T as [T T5]. apply andb_prop in T as [T T4].
  apply andb_prop in T as [T T3]. apply andb_prop in T as [T1 T2].
  apply Z.eqb_eq in T5. now exists a, b, c, d.
Qed.

Lemma int_of_digits4 (a b c d : N) :
  int_of_digits [a; b; c; d]
  = (1000 * (Z.of_N a - 48) + 100 * (Z.of_N b - 48) + 10 * (Z.of_N c - 48)
     + (Z.of_N d - 48))%Z.
Proof. unfold int_of_digits. cbn [fold_left]. lia. Qed.

Lemma pad4_year (y : Z) : (1000 <= y <= 9999)%Z -> str_of_Z y = pad4 y.
Proof.
  intros Hy.
  destruct (pad4_digits y) as (a & b & c & d & E & Pa & Pb & Pc & Pd & Ev); [lia|].
  rewrite int_of_digits4 in Ev. apply isdigit_cases in Pa, Pb, Pc, Pd.
  unfold pad4 in *. destruct (4 - List.length (str_of_Z y))%nat; [reflexivity|].
  cbn [repeat app] in E. injection E as <- _. lia.
Qed.

Lemma match_year_pad4 (y : Z) (r : list N) :
  (0 <= y <= 9999)%Z -> match_year (pad4 y ++ r) = [(y, r)].
Proof.
  intros Hy. destruct (pad4_digits y Hy) as (a & b & c & d & -> & Ha & Hb & Hc & Hd & E).
  cbn [app match_year]. now rewrite Ha, Hb, Hc, Hd, E.
Qed.

Lemma match_year_in (s : list N) (v : Z) (r : list N) :
  In (v, r) (match_year s) -> s = pad4 v ++ r /\ (0 <= v <= 9999)%Z.
Proof.
  destruct s as [|a [|b [|c [|d rest]]]]; try (intros []).
  cbn [match_year].
  destruct (isdigit a) eqn:Ha; [|intros []]. destruct (isdigit b) eqn:Hb; [|intros []].
  destruct (isdigit c) eqn:Hc; [|intros []]. destruct (isdigit d) eqn:Hd; [|intros []].
  cbn [andb]. intros [H|[]]. injection H as <- <-.
  pose proof (int_of_digits4 a b c d) as Ev.
  pose proof Ha as Ha'. pose proof Hb as Hb'. pose proof Hc as Hc'. pose proof Hd as Hd'.
  apply isdigit_cases in Ha', Hb', Hc', Hd'.
  assert (Hv : (0 <= int_of_digits [a; b; c; d] <= 9999)%Z) by lia.
  split; [|exact Hv].
  destruct (pad4_digits _ Hv) as (a' & b' & c' & d' & -> & Pa & Pb & Pc & Pd & E).
  rewrite (int_of_digits4 a' b' c' d'), Ev in E.
  apply isdigit_cases in Pa, Pb, Pc, Pd.
  assert (a' = a /\ b' = b /\ c' = c /\ d' = d) as (-> & -> & -> & ->) by lia.
  reflexivity.
Qed.

Ltac enum_Z v lo n :=
  let H := fresh in
  assert (H : In v (map Z.of_nat (seq lo n)))
    by (apply in_map_iff; exists (Z.to_nat v); split; [lia|apply in_seq; lia]);
  cbn [seq map In] in H;
  repeat (destruct H as [H|H]; [subst v|]); [..|contradiction].

Lemma day_slash (v : Z) (D rest : list N) :
  (1 <= v <= 31)%Z -> D = str_of_Z v \/ D = pad2 v ->
  then_slash match_day (D ++ 47%N :: rest) = [(v, rest)].
Proof.
  intros Hv HD. enum_Z v 1%nat 31%nat; destruct HD as [->| ->]; vm_compute; reflexivity.
Qed.

Lemma month_slash (v : Z) (M rest : list N) :
  (1 <= v <= 12)%Z -> M = str_of_Z v \/ M = pad2 v ->
  then_slash match_month (M ++ 47%N :: rest) = [(v, rest)].
Proof.
  intros Hv HM. enum_Z v 1%nat 12%nat; destruct HM as [->| ->]; vm_compute; reflexivity.
Qed.

Lemma days_in_month_le (y m : Z) : (1 <= m <= 12)%Z -> (days_in_month y m <= 31)%Z.
Proof.
  intros Hm. unfold days_in_month. destruct ((m =? 2)%Z && is_leap y); [lia|].
  enum_Z m 1%nat 12%nat; vm_compute; discriminate.
Qed.

Lemma valid_date_ranges (d : datetime) :
  valid_date d = true ->
  (1 <= year d <= 9999 /\ 1 <= month d <= 12 /\ 1 <= day d <= 31)%Z.
Proof.
  unfold valid_date, date_exists. intros H.
  apply andb_prop in H as [H H6]. apply andb_prop in H as [H H5].
  apply andb_prop in H as [H H4]. apply andb_prop in H as [H H3].
  apply andb_prop in H as [H1 H2].
  apply Z.leb_le in H1, H2, H3, H4, H5, H6.
  pose proof (days_in_month_le (year d) (month d)). lia.
Qed.

(** The texts that are read as the date [d]. *)
Lemma parse_accepts (s : list N) (d : datetime) (D M : list N) :
  valid_date d = true ->
  strip s = D ++ u "/" ++ M ++ u "/" ++ pad4 (year d) ->
  D = str_of_Z (day d) \/ D = pad2 (day d) ->
  M = str_of_Z (month d) \/ M = pad2 (month d) ->
  parse_data_ptbr s = Some d.
Proof.
  intros Hv E HD HM. destruct (valid_date_ranges d Hv) as (Hy & Hm & Hd).
  unfold parse_data_ptbr, strptime_dmY, match_dmY. rewrite E.
  change (u "/") with [47%N]. cbn [app].
  rewrite (day_slash (day d) D _ Hd HD). cbn [flat_map fst snd app].
  rewrite (month_slash (month d) M _ Hm HM). cbn [flat_map fst snd app].
  rewrite <- (app_nil_r (pad4 (year d))), match_year_pad4 by lia.
  cbn [map app fst snd]. unfold valid_date in Hv. rewrite Hv. now destruct d.
Qed.

(** X24. On a text of code points below U+0400, the date box accepts
    exactly, between white space, a day and a month of one or two digits,
    the first a zero when there are two and the number is below ten, and a
    year of four digits, separated by slashes and naming a date that
    exists; it reads that date. *)
Theorem parse_data_ptbr_spec (s : list N) (d : datetime) :
  in_tables s ->
  (parse_data_ptbr s = Some d
   <-> valid_date d = true
       /\ exists D M,
            strip s = D ++ u "/" ++ M ++ u "/" ++ pad4 (year d)
            /\ (D = str_of_Z (day d) \/ D = pad2 (day d))
            /\ (M = str_of_Z (month d) \/ M = pad2 (month d))).
Proof.
  intros _. split.
  - unfold parse_data_ptbr, strptime_dmY. pose proof (strip_head s) as Hh.
    destruct (match_dmY (strip s)) as [|[[[dd m] y] rest] tl] eqn:E; [discriminate|].
    destruct rest as [|c rest]; [|discriminate].
    destruct (date_exists y m dd) eqn:V; [|discriminate].
    intros H. injection H as <-. cbn [year month day]. split; [exact V|].
    assert (Hin : In (dd, m, y, []) (match_dmY (strip s))) by (rewrite E; now left).
    unfold match_dmY in Hin.
    apply in_flat_map in Hin as ([d1 r1] & H1 & Hin).
    apply in_flat_map in Hin as ([m1 r2] & H2 & Hin).
    apply in_map_iff in Hin as ([y1 r3] & E3 & H3).
    cbn [fst snd] in *. injection E3 as -> -> -> ->.
    unfold then_slash in H1, H2.
    apply in_flat_map in H1 as ([d2 r4] & H1 & H1').
    apply in_map_iff in H1' as (r5 & E1 & H1'). cbn [fst snd] in *.
    injection E1 as -> ->. apply literal_in in H1'. subst r4.
    apply in_flat_map in H2 as ([m2 r6] & H2 & H2').
    apply in_map_iff in H2' as (r7 & E2 & H2'). cbn [fst snd] in *.
    injection E2 as -> ->. apply literal_in in H2'. subst r6.
    apply match_day_in in H1 as (D & ED & Hd & HD).
    apply match_month_in in H2 as (M & EM & Hm & HM).
    apply match_year_in in H3 as [EY Hy]. rewrite app_nil_r in EY.
    exists D, M. change (u "/") with [47%N]. cbn [app].
    split; [now rewrite ED, EM, EY|]. split; [|exact HM].
    destruct HD as [HD|[HD|HD]]; [now left|now right|].
    exfalso. rewrite ED, HD in Hh. cbn [app] in Hh. discriminate Hh.
  - intros (Hv & D & M & E & HD & HM). exact (parse_accepts s d D M Hv E HD HM).
Qed.

Lemma parse_data_ptbr_spec_witness :
  parse_data_ptbr (u " 7/03/2024 ") = Some sample_date.
Proof.
  assert (H : in_tables (u " 7/03/2024 "))
    by (repeat (constructor; [reflexivity|]); constructor).
  apply (proj2 (parse_data_ptbr_spec (u " 7/03/2024 ") sample_date H)).
  split; [reflexivity|]. exists (u "7"), (u "03"). split; [reflexivity|].
  split; [left; reflexivity|right; reflexivity].
Defined.

Lemma strftime_stripped (d : datetime) :
  valid_date d = true -> (1000 <= year d)%Z ->
  strip (strftime_dmY d)
  = pad2 (day d) ++ u "/" ++ pad2 (month d) ++ u "/" ++ pad4 (year d).
Proof.
  intros Hv Hy. destruct (valid_date_ranges d Hv) as (Hy' & Hm & Hd).
  unfold strftime_dmY. rewrite (pad4_year (year d)) by lia.
  destruct (pad4_digits (year d)) as (a & b & c & e & -> & Pa & Pb & Pc & Pe & _); [lia|].
  apply strip_fixed.
  - generalize (day d) Hd. intros v Hv'. enum_Z v 1%nat 31%nat; reflexivity.
  - rewrite !rev_app_distr. cbn [rev app]. apply isdigit_cases in Pe.
    enum_char e; try lia; reflexivity.
Qed.

(** X25. A date that exists, of the year 1000 or later, written as the
    date box writes its default, day and month with two digits and the
    year, is read back as the same date. *)
Theorem parse_strftime (d : datetime) :
  valid_date d = true -> (1000 <= year d)%Z ->
  parse_data_ptbr (strftime_dmY d) = Some d.
Proof.
  intros Hv Hy.
  apply (parse_accepts (strftime_dmY d) d (pad2 (day d)) (pad2 (month d)) Hv);
    [now apply strftime_stripped|now right|now right].
Qed.

Lemma parse_strftime_witness :
  parse_data_ptbr (strftime_dmY sample_date) = Some sample_date.
Proof. apply parse_strftime; [reflexivity|vm_compute; discriminate]. Defined.

(** ** Quantities on the page *)

Lemma check_shown_range : forallb check_shown (seq 0 2000) = true.
Proof. vm_compute. reflexivity. Qed.

Lemma integer_shown (n : Z) :
  (-1999 <= n <= 1999)%Z ->
  notna (coerce_qtd (PyInt n)) = true /\ qtd_shown (coerce_qtd (PyInt n)) = str_of_Z n.
Proof.
  intros Hn. pose proof check_shown_range as H. rewrite forallb_forall in H.
  specialize (H (Z.abs_nat n)). unfold check_shown in H. cbv zeta in H.
  assert (Hin : In (Z.abs_nat n) (seq 0 2000)) by (apply in_seq; lia).
  apply H in Hin. apply andb_prop in Hin as [Hin P4]. apply andb_prop in Hin as [Hin P3].
  apply andb_prop in Hin as [P1 P2]. apply ustring_eqb_eq in P3, P4.
  destruct (Z.le_gt_cases 0 n) as [Hpos|Hneg].
  - replace (Z.of_nat (Z.abs_nat n)) with n in * by lia. now split.
  - replace (- Z.of_nat (Z.abs_nat n))%Z with n in * by lia. now split.
Qed.

(** X26. A quantity written in the sheet as an integer between -1999 and
    1999 goes through the loader as a float and comes out on the page as
    the integer it was, without decimal point; a quantity cell the loader
    could not read as a number, which the table holds as a null, is shown
    as empty text. *)
Theorem quantity_on_page (row : series) :
  (forall n, (-1999 <= n <= 1999)%Z ->
     col_in row (u "QTD") = true ->
     row_get row (u "QTD") PyNone = coerce_qtd (PyInt n) ->
     format_qtd (PyStr (str_or_default row (u "QTD") (u ""))) = str_of_Z n)
  /\ (notna (row_get row (u "QTD") PyNone) = false ->
      format_qtd (PyStr (str_or_default row (u "QTD") (u ""))) = u "").
Proof.
  split.
  - intros n Hn Hc Hr. destruct (integer_shown n Hn) as [Hna Hs].
    unfold str_or_default. rewrite Hc, Hr, Hna. exact Hs.
  - intros Hna. unfold str_or_default. rewrite Hna, andb_false_r. reflexivity.
Qed.

Lemma quantity_on_page_witness :
  format_qtd (PyStr (str_or_default [(u "QTD", coerce_qtd (PyInt 10))] (u "QTD") (u "")))
  = u "10"
  /\ format_qtd (PyStr (str_or_default [(u "QTD", coerce_qtd (PyStr (u "abc")))]
                                       (u "QTD") (u "")))
     = u "".
Proof.
  split.
  - apply (proj1 (quantity_on_page [(u "QTD", coerce_qtd (PyInt 10))]) 10%Z);
      [lia|reflexivity|reflexivity].
  - apply (proj2 (quantity_on_page [(u "QTD", coerce_qtd (PyStr (u "abc")))])).
    vm_compute. reflexivity.
Defined.
